(** * Mt3620DiningPhilosophers/main.c: dining philosophers on POSIX threads

    The program is embedded statement by statement.  Every statement of
    [PhilPhunction] and of [main] is a control point named after its line
    in main.c; a statement makes at most one call into the C library
    (pthread, applibs, libc) and continues with the value the call returned.
    The value is an input of the step function, so that the thread function
    can be studied alone, against any behaviour of the library, and then
    composed with the mutexes, the shared [philosophers] array and the
    [terminationRequired] flag in the model of the whole process. *)

From Stdlib Require Import ZArith List Lia Bool String.
From stdpp Require Import base list.
Import ListNotations.
Local Open Scope string_scope.
Local Open Scope Z_scope.

(** ** C integers *)

(** [int] is a 32 bit signed integer.  Signed overflow is undefined in C:
    the checked operations have no result there. *)
Definition INT_MIN : Z := - 2 ^ 31.
Definition INT_MAX : Z := 2 ^ 31 - 1.

Definition int_range (z : Z) : bool := (INT_MIN <=? z) && (z <=? INT_MAX).

Definition int_checked (z : Z) : option Z :=
  if int_range z then Some z else None.

(** [a % b] of C truncates towards zero, like [Z.rem]. *)
Definition c_mod (a b : Z) : Z := Z.rem a b.
Arguments c_mod : simpl never.

(** ** The calls a statement can make *)

(** A pointer to [forks[k]] is the index [k]. *)
Abbreviation mutex_ptr := nat (only parsing).

Inductive GPIO_Value := GPIO_Value_Low | GPIO_Value_High.

(** The LED identifiers of mt3620_rdb.h (their numbers are not used). *)
Inductive led :=
| MT3620_RDB_LED1_GREEN
| MT3620_RDB_LED2_GREEN
| MT3620_RDB_LED3_GREEN
| MT3620_RDB_LED4_GREEN
| MT3620_RDB_STATUS_LED_GREEN.

(** The arguments of a [Log_Debug] format. *)
Inductive log_arg :=
| AStr (s : string)
| AInt (z : Z).

(** The library functions named in main.c, and the read of the volatile
    flag.  [Tau] is a statement that calls nothing.  Format strings are
    kept as they are spelled in the source (the escape [\n] is left as
    two characters). *)
Inductive call :=
| Tau
| Read_terminationRequired
| Log_Debug (fmt : string) (args : list log_arg)
| Rand
| Nanosleep (tv_sec : Z)
| Pthread_mutex_lock (m : mutex_ptr)
| Pthread_mutex_trylock (m : mutex_ptr)
| Pthread_mutex_unlock (m : mutex_ptr)
| Pthread_mutex_init (m : mutex_ptr)
| Pthread_mutex_destroy (m : mutex_ptr)
| Pthread_create (i : nat)
| Pthread_join (i : nat)
| Sigaction_SIGTERM
| GPIO_OpenAsOutput (id : led)
| GPIO_SetValue (fd : Z) (v : GPIO_Value)
| Exit (status : Z)
| Return_main (status : Z).

(** ** struct philData *)

Module Philosopher.
Record t := mk {
  forkLeft : mutex_ptr;
  forkRight : mutex_ptr;
  name : string;
  thread : Z;
  gpio : Z;
  platesCounter : Z;
  isEating : Z;
  fail : Z
}.

Definition set_forkLeft (v : mutex_ptr) (p : t) : t :=
  mk v (forkRight p) (name p) (thread p) (gpio p) (platesCounter p) (isEating p) (fail p).
Definition set_forkRight (v : mutex_ptr) (p : t) : t :=
  mk (forkLeft p) v (name p) (thread p) (gpio p) (platesCounter p) (isEating p) (fail p).
Definition set_name (v : string) (p : t) : t :=
  mk (forkLeft p) (forkRight p) v (thread p) (gpio p) (platesCounter p) (isEating p) (fail p).
Definition set_thread (v : Z) (p : t) : t :=
  mk (forkLeft p) (forkRight p) (name p) v (gpio p) (platesCounter p) (isEating p) (fail p).
Definition set_gpio (v : Z) (p : t) : t :=
  mk (forkLeft p) (forkRight p) (name p) (thread p) v (platesCounter p) (isEating p) (fail p).
Definition set_platesCounter (v : Z) (p : t) : t :=
  mk (forkLeft p) (forkRight p) (name p) (thread p) (gpio p) v (isEating p) (fail p).
Definition set_isEating (v : Z) (p : t) : t :=
  mk (forkLeft p) (forkRight p) (name p) (thread p) (gpio p) (platesCounter p) v (fail p).
Definition set_fail (v : Z) (p : t) : t :=
  mk (forkLeft p) (forkRight p) (name p) (thread p) (gpio p) (platesCounter p) (isEating p) v.
End Philosopher.

(** ** PhilPhunction: the thread function of one philosopher *)

Module PhilPhunction.

(** Control points, one per statement, named after the line in main.c.
    [L94] is [return NULL]; [Returned] is the finished thread. *)
Inductive label :=
| L53 | L54 | L55 | L56 | L58 | L59 | L60 | L61
| L65 | L66 | L67 | L69 | L70 | L71 | L72 | L73 | L74 | L75 | L76 | L77
| L79 | L81 | L82 | L83 | L84 | L85 | L86 | L87 | L88 | L89 | L90 | L91
| L94 | Returned.

(** The local variables ([phil] is the record passed to every step). *)
Record locals := mk {
  pc : label;
  failed : Z;
  triesLeft : Z;
  swapped : Z;
  forkLeft : mutex_ptr;
  forkRight : mutex_ptr;
  forkTemp : mutex_ptr;
  sleepRandom : Z
}.

Definition at_pc (l : label) (s : locals) : locals :=
  mk l (failed s) (triesLeft s) (swapped s) (forkLeft s) (forkRight s) (forkTemp s) (sleepRandom s).
Definition set_failed (v : Z) (s : locals) : locals :=
  mk (pc s) v (triesLeft s) (swapped s) (forkLeft s) (forkRight s) (forkTemp s) (sleepRandom s).
Definition set_triesLeft (v : Z) (s : locals) : locals :=
  mk (pc s) (failed s) v (swapped s) (forkLeft s) (forkRight s) (forkTemp s) (sleepRandom s).
Definition set_swapped (v : Z) (s : locals) : locals :=
  mk (pc s) (failed s) (triesLeft s) v (forkLeft s) (forkRight s) (forkTemp s) (sleepRandom s).
Definition set_forkLeft (v : mutex_ptr) (s : locals) : locals :=
  mk (pc s) (failed s) (triesLeft s) (swapped s) v (forkRight s) (forkTemp s) (sleepRandom s).
Definition set_forkRight (v : mutex_ptr) (s : locals) : locals :=
  mk (pc s) (failed s) (triesLeft s) (swapped s) (forkLeft s) v (forkTemp s) (sleepRandom s).
Definition set_forkTemp (v : mutex_ptr) (s : locals) : locals :=
  mk (pc s) (failed s) (triesLeft s) (swapped s) (forkLeft s) (forkRight s) v (sleepRandom s).
Definition set_sleepRandom (v : Z) (s : locals) : locals :=
  mk (pc s) (failed s) (triesLeft s) (swapped s) (forkLeft s) (forkRight s) (forkTemp s) v.

(** The state on entry: [swapped] is initialised to 0 (line 50); the other
    locals are indeterminate and are written before they are read. *)
Definition entry : locals := mk L53 0 0 0 0%nat 0%nat 0%nat 0.

(** The call made by the statement at the current control point. *)
Definition call_of (s : locals) (phil : Philosopher.t) : call :=
  match pc s with
  | L53 => Read_terminationRequired
  | L54 => Log_Debug "%s is thinking\n" [AStr (Philosopher.name phil)]
  | L55 => Rand
  | L56 => Nanosleep (sleepRandom s)
  | L60 => Log_Debug "%s is hungry\n" [AStr (Philosopher.name phil)]
  | L65 => Pthread_mutex_lock (forkLeft s)
  | L66 => Log_Debug "%s takes %s fork\n"
             [AStr (Philosopher.name phil);
              AStr (if swapped s =? 0 then "left" else "right")]
  | L67 => if triesLeft s >? 0
           then Pthread_mutex_trylock (forkRight s)
           else Pthread_mutex_lock (forkRight s)
  | L69 => Log_Debug "%s takes %s fork\n"
             [AStr (Philosopher.name phil);
              AStr (if swapped s =? 1 then "left" else "right")]
  | L71 => Log_Debug "%s switching fork picking order\n" [AStr (Philosopher.name phil)]
  | L72 => Pthread_mutex_unlock (forkLeft s)
  | L79 => if failed s =? 0 then Tau else Read_terminationRequired
  | L84 => GPIO_SetValue (Philosopher.gpio phil) GPIO_Value_Low
  | L85 => Log_Debug "%s is eating\n" [AStr (Philosopher.name phil)]
  | L86 => Rand
  | L87 => Nanosleep (sleepRandom s)
  | L88 => Pthread_mutex_unlock (forkRight s)
  | L89 => Pthread_mutex_unlock (forkLeft s)
  | L91 => GPIO_SetValue (Philosopher.gpio phil) GPIO_Value_High
  | _ => Tau
  end.


(** One statement: the next locals and the updated [*phil], given the value
    [r] returned by the call of the statement (ignored where the source
    ignores it).  [1 + rand() % 8] lies between -6 and 8 and cannot
    overflow.  There is no result where the behaviour is undefined (signed
    overflow of a counter) and for the thread that has returned. *)
Definition exec (s : locals) (phil : Philosopher.t) (r : Z)
  : option (locals * Philosopher.t) :=
  match pc s with
  | L53 => (* while (!terminationRequired) *)
      Some (at_pc (if r =? 0 then L54 else L94) s, phil)
  | L54 => Some (at_pc L55 s, phil)
  | L55 => (* struct timespec sleepRandom = { 1 + rand() % 8, 0 }; *)
      Some (at_pc L56 (set_sleepRandom (1 + c_mod r 8) s), phil)
  | L56 => Some (at_pc L58 s, phil)
  | L58 => Some (at_pc L59 (set_forkLeft (Philosopher.forkLeft phil) s), phil)
  | L59 => Some (at_pc L60 (set_forkRight (Philosopher.forkRight phil) s), phil)
  | L60 => Some (at_pc L61 s, phil)
  | L61 => Some (at_pc L65 (set_triesLeft 2 s), phil)
  | L65 => (* failed = pthread_mutex_lock(forkLeft); *)
      Some (at_pc L66 (set_failed r s), phil)
  | L66 => Some (at_pc L67 s, phil)
  | L67 => (* failed = (triesLeft > 0) ? trylock(forkRight) : lock(forkRight); *)
      Some (at_pc L69 (set_failed r s), phil)
  | L69 => Some (at_pc L70 s, phil)
  | L70 => (* if (failed) *)
      Some (at_pc (if failed s =? 0 then L79 else L71) s, phil)
  | L71 => Some (at_pc L72 s, phil)
  | L72 => Some (at_pc L73 s, phil)
  | L73 => Some (at_pc L74 (set_forkTemp (forkLeft s) s), phil)
  | L74 => Some (at_pc L75 (set_forkLeft (forkRight s) s), phil)
  | L75 => Some (at_pc L76 (set_forkRight (forkTemp s) s), phil)
  | L76 => (* triesLeft -= 1; *)
      v ← int_checked (triesLeft s - 1);
      Some (at_pc L77 (set_triesLeft v s), phil)
  | L77 => Some (at_pc L79 (set_swapped (if swapped s =? 0 then 1 else 0) s), phil)
  | L79 => (* while (failed && !terminationRequired) *)
      Some (at_pc (if failed s =? 0 then L81
                   else if r =? 0 then L65 else L81) s, phil)
  | L81 => (* if (!failed) *)
      Some (at_pc (if failed s =? 0 then L82 else L53) s, phil)
  | L82 => Some (at_pc L83 s, Philosopher.set_isEating 1 phil)
  | L83 => (* phil->platesCounter++; *)
      v ← int_checked (Philosopher.platesCounter phil + 1);
      Some (at_pc L84 s, Philosopher.set_platesCounter v phil)
  | L84 => Some (at_pc L85 s, phil)
  | L85 => Some (at_pc L86 s, phil)
  | L86 => (* sleepRandom.tv_sec = 1 + rand() % 8; *)
      Some (at_pc L87 (set_sleepRandom (1 + c_mod r 8) s), phil)
  | L87 => Some (at_pc L88 s, phil)
  | L88 => Some (at_pc L89 s, phil)
  | L89 => Some (at_pc L90 s, phil)
  | L90 => Some (at_pc L91 s, Philosopher.set_isEating 0 phil)
  | L91 => Some (at_pc L53 s, phil)
  | L94 => Some (at_pc Returned s, phil)
  | Returned => None
  end.

End PhilPhunction.

(** ** main *)

Module Main.

(** Control points of [main], named after the line in main.c; the three
    parts of a [for] header are separate points. *)
Inductive label :=
| M102 | M106 | M107 | M108 | M112 | M113 | M114 | M115 | M116
| M126_init | M126_cond | M127 | M128 | M129 | M130 | M126_incr
| M134_init | M134_cond | M135 | M136 | M137 | M138 | M139 | M140
| M141 | M142 | M143 | M144 | M145 | M134_incr
| M150 | M151 | M152 | M153_init | M153_cond | M154 | M153_incr | M156
| M157_init | M157_cond | M158 | M157_incr | M160 | M161
| M164 | M165 | Exited.

(** The local variables of [main] that are not shared with the threads
    ([forks] and [philosophers] are part of the process state). [phil] is
    the index of the element of [philosophers] it points to. *)
Record locals := mk {
  pc : label;
  gpios : list Z;
  phil : nat;
  i : Z;
  failed : Z
}.

Definition at_pc (l : label) (s : locals) : locals :=
  mk l (gpios s) (phil s) (i s) (failed s).
Definition set_gpios (v : list Z) (s : locals) : locals :=
  mk (pc s) v (phil s) (i s) (failed s).
Definition set_phil (v : nat) (s : locals) : locals :=
  mk (pc s) (gpios s) v (i s) (failed s).
Definition set_i (v : Z) (s : locals) : locals :=
  mk (pc s) (gpios s) (phil s) v (failed s).
Definition set_failed (v : Z) (s : locals) : locals :=
  mk (pc s) (gpios s) (phil s) (i s) v.

(** The identifier [pthread_create] stores for the thread of
    [philosophers[k]]; any injective choice does. *)
Definition thread_id (k : nat) : Z := Z.of_nat k + 1.

Definition nameList : list string :=
  ["Socrates"; "Plato"; "Phytagoras"; "Aristotle"; "Diogenes"].

(** [gpios], [phil], [i] and [failed] are indeterminate on entry. *)
Definition entry : locals := mk M102 [0; 0; 0; 0; 0] 0%nat 0 0.

(** The element [i] of an array, for an [int] index. *)
Definition at_index {A} (a : list A) (i : Z) : option A :=
  if i <? 0 then None else a !! Z.to_nat i.

(** [philosophers[k].field = v]: no result out of range. *)
Definition store (k : nat) (f : Philosopher.t -> Philosopher.t)
  (philosophers : list Philosopher.t) : option (list Philosopher.t) :=
  p ← philosophers !! k; Some (<[k := f p]> philosophers).

Definition call_of (s : locals) (philosophers : list Philosopher.t) : call :=
  match pc s with
  | M102 => Log_Debug "Dining philosophers starting.\n" []
  | M108 => Sigaction_SIGTERM
  | M112 => GPIO_OpenAsOutput MT3620_RDB_LED1_GREEN
  | M113 => GPIO_OpenAsOutput MT3620_RDB_LED2_GREEN
  | M114 => GPIO_OpenAsOutput MT3620_RDB_LED3_GREEN
  | M115 => GPIO_OpenAsOutput MT3620_RDB_LED4_GREEN
  | M116 => GPIO_OpenAsOutput MT3620_RDB_STATUS_LED_GREEN
  | M127 => Pthread_mutex_init (Z.to_nat (i s))
  | M129 => Log_Debug "Failed to initialize mutexes.\n" []
  | M130 => Exit 1
  | M141 => Pthread_create (phil s)
  | M144 => match philosophers !! phil s with
            | Some p => Log_Debug "Failed to create thread for %s.\n"
                          [AStr (Philosopher.name p)]
            | None => Tau
            end
  | M145 => Exit 1
  | M151 => Read_terminationRequired
  | M152 => Log_Debug "Hello dining philosophers (" []
  | M154 => match at_index philosophers (i s) with
            | Some p => Log_Debug (if Philosopher.isEating p =? 0 then "0" else "1") []
            | None => Tau
            end
  | M156 => Log_Debug " - (" []
  | M158 => match at_index philosophers (i s) with
            | Some p => Log_Debug "%i " [AInt (Philosopher.platesCounter p)]
            | None => Tau
            end
  | M160 => Log_Debug ")\n" []
  | M161 => Nanosleep 1
  | M164 => Log_Debug "Dining philosophers exiting.\n" []
  | M165 => Return_main 0
  | _ => Tau
  end.

(** One statement of [main]: the next locals and the updated
    [philosophers], given the value [r] returned by the call of the
    statement.  No result: an array is indexed out of range, or [main] has
    exited. *)
Definition exec (s : locals) (philosophers : list Philosopher.t) (r : Z)
  : option (locals * list Philosopher.t) :=
  match pc s with
  | M102 => Some (at_pc M106 s, philosophers)
  | M106 => Some (at_pc M107 s, philosophers)
  | M107 => Some (at_pc M108 s, philosophers)
  | M108 => Some (at_pc M112 s, philosophers)
  | M112 => Some (at_pc M113 (set_gpios (<[0%nat := r]> (gpios s)) s), philosophers)
  | M113 => Some (at_pc M114 (set_gpios (<[1%nat := r]> (gpios s)) s), philosophers)
  | M114 => Some (at_pc M115 (set_gpios (<[2%nat := r]> (gpios s)) s), philosophers)
  | M115 => Some (at_pc M116 (set_gpios (<[3%nat := r]> (gpios s)) s), philosophers)
  | M116 => Some (at_pc M126_init (set_gpios (<[4%nat := r]> (gpios s)) s), philosophers)
  | M126_init => Some (at_pc M126_cond (set_i 0 s), philosophers)
  | M126_cond => Some (at_pc (if i s <? 5 then M127 else M134_init) s, philosophers)
  | M127 => (* failed = pthread_mutex_init(&forks[i], NULL); *)
      Some (at_pc M128 (set_failed r s), philosophers)
  | M128 => Some (at_pc (if failed s =? 0 then M126_incr else M129) s, philosophers)
  | M129 => Some (at_pc M130 s, philosophers)
  | M130 => Some (at_pc Exited s, philosophers)
  | M126_incr => Some (at_pc M126_cond (set_i (i s + 1) s), philosophers)
  | M134_init => Some (at_pc M134_cond (set_i 0 s), philosophers)
  | M134_cond => Some (at_pc (if i s <? 5 then M135 else M150) s, philosophers)
  | M135 => (* phil = &philosophers[i]; *)
      if (i s <? 0) || (5 <=? i s) then None
      else Some (at_pc M136 (set_phil (Z.to_nat (i s)) s), philosophers)
  | M136 => (* phil->name = nameList[i]; *)
      n ← at_index nameList (i s);
      ps ← store (phil s) (Philosopher.set_name n) philosophers;
      Some (at_pc M137 s, ps)
  | M137 => (* phil->forkLeft = &forks[i]; *)
      ps ← store (phil s) (Philosopher.set_forkLeft (Z.to_nat (i s))) philosophers;
      Some (at_pc M138 s, ps)
  | M138 => (* phil->forkRight = &forks[(i + 1) % 5]; *)
      ps ← store (phil s) (Philosopher.set_forkRight (Z.to_nat (c_mod (i s + 1) 5))) philosophers;
      Some (at_pc M139 s, ps)
  | M139 =>
      ps ← store (phil s) (Philosopher.set_platesCounter 0) philosophers;
      Some (at_pc M140 s, ps)
  | M140 =>
      ps ← store (phil s) (Philosopher.set_isEating 0) philosophers;
      Some (at_pc M141 s, ps)
  | M141 => (* phil->fail = pthread_create(&phil->thread, NULL, PhilPhunction, phil); *)
      ps ← store (phil s)
             (fun p => Philosopher.set_fail r
                         (if r =? 0 then Philosopher.set_thread (thread_id (phil s)) p
                          else p))
             philosophers;
      Some (at_pc M142 s, ps)
  | M142 => (* phil->gpio = gpios[i]; *)
      g ← at_index (gpios s) (i s);
      ps ← store (phil s) (Philosopher.set_gpio g) philosophers;
      Some (at_pc M143 s, ps)
  | M143 => (* if (phil->fail) *)
      p ← philosophers !! phil s;
      Some (at_pc (if Philosopher.fail p =? 0 then M134_incr else M144) s, philosophers)
  | M144 => Some (at_pc M145 s, philosophers)
  | M145 => Some (at_pc Exited s, philosophers)
  | M134_incr => Some (at_pc M134_cond (set_i (i s + 1) s), philosophers)
  | M150 => Some (at_pc M151 s, philosophers)
  | M151 => (* while (!terminationRequired) *)
      Some (at_pc (if r =? 0 then M152 else M164) s, philosophers)
  | M152 => Some (at_pc M153_init s, philosophers)
  | M153_init => Some (at_pc M153_cond (set_i 0 s), philosophers)
  | M153_cond => Some (at_pc (if i s <? 5 then M154 else M156) s, philosophers)
  | M154 => _ ← at_index philosophers (i s); Some (at_pc M153_incr s, philosophers)
  | M153_incr => Some (at_pc M153_cond (set_i (i s + 1) s), philosophers)
  | M156 => Some (at_pc M157_init s, philosophers)
  | M157_init => Some (at_pc M157_cond (set_i 0 s), philosophers)
  | M157_cond => Some (at_pc (if i s <? 5 then M158 else M160) s, philosophers)
  | M158 => _ ← at_index philosophers (i s); Some (at_pc M157_incr s, philosophers)
  | M157_incr => Some (at_pc M157_cond (set_i (i s + 1) s), philosophers)
  | M160 => Some (at_pc M161 s, philosophers)
  | M161 => Some (at_pc M151 s, philosophers)
  | M164 => Some (at_pc M165 s, philosophers)
  | M165 => Some (at_pc Exited s, philosophers)
  | Exited => None
  end.

End Main.

(** ** The process: main, the philosopher threads and what they share *)

(** A mutex of [forks]: not yet initialised, free, or locked by the thread
    of [philosophers[owner]]. *)
Inductive mutex :=
| Uninitialized
| Unlocked
| Locked (owner : nat).

(** Who runs a statement. *)
Inductive actor :=
| The_main
| The_phil (k : nat).

Record occurrence := Occ {
  occ_actor : actor;
  occ_call : call;
  occ_ret : Z
}.

Record process := mk_process {
  terminationRequired : bool;
  handler_installed : bool;
  forks : list mutex;
  philosophers : list Philosopher.t;
  main : Main.locals;
  threads : list (option PhilPhunction.locals);
  exit_status : option Z;
  trace : list occurrence
}.

Definition set_terminationRequired (v : bool) (g : process) : process :=
  mk_process v (handler_installed g) (forks g) (philosophers g) (main g) (threads g)
    (exit_status g) (trace g).
Definition set_handler_installed (v : bool) (g : process) : process :=
  mk_process (terminationRequired g) v (forks g) (philosophers g) (main g) (threads g)
    (exit_status g) (trace g).
Definition set_forks (v : list mutex) (g : process) : process :=
  mk_process (terminationRequired g) (handler_installed g) v (philosophers g) (main g)
    (threads g) (exit_status g) (trace g).
Definition set_philosophers (v : list Philosopher.t) (g : process) : process :=
  mk_process (terminationRequired g) (handler_installed g) (forks g) v (main g)
    (threads g) (exit_status g) (trace g).
Definition set_main (v : Main.locals) (g : process) : process :=
  mk_process (terminationRequired g) (handler_installed g) (forks g) (philosophers g) v
    (threads g) (exit_status g) (trace g).
Definition set_threads (v : list (option PhilPhunction.locals)) (g : process) : process :=
  mk_process (terminationRequired g) (handler_installed g) (forks g) (philosophers g)
    (main g) v (exit_status g) (trace g).
Definition set_exit_status (v : option Z) (g : process) : process :=
  mk_process (terminationRequired g) (handler_installed g) (forks g) (philosophers g)
    (main g) (threads g) v (trace g).
Definition record (o : occurrence) (g : process) : process :=
  mk_process (terminationRequired g) (handler_installed g) (forks g) (philosophers g)
    (main g) (threads g) (exit_status g) (o :: trace g).

(** EBUSY of errno.h on Linux. *)
Definition EBUSY : Z := 16.

(** What the library and the shared memory answer to a call of [who]: the
    returned value and the process after the call.  [r] is the answer
    where the model leaves it open (what [rand] returns, whether
    [pthread_mutex_init], [pthread_create], [sigaction] or a GPIO call
    fails).  The mutexes are default mutexes that work: a lock of a free
    mutex takes it and returns 0, a lock of a taken mutex does not return
    (no answer), a trylock of a taken mutex returns EBUSY, an unlock by
    the owner frees it; everything else on a mutex is undefined (no
    answer). *)
Definition respond (who : actor) (c : call) (r : Z) (g : process)
  : option (Z * process) :=
  match c with
  | Read_terminationRequired =>
      Some (if terminationRequired g then 1 else 0, g)
  | Pthread_mutex_lock m =>
      match who, forks g !! m with
      | The_phil k, Some Unlocked => Some (0, set_forks (<[m := Locked k]> (forks g)) g)
      | _, _ => None
      end
  | Pthread_mutex_trylock m =>
      match who, forks g !! m with
      | The_phil k, Some Unlocked => Some (0, set_forks (<[m := Locked k]> (forks g)) g)
      | The_phil k, Some (Locked _) => Some (EBUSY, g)
      | _, _ => None
      end
  | Pthread_mutex_unlock m =>
      match who, forks g !! m with
      | The_phil k, Some (Locked o) =>
          if Nat.eqb o k then Some (0, set_forks (<[m := Unlocked]> (forks g)) g) else None
      | _, _ => None
      end
  | Pthread_mutex_init m =>
      if r =? 0 then Some (0, set_forks (<[m := Unlocked]> (forks g)) g) else Some (r, g)
  | Pthread_mutex_destroy m =>
      Some (0, set_forks (<[m := Uninitialized]> (forks g)) g)
  | Pthread_create k =>
      if r =? 0
      then Some (0, set_threads (<[k := Some PhilPhunction.entry]> (threads g)) g)
      else Some (r, g)
  | Pthread_join k =>
      match threads g !! k with
      | Some (Some s) =>
          match PhilPhunction.pc s with
          | PhilPhunction.Returned => Some (0, g)
          | _ => None
          end
      | _ => None
      end
  | Sigaction_SIGTERM =>
      if r =? 0 then Some (0, set_handler_installed true g) else Some (r, g)
  | Exit status => Some (r, set_exit_status (Some status) g)
  | Return_main status => Some (r, set_exit_status (Some status) g)
  | Tau | Log_Debug _ _ | Rand | Nanosleep _ | GPIO_OpenAsOutput _ | GPIO_SetValue _ _ =>
      Some (r, g)
  end.

(** The moves of the process: a statement of [main], a statement of the
    thread of [philosophers[k]], or the delivery of SIGTERM, which runs
    [TerminationHandler] (line 39). *)
Inductive move :=
| Step_main (r : Z)
| Step_phil (k : nat) (r : Z)
| Signal_SIGTERM.

(** [TerminationHandler] is only run once [sigaction] has installed it;
    nothing runs in a process that has exited. *)
Definition step (g : process) (mv : move) : option process :=
  match exit_status g with
  | Some _ => None
  | None =>
      match mv with
      | Signal_SIGTERM =>
          if handler_installed g then Some (set_terminationRequired true g) else None
      | Step_main r =>
          let c := Main.call_of (main g) (philosophers g) in
          '(ret, g1) ← respond The_main c r g;
          '(s', ps') ← Main.exec (main g1) (philosophers g1) ret;
          Some (record (Occ The_main c ret) (set_main s' (set_philosophers ps' g1)))
      | Step_phil k r =>
          s ← mjoin (threads g !! k);
          p ← philosophers g !! k;
          let c := PhilPhunction.call_of s p in
          '(ret, g1) ← respond (The_phil k) c r g;
          '(s', p') ← PhilPhunction.exec s p ret;
          Some (record (Occ (The_phil k) c ret)
                  (set_threads (<[k := Some s']> (threads g1))
                     (set_philosophers (<[k := p']> (philosophers g1)) g1)))
      end
  end.

Fixpoint steps (g : process) (mvs : list move) : option process :=
  match mvs with
  | [] => Some g
  | mv :: mvs' => g' ← step g mv; steps g' mvs'
  end.

(** The process when [main] is entered.  [philosophers] is an
    uninitialised local array: its content [junk] is whatever the stack
    holds. *)
Definition initial (junk : Philosopher.t) : process :=
  mk_process false false (replicate 5 Uninitialized) (replicate 5 junk)
    Main.entry (replicate 5 None) None [].

Definition reachable (g : process) : Prop :=
  exists junk mvs, steps (initial junk) mvs = Some g.

(** ** One thread against an arbitrary library *)

(** A statement that was executed: where, the call it made, the value the
    call returned, and [*phil] after the statement. *)
Record event := Ev {
  ev_pc : PhilPhunction.label;
  ev_call : call;
  ev_ret : Z;
  ev_phil : Philosopher.t
}.

(** A thread with its record and what it did so far, latest first. *)
Record config := Config {
  c_locals : PhilPhunction.locals;
  c_phil : Philosopher.t;
  c_history : list event
}.

Definition phil_step (c : config) (r : Z) : option config :=
  '(s', p') ← PhilPhunction.exec (c_locals c) (c_phil c) r;
  Some (Config s' p'
          (Ev (PhilPhunction.pc (c_locals c))
              (PhilPhunction.call_of (c_locals c) (c_phil c)) r p' :: c_history c)).

(** [phil_run c rs]: as many statements as [rs] has answers, the k-th
    statement getting the k-th answer (unused by a statement without
    call). *)
Fixpoint phil_run (c : config) (rs : list Z) : option config :=
  match rs with
  | [] => Some c
  | r :: rs' => c' ← phil_step c r; phil_run c' rs'
  end.

Definition release (m : mutex_ptr) (held : list mutex_ptr) : list mutex_ptr :=
  List.filter (fun x => negb (Nat.eqb x m)) held.

(** The mutexes a thread holds after the history [h]: those it locked (a
    lock or trylock that returned 0) and has not unlocked since.  After an
    unlock the caller does not hold the mutex, whatever the call returned:
    it only fails on a mutex the caller does not hold. *)
Fixpoint holds (h : list event) : list mutex_ptr :=
  match h with
  | [] => []
  | e :: h' =>
      match ev_call e with
      | Pthread_mutex_lock m | Pthread_mutex_trylock m =>
          if ev_ret e =? 0 then m :: holds h' else holds h'
      | Pthread_mutex_unlock m => release m (holds h')
      | _ => holds h'
      end
  end.

Definition is_trylock (c : call) : bool :=
  match c with Pthread_mutex_trylock _ => true | _ => false end.

(** The thread logs that the philosopher is hungry: an acquisition
    attempt begins. *)
Definition is_hungry (c : call) : bool :=
  match c with
  | Log_Debug fmt _ => String.eqb fmt "%s is hungry\n"
  | _ => false
  end.

(** The number of [pthread_mutex_trylock] calls of the current
    acquisition attempt, that is since the thread last logged that the
    philosopher is hungry.  The count is read off the calls alone: it
    does not look at [triesLeft] nor at where the counter is set. *)
Fixpoint probes (h : list event) : nat :=
  match h with
  | [] => 0
  | e :: h' =>
      if is_hungry (ev_call e) then 0
      else (if is_trylock (ev_call e) then 1 else 0) + probes h'
  end%nat.

(** What was passed to [Log_Debug], latest first. *)
Fixpoint log_output (h : list event) : list (string * list log_arg) :=
  match h with
  | [] => []
  | e :: h' =>
      match ev_call e with
      | Log_Debug fmt args => (fmt, args) :: log_output h'
      | _ => log_output h'
      end
  end.

Definition is_mutex_call (c : call) : bool :=
  match c with
  | Pthread_mutex_lock _ | Pthread_mutex_trylock _ | Pthread_mutex_unlock _ => true
  | _ => false
  end.

(** The calls on mutexes, latest first. *)
Definition mutex_calls (h : list event) : list call :=
  List.filter is_mutex_call (map ev_call h).

(** A configuration without the returned values: the locals, [*phil] and,
    for every statement executed, where it was, the call and [*phil] after
    it. *)
Definition observable (c : config)
  : PhilPhunction.locals * Philosopher.t
    * list (PhilPhunction.label * call * Philosopher.t) :=
  (c_locals c, c_phil c, map (fun e => (ev_pc e, ev_call e, ev_phil e)) (c_history c)).

(** Philosopher [k] as [main] sets it up (lines 136 to 142) with the
    descriptor [fd] for its LED. *)
Definition wired (k : nat) (fd : Z) : Philosopher.t :=
  Philosopher.mk k ((k + 1) mod 5)%nat (nth k Main.nameList "")
    (Main.thread_id k) fd 0 0 0.

(** A run that stays inside the current acquisition attempt: it stops
    short of logging that the philosopher is hungry, which begins the next
    one.  Whether the counter is set again on the way is not part of the
    definition. *)
Fixpoint attempt_run (c : config) (rs : list Z) : option config :=
  match rs with
  | [] => Some c
  | r :: rs' =>
      if is_hungry (PhilPhunction.call_of (c_locals c) (c_phil c)) then None
      else c' ← phil_step c r; attempt_run c' rs'
  end.

(** What a thread can hold at each control point. *)
Definition holds_inv (c : config) : Prop :=
  let s := c_locals c in
  let H := holds (c_history c) in
  let fl := PhilPhunction.forkLeft s in
  let fr := PhilPhunction.forkRight s in
  match PhilPhunction.pc s with
  | PhilPhunction.L66 | PhilPhunction.L67 | PhilPhunction.L71 | PhilPhunction.L72
  | PhilPhunction.L89 => incl H [fl]
  | PhilPhunction.L69 | PhilPhunction.L70 =>
      if PhilPhunction.failed s =? 0 then incl H [fl; fr] else incl H [fl]
  | PhilPhunction.L79 | PhilPhunction.L81 =>
      if PhilPhunction.failed s =? 0 then incl H [fl; fr] else H = []
  | PhilPhunction.L82 | PhilPhunction.L83 | PhilPhunction.L84 | PhilPhunction.L85
  | PhilPhunction.L86 | PhilPhunction.L87 | PhilPhunction.L88 => incl H [fl; fr]
  | _ => H = []
  end.

(** How the number of probes of the current attempt and [triesLeft] are
    tied at each control point of the loop. *)
Definition probes_inv (c : config) : Prop :=
  let s := c_locals c in
  let n := Z.of_nat (probes (c_history c)) in
  let t := PhilPhunction.triesLeft s in
  n <= 2 /\
  match PhilPhunction.pc s with
  | PhilPhunction.L61 => n = 0
  | PhilPhunction.L65 | PhilPhunction.L66 | PhilPhunction.L67 | PhilPhunction.L77 =>
      t <= 2 /\ n = 2 - Z.max t 0
  | PhilPhunction.L69 | PhilPhunction.L70 | PhilPhunction.L71 | PhilPhunction.L72
  | PhilPhunction.L73 | PhilPhunction.L74 | PhilPhunction.L75 | PhilPhunction.L76 =>
      t <= 2 /\ n = 2 - Z.max (t - 1) 0
  | PhilPhunction.L79 =>
      PhilPhunction.failed s <> 0 -> t <= 2 /\ n = 2 - Z.max t 0
  | _ => True
  end.

Definition label_eq_dec (a b : PhilPhunction.label) : {a = b} + {a <> b}.
Proof. decide equality. Defined.

(** ** A schedule that ends in a circular wait *)

(** [main] alone, one statement per answer. *)
Definition main_moves (rs : list Z) : list move := map Step_main rs.

(** The statements of [main] up to the main loop (lines 102 to 150) when
    every call succeeds; the five LEDs get the descriptors 3 to 7. *)
Definition startup : list move :=
  main_moves ([0; 0; 0; 0] ++ [3; 4; 5; 6; 7] ++ [0]
              ++ replicate 20 0 ++ [0; 0]
              ++ replicate 55 0 ++ [0; 0]).

(** The five philosophers in lockstep: for every answer, each of them
    executes one statement, in the order 0 to 4. *)
Definition lockstep (rs : list Z) : list move :=
  flat_map (fun r => map (fun k => Step_phil k r) [0; 1; 2; 3; 4]%nat) rs.

(** All five think (lines 53 to 61), go twice through the pass of lines 65
    to 79, and execute lines 65 and 66 a third time. *)
Definition deadlock_schedule : list move :=
  startup ++ lockstep (replicate 8 0 ++ replicate 13 0 ++ replicate 13 0 ++ [0; 0]).

Definition past_startup (l : Main.label) : bool :=
  match l with
  | Main.M150 | Main.M151 | Main.M152 | Main.M153_init | Main.M153_cond | Main.M154
  | Main.M153_incr | Main.M156 | Main.M157_init | Main.M157_cond | Main.M158
  | Main.M157_incr | Main.M160 | Main.M161 | Main.M164 | Main.M165 | Main.Exited => true
  | _ => false
  end.

(** Every philosopher [k] is at line 67 with no probe left, so that the
    call is the blocking [pthread_mutex_lock]; it has locked [forks[k]]
    and asks for [forks[(k + 1) % 5]], which its neighbour has locked. *)
Definition circular_wait (g : process) : Prop :=
  past_startup (Main.pc (main g)) = true
  /\ length (threads g) = 5%nat
  /\ length (forks g) = 5%nat
  /\ forall k, (k < 5)%nat ->
       forks g !! k = Some (Locked k)
       /\ exists s p,
            threads g !! k = Some (Some s)
            /\ philosophers g !! k = Some p
            /\ PhilPhunction.pc s = PhilPhunction.L67
            /\ PhilPhunction.triesLeft s <= 0
            /\ PhilPhunction.forkLeft s = k
            /\ PhilPhunction.forkRight s = ((k + 1) mod 5)%nat.

(** ** The ring *)

(** The two forks of every philosopher, as the records say. *)
Definition wiring_of (ps : list Philosopher.t) : list (nat * nat) :=
  map (fun p => (Philosopher.forkLeft p, Philosopher.forkRight p)) ps.

Definition wiring (g : process) : list (nat * nat) := wiring_of (philosophers g).

(** The ring of the five philosophers: [k] has the forks [k] and
    [(k + 1) % 5]. *)
Definition ring : list (nat * nat) :=
  map (fun k => (k, (k + 1) mod 5)%nat) (seq 0 5).

(** Philosopher [k] may ask for fork [f]. *)
Definition requests (w : list (nat * nat)) (k f : nat) : bool :=
  match w !! k with
  | Some (l, r) => Nat.eqb f l || Nat.eqb f r
  | None => false
  end.

(** The thread of [philosophers[k]] has been created. *)
Definition created (g : process) (k : nat) : Prop :=
  exists s, threads g !! k = Some (Some s).

Definition wired_at (g : process) (k : nat) : Prop :=
  wiring g !! k = Some (k, (k + 1) mod 5)%nat.

(** The mutex a call is about. *)
Definition mutex_of (c : call) : option nat :=
  match c with
  | Pthread_mutex_lock m | Pthread_mutex_trylock m | Pthread_mutex_unlock m => Some m
  | _ => None
  end.

(** The local fork pointers of the thread of philosopher [k] point to its
    two forks wherever they are used. *)
Definition fork_locals_inv (k : nat) (s : PhilPhunction.locals) : Prop :=
  let mine m := m = k \/ m = ((k + 1) mod 5)%nat in
  match PhilPhunction.pc s with
  | PhilPhunction.L53 | PhilPhunction.L54 | PhilPhunction.L55 | PhilPhunction.L56
  | PhilPhunction.L58 | PhilPhunction.L94 | PhilPhunction.Returned => True
  | PhilPhunction.L59 => mine (PhilPhunction.forkLeft s)
  | PhilPhunction.L74 | PhilPhunction.L75 =>
      mine (PhilPhunction.forkLeft s) /\ mine (PhilPhunction.forkRight s)
      /\ mine (PhilPhunction.forkTemp s)
  | _ => mine (PhilPhunction.forkLeft s) /\ mine (PhilPhunction.forkRight s)
  end.

(** Where [main] is in the startup ([m] are its locals), which threads
    exist ([cr]) and which records are set up ([w] is the wiring). *)
Definition main_inv (m : Main.locals) (w : list (nat * nat)) (cr : nat -> Prop) : Prop :=
  let below (n : Z) := forall k, cr k -> Z.of_nat k < n in
  let mine := (Main.phil m, (Main.phil m + 1) mod 5)%nat in
  match Main.pc m with
  | Main.M102 | Main.M106 | Main.M107 | Main.M108 | Main.M112 | Main.M113
  | Main.M114 | Main.M115 | Main.M116 | Main.M126_init | Main.M126_cond
  | Main.M127 | Main.M128 | Main.M129 | Main.M130 | Main.M126_incr
  | Main.M134_init => below 0
  | Main.M134_cond | Main.M135 => 0 <= Main.i m <= 5 /\ below (Main.i m)
  | Main.M136 | Main.M137 =>
      0 <= Main.i m < 5 /\ Main.phil m = Z.to_nat (Main.i m) /\ below (Main.i m)
  | Main.M138 =>
      0 <= Main.i m < 5 /\ Main.phil m = Z.to_nat (Main.i m) /\ below (Main.i m)
      /\ fst <$> w !! Main.phil m = Some (Main.phil m)
  | Main.M139 | Main.M140 | Main.M141 =>
      0 <= Main.i m < 5 /\ Main.phil m = Z.to_nat (Main.i m) /\ below (Main.i m)
      /\ w !! Main.phil m = Some mine
  | Main.M142 | Main.M143 | Main.M134_incr =>
      0 <= Main.i m < 5 /\ Main.phil m = Z.to_nat (Main.i m) /\ below (Main.i m + 1)
  | _ => True
  end.

Definition startup_inv (g : process) : Prop :=
  length (philosophers g) = 5%nat
  /\ length (threads g) = 5%nat
  /\ (forall k, created g k -> wired_at g k)
  /\ (forall k s, threads g !! k = Some (Some s) -> fork_locals_inv k s)
  /\ main_inv (main g) (wiring g) (created g).

(** Some content of the stack for the uninitialised [philosophers]. *)
Definition junk0 : Philosopher.t := Philosopher.mk 0 0 "" 0 0 0 0 0.

Definition is_join_or_destroy (c : call) : bool :=
  match c with
  | Pthread_join _ | Pthread_mutex_destroy _ => true
  | _ => false
  end.

(** Startup without failure, then Socrates alone runs from line 53 to the
    sleep of line 87, SIGTERM is delivered, and [main] runs lines 151, 164
    and 165. *)
Definition exit_while_eating : list move :=
  startup ++ map (Step_phil 0) (replicate 20 0) ++ [Signal_SIGTERM]
  ++ main_moves [0; 0; 0].


(** A process whose [main] is at the head of its loop with the flag set. *)
Definition flagged : process :=
  mk_process true true (replicate 5 Unlocked) (replicate 5 junk0)
    (Main.at_pc Main.M151 Main.entry) (replicate 5 None) None [].

(** The answers for a thread whose two probes fail and that is at line 67
    for the third time. *)
Definition two_failed_probes : list Z :=
  replicate 8 0
  ++ [0; 0; EBUSY; 0; 0; 0; 0; 0; 0; 0; 0; 0; 0]
  ++ [0; 0; EBUSY; 0; 0; 0; 0; 0; 0; 0; 0; 0; 0]
  ++ [0; 0].

(** The same thread when its blocking lock fails too (with EINVAL, 22)
    and it is at line 67 for the fourth time, [triesLeft] being -1. *)
Definition failed_blocking_lock : list Z :=
  two_failed_probes ++ [22; 0; 0; 0; 0; 0; 0; 0; 0; 0; 0; 0; 0].

(** ** What main does under any schedule *)

Definition is_main_occ (o : occurrence) : bool :=
  match occ_actor o with The_main => true | The_phil _ => false end.

(** The calls of [main] in a trace, latest first. *)
Definition main_calls (tr : list occurrence) : list call :=
  map occ_call (List.filter is_main_occ tr).

Definition is_main_move (mv : move) : bool :=
  match mv with Step_main _ => true | _ => false end.

(** The number of statements of [main] in a schedule. *)
Definition count_main (mvs : list move) : nat :=
  length (List.filter is_main_move mvs).





(** The statements of [main] from the head of its loop (line 151) with
    the flag set: [n] of them are executed. *)
Definition shutdown (n : nat) (g : process) : Prop :=
  match n with
  | 0%nat => exit_status g = None /\ Main.pc (main g) = Main.M151
             /\ terminationRequired g = true
  | 1%nat => exit_status g = None /\ Main.pc (main g) = Main.M164
  | 2%nat => exit_status g = None /\ Main.pc (main g) = Main.M165
  | 3%nat => exit_status g = Some 0 /\ Main.pc (main g) = Main.Exited
  | _ => False
  end.

Definition shutdown_calls : list call :=
  [Read_terminationRequired; Log_Debug "Dining philosophers exiting.\n" [];
   Return_main 0].

(** ** Who holds which fork *)

(** The right fork of philosopher [k]. *)
Definition right_of (k : nat) : nat := ((k + 1) mod 5)%nat.

(** The forks the thread of a philosopher holds at each control point,
    when the mutexes work. *)
Definition held_at (s : PhilPhunction.locals) : list nat :=
  let fl := PhilPhunction.forkLeft s in
  let fr := PhilPhunction.forkRight s in
  match PhilPhunction.pc s with
  | PhilPhunction.L66 | PhilPhunction.L67 | PhilPhunction.L71 | PhilPhunction.L72
  | PhilPhunction.L89 => [fl]
  | PhilPhunction.L69 | PhilPhunction.L70 =>
      if PhilPhunction.failed s =? 0 then [fl; fr] else [fl]
  | PhilPhunction.L79 | PhilPhunction.L81 =>
      if PhilPhunction.failed s =? 0 then [fl; fr] else []
  | PhilPhunction.L82 | PhilPhunction.L83 | PhilPhunction.L84 | PhilPhunction.L85
  | PhilPhunction.L86 | PhilPhunction.L87 | PhilPhunction.L88 => [fl; fr]
  | _ => []
  end.

(** With [t] probes left, [(a, b)] is the pair of forks of philosopher
    [k] in the order of the current pass: left then right with 2 or 0
    probes left, right then left with 1. *)
Definition oriented (k : nat) (t : Z) (a b : nat) : Prop :=
  0 <= t <= 2
  /\ if t =? 1 then a = right_of k /\ b = k else a = k /\ b = right_of k.

(** The locals of the thread of philosopher [k] at each control point,
    when the mutexes work. *)
Definition thread_inv (k : nat) (s : PhilPhunction.locals) : Prop :=
  let fl := PhilPhunction.forkLeft s in
  let fr := PhilPhunction.forkRight s in
  let ft := PhilPhunction.forkTemp s in
  let t := PhilPhunction.triesLeft s in
  let f := PhilPhunction.failed s in
  match PhilPhunction.pc s with
  | PhilPhunction.L53 | PhilPhunction.L54 | PhilPhunction.L55 | PhilPhunction.L56
  | PhilPhunction.L58 | PhilPhunction.L94 | PhilPhunction.Returned => True
  | PhilPhunction.L59 => fl = k
  | PhilPhunction.L60 | PhilPhunction.L61 => fl = k /\ fr = right_of k
  | PhilPhunction.L69 | PhilPhunction.L70 => oriented k t fl fr /\ (f <> 0 -> 0 < t)
  | PhilPhunction.L71 | PhilPhunction.L72 | PhilPhunction.L73 =>
      oriented k t fl fr /\ 0 < t /\ f <> 0
  | PhilPhunction.L74 => oriented k t ft fr /\ 0 < t /\ f <> 0
  | PhilPhunction.L75 => oriented k t ft fl /\ 0 < t /\ f <> 0
  | PhilPhunction.L76 => oriented k t fr fl /\ 0 < t /\ f <> 0
  | PhilPhunction.L77 => oriented k t fl fr /\ f <> 0
  | _ => oriented k t fl fr
  end.

Definition initialised (o : option mutex) : Prop :=
  o = Some Unlocked \/ exists k, o = Some (Locked k).

(** How far the initialisation of [forks] is, by the control point of
    [main] ([cr] says which threads exist). *)
Definition forks_inv (m : Main.locals) (fs : list mutex) (cr : nat -> Prop) : Prop :=
  let below (n : Z) := forall j, Z.of_nat j < n -> (j < 5)%nat -> initialised (fs !! j) in
  length fs = 5%nat
  /\ match Main.pc m with
     | Main.M102 | Main.M106 | Main.M107 | Main.M108 | Main.M112 | Main.M113
     | Main.M114 | Main.M115 | Main.M116 | Main.M126_init | Main.M129 | Main.M130 => True
     | Main.M126_cond => 0 <= Main.i m /\ below (Main.i m)
     | Main.M127 => 0 <= Main.i m < 5 /\ below (Main.i m)
     | Main.M128 =>
         0 <= Main.i m < 5 /\ below (Main.i m)
         /\ (Main.failed m = 0 -> initialised (fs !! Z.to_nat (Main.i m)))
     | Main.M126_incr => 0 <= Main.i m < 5 /\ below (Main.i m + 1)
     | Main.Exited => (exists k, cr k) -> below 5
     | _ => below 5
     end.

(** What a call [c] of philosopher [k] that returned [ret] has done to
    [forks], with mutexes that work. *)
Definition forks_effect (k : nat) (c : call) (ret : Z) (fs fs1 : list mutex) : Prop :=
  match c with
  | Pthread_mutex_lock m =>
      fs !! m = Some Unlocked /\ ret = 0 /\ fs1 = <[m := Locked k]> fs
  | Pthread_mutex_trylock m =>
      (fs !! m = Some Unlocked /\ ret = 0 /\ fs1 = <[m := Locked k]> fs)
      \/ (exists o, fs !! m = Some (Locked o) /\ ret = EBUSY /\ fs1 = fs)
  | Pthread_mutex_unlock m =>
      fs !! m = Some (Locked k) /\ ret = 0 /\ fs1 = <[m := Unlocked]> fs
  | Pthread_mutex_init _ | Pthread_mutex_destroy _ => True
  | _ => fs1 = fs
  end.

(** Fork [m] is locked by [k] exactly when the thread of philosopher [k]
    exists and is where it holds [m]. *)
Definition owns_inv (g : process) : Prop :=
  forall k m,
    forks g !! m = Some (Locked k)
    <-> exists s, threads g !! k = Some (Some s) /\ In m (held_at s).

(** What holds in every reachable state of the process. *)
Definition process_inv (g : process) : Prop :=
  startup_inv g
  /\ forks_inv (main g) (forks g) (created g)
  /\ owns_inv g
  /\ (forall k s, threads g !! k = Some (Some s) -> thread_inv k s).

(** The thread is between [phil->isEating = 1] (line 82) and the first
    unlock (line 88): it eats. *)
Definition at_table (s : PhilPhunction.locals) : bool :=
  match PhilPhunction.pc s with
  | PhilPhunction.L82 | PhilPhunction.L83 | PhilPhunction.L84 | PhilPhunction.L85
  | PhilPhunction.L86 | PhilPhunction.L87 | PhilPhunction.L88 => true
  | _ => false
  end.

(** Philosopher [k] eats in the state [g]. *)
Definition eats (g : process) (k : nat) : bool :=
  match threads g !! k with
  | Some (Some s) => at_table s
  | _ => false
  end.

(** The philosophers that eat. *)
Definition eaters (g : process) : list nat := List.filter (eats g) (seq 0 5).

Definition returned (g : process) (k : nat) : Prop :=
  exists s, threads g !! k = Some (Some s)
            /\ PhilPhunction.pc s = PhilPhunction.Returned.

(** The thread of philosopher [k] is in a blocking [pthread_mutex_lock]
    of a mutex that is taken: at line 65, or at line 67 with no probe
    left. *)
Definition blocked (g : process) (k : nat) : Prop :=
  exists s o,
    threads g !! k = Some (Some s)
    /\ ((PhilPhunction.pc s = PhilPhunction.L65
         /\ forks g !! PhilPhunction.forkLeft s = Some (Locked o))
        \/ (PhilPhunction.pc s = PhilPhunction.L67
            /\ PhilPhunction.triesLeft s <= 0
            /\ forks g !! PhilPhunction.forkRight s = Some (Locked o))).

(** Philosopher [k] has locked its left fork and waits at line 67, out
    of probes, for its right one. *)
Definition waits_for_right (g : process) (k : nat) : Prop :=
  forks g !! k = Some (Locked k)
  /\ exists s,
       threads g !! k = Some (Some s)
       /\ PhilPhunction.pc s = PhilPhunction.L67
       /\ PhilPhunction.triesLeft s = 0
       /\ PhilPhunction.forkLeft s = k
       /\ PhilPhunction.forkRight s = right_of k.

(** The thread of philosopher [k] runs and its next statement is not the
    overflow of its plates counter. *)
Definition runs (g : process) (k : nat) : Prop :=
  exists s p,
    threads g !! k = Some (Some s)
    /\ philosophers g !! k = Some p
    /\ PhilPhunction.pc s <> PhilPhunction.Returned
    /\ (PhilPhunction.pc s = PhilPhunction.L83
        -> INT_MIN <= Philosopher.platesCounter p < INT_MAX).

(** Startup without failure, then Socrates and then Phytagoras run from
    line 53 to line 83. *)
Definition two_eat : list move :=
  startup ++ map (Step_phil 0) (replicate 16 0) ++ map (Step_phil 2) (replicate 16 0).

(** Startup without failure, SIGTERM, and the two statements (lines 53
    and 94) of every philosopher. *)
Definition all_return : list move :=
  startup ++ [Signal_SIGTERM] ++ lockstep [0; 0].

(** ** A thread after the flag was set *)

(** An upper bound of the number of statements the thread executes from
    a control point before it has returned, when every read of
    [terminationRequired] finds the flag set. *)
Definition rank (l : PhilPhunction.label) : nat :=
  match l with
  | PhilPhunction.Returned => 0
  | PhilPhunction.L94 => 1
  | PhilPhunction.L53 => 2
  | PhilPhunction.L91 => 3
  | PhilPhunction.L90 => 4
  | PhilPhunction.L89 => 5
  | PhilPhunction.L88 => 6
  | PhilPhunction.L87 => 7
  | PhilPhunction.L86 => 8
  | PhilPhunction.L85 => 9
  | PhilPhunction.L84 => 10
  | PhilPhunction.L83 => 11
  | PhilPhunction.L82 => 12
  | PhilPhunction.L81 => 13
  | PhilPhunction.L79 => 14
  | PhilPhunction.L77 => 15
  | PhilPhunction.L76 => 16
  | PhilPhunction.L75 => 17
  | PhilPhunction.L74 => 18
  | PhilPhunction.L73 => 19
  | PhilPhunction.L72 => 20
  | PhilPhunction.L71 => 21
  | PhilPhunction.L70 => 22
  | PhilPhunction.L69 => 23
  | PhilPhunction.L67 => 24
  | PhilPhunction.L66 => 25
  | PhilPhunction.L65 => 26
  | PhilPhunction.L61 => 27
  | PhilPhunction.L60 => 28
  | PhilPhunction.L59 => 29
  | PhilPhunction.L58 => 30
  | PhilPhunction.L56 => 31
  | PhilPhunction.L55 => 32
  | PhilPhunction.L54 => 33
  end.

(** In the run from [c] with the answers [rs], every read of
    [terminationRequired] finds the flag set. *)
Fixpoint flag_read_set (c : config) (rs : list Z) : Prop :=
  match rs with
  | [] => True
  | r :: rs' =>
      (PhilPhunction.call_of (c_locals c) (c_phil c) = Read_terminationRequired
       -> r <> 0)
      /\ match phil_step c r with
         | Some c' => flag_read_set c' rs'
         | None => True
         end
  end.

(** The counters of the thread are C integers that the statements
    still ahead do not overflow. *)
Definition counters_safe (c : config) : Prop :=
  ((16 <= rank (PhilPhunction.pc (c_locals c)))%nat
   -> INT_MIN < PhilPhunction.triesLeft (c_locals c) <= INT_MAX)
  /\ ((11 <= rank (PhilPhunction.pc (c_locals c)))%nat
      -> INT_MIN <= Philosopher.platesCounter (c_phil c) < INT_MAX).

(** ** What a thread sleeps and logs *)

(** The seconds of the next [nanosleep] are between 1 and 8, and so were
    those of the calls in the history. *)
Definition sleeps_inv (c : config) : Prop :=
  match PhilPhunction.pc (c_locals c) with
  | PhilPhunction.L56 | PhilPhunction.L87 =>
      1 <= PhilPhunction.sleepRandom (c_locals c) <= 8
  | _ => True
  end
  /\ forall e n, In e (c_history c) -> ev_call e = Nanosleep n -> 1 <= n <= 8.

(** The number of times the thread has swapped its two fork pointers
    (line 77 ends a swap). *)
Fixpoint swaps (h : list event) : nat :=
  match h with
  | [] => 0
  | e :: h' =>
      match ev_pc e with
      | PhilPhunction.L77 => S (swaps h')
      | _ => swaps h'
      end
  end.

(** The local fork pointers by the parity of [triesLeft]: the pair of
    [*phil] in its order when it is even, exchanged when it is odd. *)
Definition pointed (phil : Philosopher.t) (t : Z) (a b : nat) : Prop :=
  if Z.even t
  then a = Philosopher.forkLeft phil /\ b = Philosopher.forkRight phil
  else a = Philosopher.forkRight phil /\ b = Philosopher.forkLeft phil.

Definition label_inv (c : config) : Prop :=
  let s := c_locals c in
  let fl := PhilPhunction.forkLeft s in
  let fr := PhilPhunction.forkRight s in
  let ft := PhilPhunction.forkTemp s in
  let t := PhilPhunction.triesLeft s in
  PhilPhunction.swapped s = (if Nat.even (swaps (c_history c)) then 0 else 1)
  /\ match PhilPhunction.pc s with
     | PhilPhunction.L53 | PhilPhunction.L54 | PhilPhunction.L55 | PhilPhunction.L56
     | PhilPhunction.L58 | PhilPhunction.L94 | PhilPhunction.Returned => True
     | PhilPhunction.L59 => fl = Philosopher.forkLeft (c_phil c)
     | PhilPhunction.L60 | PhilPhunction.L61 =>
         fl = Philosopher.forkLeft (c_phil c) /\ fr = Philosopher.forkRight (c_phil c)
     | PhilPhunction.L74 => pointed (c_phil c) t ft fr
     | PhilPhunction.L75 => pointed (c_phil c) t ft fl
     | PhilPhunction.L76 => pointed (c_phil c) t fr fl
     | _ => pointed (c_phil c) t fl fr
     end.

(** The answers for a thread whose first probe fails, that eats after
    the second one, and that has locked its first fork in the next
    cycle. *)
Definition eat_after_one_swap : list Z :=
  replicate 8 0 ++ [0; 0; EBUSY] ++ replicate 10 0 ++ replicate 17 0 ++ replicate 9 0.

(** ** The signal, the startup and the main loop *)

Definition is_signal (mv : move) : bool :=
  match mv with Signal_SIGTERM => true | _ => false end.

(** The move is a statement of the thread of philosopher [k]. *)
Definition is_move_of (k : nat) (mv : move) : bool :=
  match mv with
  | Step_phil j _ => Nat.eqb j k
  | _ => false
  end.

(** The number of statements of the thread of philosopher [k] in a
    schedule. *)
Definition count_phil (k : nat) (mvs : list move) : nat :=
  length (List.filter (is_move_of k) mvs).

(** The startup of [main] alone (lines 102 to 150) when the mutexes are
    initialised and the threads created: [sig] is what [sigaction]
    returns and [fd0] to [fd4] what [GPIO_OpenAsOutput] returns. *)
Definition startup_with (sig fd0 fd1 fd2 fd3 fd4 : Z) : list move :=
  main_moves ([0; 0; 0; sig] ++ [fd0; fd1; fd2; fd3; fd4] ++ [0]
              ++ replicate 20 0 ++ [0; 0]
              ++ replicate 55 0 ++ [0; 0]).

Definition is_tau (c : call) : bool :=
  match c with Tau => true | _ => false end.

(** The calls of the latest [n] statements, in the order in which they
    were made, without the statements that call nothing. *)
Definition latest_calls (n : nat) (g : process) : list call :=
  List.filter (fun c => negb (is_tau c)) (rev (map occ_call (firstn n (trace g)))).

(** What one turn of the main loop (lines 151 to 161) calls when it
    finds the records [ps]. *)
Definition monitor_calls (ps : list Philosopher.t) : list call :=
  [Read_terminationRequired; Log_Debug "Hello dining philosophers (" []]
  ++ map (fun p => Log_Debug (if Philosopher.isEating p =? 0 then "0" else "1") []) ps
  ++ [Log_Debug " - (" []]
  ++ map (fun p => Log_Debug "%i " [AInt (Philosopher.platesCounter p)]) ps
  ++ [Log_Debug ")\n" []; Nanosleep 1].

(** [main] up to and including the [pthread_create] of line 141 for
    Socrates, then the thread of Socrates from line 53 to line 84. *)
Definition gpio_race : list move :=
  main_moves ([0; 0; 0; 0] ++ [3; 4; 5; 6; 7] ++ [0] ++ replicate 20 0 ++ [0; 0]
              ++ replicate 8 0)
  ++ map (Step_phil 0) (replicate 18 0).

(** ** The field isEating *)

(** The thread is between [phil->isEating = 1] (line 82) and
    [phil->isEating = 0] (line 90), both executed or about to be. *)
Definition dining (s : PhilPhunction.locals) : bool :=
  match PhilPhunction.pc s with
  | PhilPhunction.L83 | PhilPhunction.L84 | PhilPhunction.L85 | PhilPhunction.L86
  | PhilPhunction.L87 | PhilPhunction.L88 | PhilPhunction.L89 | PhilPhunction.L90 => true
  | _ => false
  end.

(** [main] sets up the record [*phil] and has not yet created its
    thread. *)
Definition precreate (l : Main.label) : bool :=
  match l with
  | Main.M136 | Main.M137 | Main.M138 | Main.M139 | Main.M140 | Main.M141 => true
  | _ => false
  end.

Definition fields_inv (g : process) : Prop :=
  (forall k s p,
     threads g !! k = Some (Some s) -> philosophers g !! k = Some p ->
     Philosopher.isEating p = if dining s then 1 else 0)
  /\ (Main.pc (main g) = Main.M141 ->
      forall p, philosophers g !! Main.phil (main g) = Some p ->
                Philosopher.isEating p = 0).

(** ** The end of a meal *)

(** The number of statements from a control point of the meal (lines 82
    to 91) to the head of the cycle. *)
Definition meal_left (l : PhilPhunction.label) : nat :=
  match l with
  | PhilPhunction.L82 => 10
  | PhilPhunction.L83 => 9
  | PhilPhunction.L84 => 8
  | PhilPhunction.L85 => 7
  | PhilPhunction.L86 => 6
  | PhilPhunction.L87 => 5
  | PhilPhunction.L88 => 4
  | PhilPhunction.L89 => 3
  | PhilPhunction.L90 => 2
  | PhilPhunction.L91 => 1
  | _ => 0
  end.

(** [n] statements of the thread of philosopher [k]. *)
Definition alone (k n : nat) : list move := replicate n (Step_phil k 0).

(** A read of the flag at line 53 that found it set. *)
Definition saw_flag (e : event) : Prop :=
  ev_pc e = PhilPhunction.L53 /\ ev_call e = Read_terminationRequired /\ ev_ret e <> 0.

(** * Properties *)

(** ** Auxiliary facts *)

Import PhilPhunction.

#[local] Arguments Nat.modulo : simpl never.

Lemma int_checked_Some (z : Z) :
  INT_MIN <= z <= INT_MAX -> int_checked z = Some z.
Proof.
  intros H. unfold int_checked, int_range.
  destruct (Z.leb_spec INT_MIN z); [|lia].
  destruct (Z.leb_spec z INT_MAX); [reflexivity|lia].
Qed.

Lemma int_checked_inv (z v : Z) :
  int_checked z = Some v -> v = z /\ INT_MIN <= z <= INT_MAX.
Proof.
  unfold int_checked, int_range. intros H.
  destruct (Z.leb_spec INT_MIN z); destruct (Z.leb_spec z INT_MAX);
    simpl in H; inversion H; subst; lia.
Qed.

Lemma bind_Some {A B : Type} (m : option A) (k : A -> option B) (a : A) (b : B) :
  m = Some a -> k a = Some b -> m ≫= k = Some b.
Proof. intros -> H. exact H. Qed.

(** One statement of a run, at a known control point; [tac] rewrites what
    does not compute. *)
Ltac run_step tac :=
  eapply bind_Some;
  [ unfold phil_step, exec, call_of; simpl; tac; reflexivity | cbv beta ].

Ltac run_steps tac := cbn [phil_run]; repeat (run_step tac); reflexivity.

Lemma release_self_nil (m : mutex_ptr) : release m [m] = [].
Proof. unfold release; simpl. rewrite Nat.eqb_refl. reflexivity. Qed.

(** A step leaves the served count where it is or adds one to it. *)
Lemma exec_platesCounter s p r s' p' :
  exec s p r = Some (s', p') ->
  Philosopher.platesCounter p <= Philosopher.platesCounter p'.
Proof.
  unfold exec. intros H.
  destruct (pc s); simplify_option_eq; simpl; try lia.
  match goal with H : int_checked _ = Some _ |- _ =>
    apply int_checked_inv in H; lia end.
Qed.

Lemma phil_step_platesCounter c r c' :
  phil_step c r = Some c' ->
  Philosopher.platesCounter (c_phil c) <= Philosopher.platesCounter (c_phil c').
Proof.
  unfold phil_step. intros H.
  destruct (exec (c_locals c) (c_phil c) r) as [[s' p']|] eqn:E; simpl in H; [|discriminate].
  inversion H; subst; simpl. eapply exec_platesCounter; eauto.
Qed.

Lemma phil_run_platesCounter rs : forall c c',
  phil_run c rs = Some c' ->
  Philosopher.platesCounter (c_phil c) <= Philosopher.platesCounter (c_phil c').
Proof.
  induction rs as [|r rs IH]; simpl; intros c c' H.
  - inversion H; subst; lia.
  - destruct (phil_step c r) as [c1|] eqn:E; simpl in H; [|discriminate].
    apply phil_step_platesCounter in E. apply IH in H. lia.
Qed.


(** ** The acquisition routine *)

(** C1 (as amended). The acquisition routine of lines 58 to 81.
    - It starts with [(forkLeft, forkRight)] set to the two forks of the
      record and [triesLeft = 2], and calls nothing on a mutex before.
    - A pass locks [forkLeft] (blocking), then attempts [forkRight], with
      [pthread_mutex_trylock] when [triesLeft > 0] and with
      [pthread_mutex_lock] otherwise.
    - When the attempt returns 0 the loop is left without reading the
      flag and the thread is at line 82, about to eat; it holds
      [forkRight], and [forkLeft] as well when the first lock returned 0.
    - When the attempt fails, [forkLeft] is unlocked, the two pointers are
      swapped, [triesLeft] is decremented, the thread holds nothing, and
      the flag is read: the pass is repeated from line 65 when the flag is
      clear; when it is set the loop is left and the thread is back at the
      head of the cycle without eating. *)
Theorem acquisition_routine (s0 s : locals) (phil : Philosopher.t) (h : list event)
    (r58 r59 r60 r61 a r66 b r69 r70 r71 r72 r73 r74 r75 r76 r77 r79 r81 : Z) :
  pc s0 = L58 ->
  pc s = L65 ->
  holds h = [] ->
  INT_MIN < triesLeft s <= INT_MAX ->
  let name := Philosopher.name phil in
  let second := if triesLeft s >? 0 then Pthread_mutex_trylock (forkRight s)
                else Pthread_mutex_lock (forkRight s) in
  let pass :=
    Ev L70 Tau r70 phil
    :: Ev L69 (Log_Debug "%s takes %s fork\n"
                 [AStr name; AStr (if swapped s =? 1 then "left" else "right")]) r69 phil
    :: Ev L67 second b phil
    :: Ev L66 (Log_Debug "%s takes %s fork\n"
                 [AStr name; AStr (if swapped s =? 0 then "left" else "right")]) r66 phil
    :: Ev L65 (Pthread_mutex_lock (forkLeft s)) a phil
    :: h in
  let back_off :=
    Ev L77 Tau r77 phil :: Ev L76 Tau r76 phil :: Ev L75 Tau r75 phil
    :: Ev L74 Tau r74 phil :: Ev L73 Tau r73 phil
    :: Ev L72 (Pthread_mutex_unlock (forkLeft s)) r72 phil
    :: Ev L71 (Log_Debug "%s switching fork picking order\n" [AStr name]) r71 phil
    :: pass in
  let swapped_over :=
    set_swapped (if swapped s =? 0 then 1 else 0)
      (set_triesLeft (triesLeft s - 1)
         (set_forkRight (forkLeft s)
            (set_forkLeft (forkRight s)
               (set_forkTemp (forkLeft s) (set_failed b s))))) in
  (* the start *)
  phil_run (Config s0 phil h) [r58; r59; r60; r61]
  = Some (Config (at_pc L65 (set_triesLeft 2
                    (set_forkRight (Philosopher.forkRight phil)
                       (set_forkLeft (Philosopher.forkLeft phil) s0))))
            phil
            (Ev L61 Tau r61 phil
             :: Ev L60 (Log_Debug "%s is hungry\n" [AStr name]) r60 phil
             :: Ev L59 Tau r59 phil :: Ev L58 Tau r58 phil :: h))
  (* the attempt on the secondary fork succeeds *)
  /\ (b = 0 ->
      phil_run (Config s phil h) [a; r66; b; r69; r70; r79; r81]
      = Some (Config (at_pc L82 (set_failed 0 s)) phil
                (Ev L81 Tau r81 phil :: Ev L79 Tau r79 phil :: pass))
      /\ holds (Ev L81 Tau r81 phil :: Ev L79 Tau r79 phil :: pass)
         = forkRight s :: (if a =? 0 then [forkLeft s] else []))
  (* the attempt on the secondary fork fails *)
  /\ (b <> 0 ->
      phil_run (Config s phil h)
        [a; r66; b; r69; r70; r71; r72; r73; r74; r75; r76; r77]
      = Some (Config (at_pc L79 swapped_over) phil back_off)
      /\ holds back_off = []
      /\ call_of (at_pc L79 swapped_over) phil = Read_terminationRequired
      /\ phil_run (Config (at_pc L79 swapped_over) phil back_off) [r79]
         = Some (Config (at_pc (if r79 =? 0 then L65 else L81) swapped_over) phil
                   (Ev L79 Read_terminationRequired r79 phil :: back_off))
      /\ call_of (at_pc L65 swapped_over) phil = Pthread_mutex_lock (forkRight s)
      /\ forall h', phil_run (Config (at_pc L81 swapped_over) phil h') [r81]
                    = Some (Config (at_pc L53 swapped_over) phil
                              (Ev L81 Tau r81 phil :: h'))).
Proof.
  intros Hpc0 Hpc Hh Ht. cbv zeta. split; [|split].
  - destruct s0 as [pc0 f t sw fl fr ft sr]; simpl in Hpc0; subst pc0.
    run_steps idtac.
  - intros ->. destruct s as [pc0 f t sw fl fr ft sr]; simpl in Hpc; subst pc0.
    split; [run_steps idtac|]. simpl.
    destruct (t >? 0); simpl; rewrite Hh; destruct (a =? 0); reflexivity.
  - intros Hb.
    assert (Hc : int_checked (triesLeft s - 1) = Some (triesLeft s - 1))
      by (apply int_checked_Some; unfold INT_MIN, INT_MAX in *; lia).
    apply Z.eqb_neq in Hb.
    destruct s as [pc0 f t sw fl fr ft sr]; simpl in Hpc, Hc; subst pc0.
    split; [|split; [|split; [|split; [|split]]]].
    + run_steps ltac:(rewrite ?Hb, ?Hc).
    + simpl. destruct (t >? 0); simpl; rewrite Hb, Hh;
        destruct (a =? 0); simpl; rewrite ?Nat.eqb_refl; reflexivity.
    + unfold call_of; simpl. rewrite Hb. reflexivity.
    + run_steps ltac:(rewrite ?Hb, ?Hc).
    + reflexivity.
    + intros h'. run_steps ltac:(rewrite ?Hb, ?Hc).
Qed.

(** C1 (as stated): a failed attempt on the secondary fork is not always
    followed by a retry.  Socrates (forks 0 and 1) locks fork 0, his
    trylock of fork 1 returns EBUSY, he unlocks fork 0, and the flag,
    set in the meantime, makes him leave the loop and return: the three
    calls are all he ever does on a mutex. *)
Lemma no_retry_when_terminating :
  option_map
    (fun c => (pc (c_locals c), triesLeft (c_locals c), mutex_calls (c_history c)))
    (phil_run (Config entry (wired 0 3) [])
       [ 0; 0; 3; 0; 0; 0; 0; 0;          (* lines 53 to 61, flag clear *)
         0; 0; EBUSY; 0; 0;               (* lines 65 to 70, the probe fails *)
         0; 0; 0; 0; 0; 0; 0;             (* lines 71 to 77 *)
         1; 0;                            (* lines 79 and 81, flag set *)
         1; 0 ])                          (* lines 53 and 94 *)
  = Some (Returned, 1,
          [Pthread_mutex_unlock 0%nat; Pthread_mutex_trylock 1%nat;
           Pthread_mutex_lock 0%nat]).
Proof. vm_compute. reflexivity. Qed.

(** ** Probes of one acquisition attempt *)

Lemma probes_inv_step c r c' :
  probes_inv c -> phil_step c r = Some c' -> probes_inv c'.
Proof.
  destruct c as [s p h]. unfold probes_inv, phil_step, exec, call_of; simpl.
  destruct s as [pc0 f t sw fl fr ft sr]; simpl.
  intros [Hn Hi] Hs.
  destruct pc0; simplify_option_eq; simpl in *;
    repeat match goal with
    | H : int_checked _ = Some _ |- _ => apply int_checked_inv in H; destruct H as [-> _]
    | |- context [?a >? ?b] => destruct (Z.gtb_spec a b)
    | |- context [?a =? ?b] => destruct (Z.eqb_spec a b)
    end; simpl in *; try lia.
Qed.

Lemma probes_inv_run rs : forall c c',
  probes_inv c -> phil_run c rs = Some c' -> probes_inv c'.
Proof.
  induction rs as [|r rs IH]; simpl; intros c c' Hi H.
  - inversion H; subst; exact Hi.
  - destruct (phil_step c r) as [c1|] eqn:E; simpl in H; [|discriminate].
    eapply IH; [eapply probes_inv_step; eauto | exact H].
Qed.

(** Outside line 61 a statement leaves [triesLeft] or lowers it. *)
Lemma triesLeft_step c r c' :
  pc (c_locals c) <> L61 ->
  phil_step c r = Some c' ->
  triesLeft (c_locals c') <= triesLeft (c_locals c).
Proof.
  destruct c as [s p h]. unfold phil_step, exec; simpl.
  destruct s as [pc0 f t sw fl fr ft sr]; simpl.
  intros Hne Hs.
  destruct pc0; simplify_option_eq; simpl in *; try lia; try congruence.
  match goal with H : int_checked _ = Some _ |- _ =>
    apply int_checked_inv in H; lia end.
Qed.

(** Line 61 is reached from line 60 only, whose statement logs that the
    philosopher is hungry: no other statement leads to the place where
    the counter is set. *)
Lemma reset_follows_hungry c r c' :
  is_hungry (call_of (c_locals c) (c_phil c)) = false ->
  phil_step c r = Some c' ->
  pc (c_locals c') <> L61.
Proof.
  destruct c as [s p h]. unfold phil_step, exec, call_of; simpl.
  destruct s as [pc0 f t sw fl fr ft sr]; simpl.
  intros Hh Hs.
  destruct (r =? 0), (f =? 0);
    destruct pc0; simplify_option_eq; simpl in *; discriminate.
Qed.

(** Inside an attempt the count of probes does not restart. *)
Lemma probes_step c r c' :
  is_hungry (call_of (c_locals c) (c_phil c)) = false ->
  phil_step c r = Some c' ->
  (probes (c_history c) <= probes (c_history c'))%nat.
Proof.
  unfold phil_step. intros Hh Hs.
  destruct (exec (c_locals c) (c_phil c) r) as [[s' p']|]; simpl in Hs; [|discriminate].
  inversion Hs; subst c'. simpl. rewrite Hh. lia.
Qed.

Lemma attempt_run_triesLeft rs : forall c c',
  pc (c_locals c) <> L61 ->
  attempt_run c rs = Some c' ->
  phil_run c rs = Some c'
  /\ triesLeft (c_locals c') <= triesLeft (c_locals c)
  /\ (probes (c_history c) <= probes (c_history c'))%nat.
Proof.
  induction rs as [|r rs IH]; simpl; intros c c' Hne H.
  - inversion H; subst. split; [reflexivity|]. split; lia.
  - destruct (is_hungry (call_of (c_locals c) (c_phil c))) eqn:Eh; [discriminate|].
    destruct (phil_step c r) as [c1|] eqn:Es; simpl in H; [|discriminate].
    destruct (IH _ _ (reset_follows_hungry c r c1 Eh Es) H) as (Hr & Ht & Hp).
    simpl. split; [exact Hr|].
    pose proof (triesLeft_step c r c1 Hne Es).
    pose proof (probes_step c r c1 Eh Es). split; lia.
Qed.

(** C3. From the start of the thread function, whatever the library
    answers: since the thread last logged that the philosopher is hungry
    it has made at most 2 calls of [pthread_mutex_trylock]; at line 67 the
    call is a trylock only when fewer than 2 were made, and is the
    blocking [pthread_mutex_lock] once 2 were made.  And for every
    continuation up to the next log of hungry, from anywhere but the line
    that sets the counter for the attempt: [triesLeft] does not rise (the
    counter is not set again, since line 61 is reached from line 60
    only), the count of probes does not fall, and once 2 probes were made
    or [triesLeft] is 0 or less, every further call of line 67 is the
    blocking lock. *)
Theorem at_most_two_probes (c0 c : config) (rs : list Z) :
  pc (c_locals c0) = L53 ->
  c_history c0 = [] ->
  phil_run c0 rs = Some c ->
  (probes (c_history c) <= 2)%nat
  /\ (pc (c_locals c) = L67 ->
      (0 < triesLeft (c_locals c)
       /\ call_of (c_locals c) (c_phil c) = Pthread_mutex_trylock (forkRight (c_locals c))
       /\ (probes (c_history c) < 2)%nat)
      \/ (triesLeft (c_locals c) <= 0
          /\ call_of (c_locals c) (c_phil c) = Pthread_mutex_lock (forkRight (c_locals c))
          /\ probes (c_history c) = 2%nat))
  /\ (forall rs' c',
        pc (c_locals c) <> L61 ->
        attempt_run c rs' = Some c' ->
        triesLeft (c_locals c') <= triesLeft (c_locals c)
        /\ (probes (c_history c) <= probes (c_history c') <= 2)%nat
        /\ (triesLeft (c_locals c) <= 0 \/ probes (c_history c) = 2%nat ->
            pc (c_locals c') = L67 ->
            call_of (c_locals c') (c_phil c')
            = Pthread_mutex_lock (forkRight (c_locals c')))).
Proof.
  intros Hpc Hh Hrun.
  assert (H0 : probes_inv c0)
    by (unfold probes_inv; rewrite Hpc, Hh; simpl; lia).
  assert (Hi : probes_inv c) by (eapply probes_inv_run; [exact H0|exact Hrun]).
  split; [destruct Hi as [Hn _]; lia|]. split.
  - destruct Hi as [Hn Hi].
    intros E. rewrite E in Hi. destruct Hi as [Ht Hp].
    unfold call_of. rewrite E.
    destruct (Z.gtb_spec (triesLeft (c_locals c)) 0); [left|right]; repeat split; lia.
  - intros rs' c' Hne Ha. apply attempt_run_triesLeft in Ha as (Hr & Ht & Hp);
      [|exact Hne].
    assert (Hi' : probes_inv c') by (eapply probes_inv_run; [exact Hi|exact Hr]).
    destruct Hi' as [Hn' Hi'].
    split; [exact Ht|]. split; [lia|].
    intros Hor E. rewrite E in Hi'. destruct Hi' as [Ht' Hp'].
    unfold call_of. rewrite E.
    destruct (Z.gtb_spec (triesLeft (c_locals c')) 0); [exfalso|reflexivity].
    destruct Hor as [Hle|H2]; lia.
Qed.

(** ** The indicator output *)

Lemma phil_step_observable c c' r :
  observable c = observable c' ->
  option_map observable (phil_step c r) = option_map observable (phil_step c' r).
Proof.
  destruct c as [s p h], c' as [s' p' h']. unfold observable; simpl.
  intros H; inversion H; subst. unfold phil_step; simpl.
  destruct (exec s' p' r) as [[s1 p1]|]; simpl; [|reflexivity].
  unfold observable; simpl. congruence.
Qed.

Lemma phil_run_observable rs : forall c c',
  observable c = observable c' ->
  option_map observable (phil_run c rs) = option_map observable (phil_run c' rs).
Proof.
  induction rs as [|r rs IH]; simpl; intros c c' H.
  - congruence.
  - pose proof (phil_step_observable c c' r H) as Hs.
    destruct (phil_step c r) as [c1|], (phil_step c' r) as [c1'|]; simpl in *;
      try discriminate; [|reflexivity].
    apply IH. congruence.
Qed.

(** C8 (as amended). The value returned by [GPIO_SetValue] (lines 84 and
    91) is not looked at: whatever it is, the statement completes, logs
    nothing, and everything the thread does afterwards (its locals, its
    record, every later statement and call) is the same as for any other
    returned value. *)
Theorem gpio_result_ignored (c : config) (r r' : Z) :
  pc (c_locals c) = L84 \/ pc (c_locals c) = L91 ->
  (exists v, call_of (c_locals c) (c_phil c) = GPIO_SetValue (Philosopher.gpio (c_phil c)) v)
  /\ (exists c1, phil_step c r = Some c1
        /\ log_output (c_history c1) = log_output (c_history c)
        /\ c_phil c1 = c_phil c)
  /\ (forall rs, option_map observable (phil_run c (r :: rs))
               = option_map observable (phil_run c (r' :: rs))).
Proof.
  intros Hpc. destruct c as [s p h]; simpl in *.
  assert (Hstep : forall x, exists l, phil_step (Config s p h) x
            = Some (Config (at_pc l s) p
                      (Ev (pc s) (call_of s p) x p :: h))).
  { intros x. unfold phil_step, exec; simpl.
    destruct Hpc as [-> | ->]; eexists; reflexivity. }
  assert (Hcall : exists v, call_of s p = GPIO_SetValue (Philosopher.gpio p) v).
  { unfold call_of. destruct Hpc as [-> | ->]; eexists; reflexivity. }
  split; [exact Hcall|]. split.
  - destruct (Hstep r) as [l Hl]. eexists; split; [exact Hl|]. simpl.
    destruct Hcall as [v ->]. split; reflexivity.
  - intros rs. simpl.
    assert (Hl : exists l, phil_step (Config s p h) r
               = Some (Config (at_pc l s) p (Ev (pc s) (call_of s p) r p :: h))
            /\ phil_step (Config s p h) r'
               = Some (Config (at_pc l s) p (Ev (pc s) (call_of s p) r' p :: h))).
    { unfold phil_step, exec; simpl.
      destruct Hpc as [-> | ->]; eexists; split; reflexivity. }
    destruct Hl as [l [-> ->]]. simpl. apply phil_run_observable. reflexivity.
Qed.

Lemma gpio_result_ignored_witness :
  option_map observable
    (phil_run (Config (at_pc L84 entry) (wired 0 3) []) [-1; 0; 0; 0; 0; 0; 0; -1])
  = option_map observable
    (phil_run (Config (at_pc L84 entry) (wired 0 3) []) [0; 0; 0; 0; 0; 0; 0; -1]).
Proof.
  apply (gpio_result_ignored (Config (at_pc L84 entry) (wired 0 3) []) (-1) 0).
  left; reflexivity.
Defined.

(** C8 (as stated): a failure of [GPIO_SetValue] is not logged.  Socrates
    eats while both calls for his LED fail with -1: all that is logged is
    the message of line 85, which is logged as well when they succeed. *)
Lemma gpio_failure_not_logged :
  let c := Config (at_pc L84 entry) (wired 0 3) [] in
  let logged rs := option_map (fun c' => log_output (c_history c')) (phil_run c rs) in
  logged [-1; 0; 0; 0; 0; 0; 0; -1] = Some [("%s is eating\n", [AStr "Socrates"])]
  /\ logged [0; 0; 0; 0; 0; 0; 0; 0] = Some [("%s is eating\n", [AStr "Socrates"])]
  /\ ~ (exists m, In m (default [] (logged [-1; 0; 0; 0; 0; 0; 0; -1]))
               /\ ~ In m (default [] (logged [0; 0; 0; 0; 0; 0; 0; 0]))).
Proof.
  cbv zeta. split; [vm_compute; reflexivity|]. split; [vm_compute; reflexivity|].
  intros [m [Hin Hnot]]. apply Hnot. vm_compute in Hin. vm_compute. exact Hin.
Qed.

(** ** What a thread holds *)

Lemma release_incl_nil (m : mutex_ptr) (H : list mutex_ptr) :
  incl H [m] -> release m H = [].
Proof.
  induction H as [|x H IH]; intros Hi; [reflexivity|].
  unfold release in *; simpl.
  assert (x = m) as -> by (destruct (Hi x (or_introl eq_refl)) as [E|[]]; auto).
  rewrite Nat.eqb_refl; simpl. apply IH.
  intros y Hy. apply Hi. right; exact Hy.
Qed.

Lemma release_incl_other (a b : mutex_ptr) (H : list mutex_ptr) :
  incl H [a; b] -> incl (release b H) [a].
Proof.
  intros Hi y Hy. unfold release in Hy. apply filter_In in Hy as [Hy Hne].
  destruct (Hi y Hy) as [E|[E|[]]]; [left; exact E|].
  subst y. rewrite Nat.eqb_refl in Hne. discriminate.
Qed.

Lemma incl_cons_two (a b : mutex_ptr) (H : list mutex_ptr) :
  incl H [a] -> incl (b :: H) [a; b].
Proof.
  intros Hi y [E|Hy]; [right; left; exact E|].
  destruct (Hi y Hy) as [E|[]]. left; exact E.
Qed.

Lemma incl_one_two (a b : mutex_ptr) (H : list mutex_ptr) :
  incl H [a] -> incl H [a; b].
Proof. intros Hi y Hy. destruct (Hi y Hy) as [E|[]]. left; exact E. Qed.

Lemma holds_inv_step c r c' :
  holds_inv c -> phil_step c r = Some c' -> holds_inv c'.
Proof.
  destruct c as [s p h]. unfold holds_inv, phil_step, exec, call_of; simpl.
  destruct s as [pc0 f t sw fl fr ft sr]; simpl.
  intros Hi Hs.
  destruct pc0; simplify_option_eq; simpl in *;
    repeat match goal with
    | |- context [if ?b then _ else _] => destruct b eqn:?
    | H : context [if ?b then _ else _] |- _ => destruct b eqn:?
    end; simpl in *;
    try rewrite Hi; simpl;
    try discriminate; try reflexivity; try assumption;
    try (apply incl_nil_l);
    try (apply incl_refl);
    try (apply release_incl_nil; assumption);
    try (apply release_incl_other; assumption);
    try (apply incl_cons_two; assumption);
    try (apply incl_one_two; assumption);
    try lia.
Qed.

Lemma holds_inv_run rs : forall c c',
  holds_inv c -> phil_run c rs = Some c' -> holds_inv c'.
Proof.
  induction rs as [|r rs IH]; simpl; intros c c' Hi H.
  - inversion H; subst; exact Hi.
  - destruct (phil_step c r) as [c1|] eqn:E; simpl in H; [|discriminate].
    eapply IH; [eapply holds_inv_step; eauto | exact H].
Qed.

(** C9. From the start of the thread function, whatever the library
    answers: the thread holds no mutex when the loop condition of line 79
    is evaluated after a failed attempt, none at the head of the cycle
    (line 53), and none when it returns (line 94 and after). *)
Theorem nothing_held_on_return (c0 c : config) (rs : list Z) :
  pc (c_locals c0) = L53 ->
  holds (c_history c0) = [] ->
  phil_run c0 rs = Some c ->
  (pc (c_locals c) = L79 -> failed (c_locals c) <> 0 -> holds (c_history c) = [])
  /\ (pc (c_locals c) = L53 -> holds (c_history c) = [])
  /\ (pc (c_locals c) = L94 -> holds (c_history c) = [])
  /\ (pc (c_locals c) = Returned -> holds (c_history c) = []).
Proof.
  intros Hpc Hh Hrun.
  assert (Hi : holds_inv c).
  { eapply holds_inv_run; [|exact Hrun]. unfold holds_inv. rewrite Hpc. exact Hh. }
  unfold holds_inv in Hi.
  repeat split; intros E; rewrite E in Hi; try exact Hi.
  intros Hf. apply Z.eqb_neq in Hf. rewrite Hf in Hi. exact Hi.
Qed.

(** ** The result of the first lock *)

(** C10. The value returned by the blocking lock of the primary fork (line
    65) is overwritten by the result of the attempt on the secondary fork
    (line 67) before it is read.  When the first call fails with [e] and
    the second returns 0, the thread goes on to eat holding the secondary
    fork only, and at line 89 unlocks the primary fork, which it does not
    hold. *)
Theorem primary_result_discarded (s : locals) (phil : Philosopher.t) (h : list event)
    (e r66 r69 r70 r79 r81 r82 r83 r84 r85 r86 r87 r88 : Z) :
  pc s = L65 ->
  holds h = [] ->
  e <> 0 ->
  forkLeft s <> forkRight s ->
  INT_MIN <= Philosopher.platesCounter phil < INT_MAX ->
  let name := Philosopher.name phil in
  let p1 := Philosopher.set_isEating 1 phil in
  let p2 := Philosopher.set_platesCounter (Philosopher.platesCounter phil + 1) p1 in
  let nap := 1 + c_mod r86 8 in
  let h0 :=
    Ev L66 (Log_Debug "%s takes %s fork\n"
              [AStr name; AStr (if swapped s =? 0 then "left" else "right")]) r66 phil
    :: Ev L65 (Pthread_mutex_lock (forkLeft s)) e phil :: h in
  let h1 :=
    Ev L81 Tau r81 phil :: Ev L79 Tau r79 phil :: Ev L70 Tau r70 phil
    :: Ev L69 (Log_Debug "%s takes %s fork\n"
                 [AStr name; AStr (if swapped s =? 1 then "left" else "right")]) r69 phil
    :: Ev L67 (if triesLeft s >? 0 then Pthread_mutex_trylock (forkRight s)
               else Pthread_mutex_lock (forkRight s)) 0 phil
    :: h0 in
  let h2 :=
    Ev L88 (Pthread_mutex_unlock (forkRight s)) r88 p2
    :: Ev L87 (Nanosleep nap) r87 p2
    :: Ev L86 Rand r86 p2
    :: Ev L85 (Log_Debug "%s is eating\n" [AStr name]) r85 p2
    :: Ev L84 (GPIO_SetValue (Philosopher.gpio phil) GPIO_Value_Low) r84 p2
    :: Ev L83 Tau r83 p2
    :: Ev L82 Tau r82 p1
    :: h1 in
  let c0 := Config (at_pc L67 (set_failed e s)) phil h0 in
  let c1 := Config (at_pc L82 (set_failed 0 s)) phil h1 in
  let c2 := Config (at_pc L89 (set_sleepRandom nap (set_failed 0 s))) p2 h2 in
  phil_run (Config s phil h) [e; r66] = Some c0
  /\ phil_run c0 [0; r69; r70; r79; r81] = Some c1
  /\ holds h1 = [forkRight s]
  /\ phil_run c1 [r82; r83; r84; r85; r86; r87; r88] = Some c2
  /\ Philosopher.isEating (c_phil c2) = 1
  /\ call_of (c_locals c2) (c_phil c2) = Pthread_mutex_unlock (forkLeft s)
  /\ ~ In (forkLeft s) (holds h2).
Proof.
  intros Hpc Hh He Hne Hn. cbv zeta.
  destruct s as [pc0 f t sw fl fr ft sr]; simpl in Hpc, Hne; subst pc0.
  assert (He' : (e =? 0) = false) by (apply Z.eqb_neq; exact He).
  assert (Hc : int_checked (Philosopher.platesCounter phil + 1)
               = Some (Philosopher.platesCounter phil + 1))
    by (apply int_checked_Some; unfold INT_MIN, INT_MAX in *; lia).
  split; [run_steps idtac|]. split; [run_steps idtac|].
  split; [simpl; rewrite He', Hh; destruct (t >? 0); reflexivity|].
  split.
  { run_steps ltac:(rewrite ?Hc). }
  split; [reflexivity|]. split; [reflexivity|].
  simpl. rewrite He', Hh.
  destruct (t >? 0); simpl; rewrite Nat.eqb_refl; simpl; intros [].
Qed.

Lemma primary_result_discarded_witness :
  let s := at_pc L65 (set_forkRight 1%nat (set_triesLeft 2 entry)) in
  phil_run (Config s (wired 0 3) []) [22; 0] = Some (Config (at_pc L67 (set_failed 22 s)) (wired 0 3)
      [Ev L66 (Log_Debug "%s takes %s fork\n" [AStr "Socrates"; AStr "left"]) 0 (wired 0 3);
       Ev L65 (Pthread_mutex_lock 0%nat) 22 (wired 0 3)]).
Proof.
  apply (primary_result_discarded
           (at_pc L65 (set_forkRight 1%nat (set_triesLeft 2 entry))) (wired 0 3) []
           22 0 0 0 0 0 0 0 0 0 0 0 0).
  - reflexivity.
  - reflexivity.
  - discriminate.
  - discriminate.
  - unfold INT_MIN, INT_MAX; simpl; lia.
Defined.

(** ** The circular wait *)

Lemma circular_wait_blocked g k r :
  circular_wait g -> step g (Step_phil k r) = None.
Proof.
  intros (Hm & Ht & Hf & Hk). unfold step.
  destruct (exit_status g); [reflexivity|].
  destruct (Nat.lt_ge_cases k 5) as [Hlt|Hge].
  - destruct (Hk k Hlt) as (_ & s & p & Hs & Hp & Hpc & Htl & Hl & Hr).
    rewrite Hs, Hp; simpl. unfold PhilPhunction.call_of. rewrite Hpc.
    destruct (Z.gtb_spec (triesLeft s) 0); [lia|].
    unfold respond.
    assert (Hn : ((k + 1) mod 5 < 5)%nat) by (apply Nat.mod_upper_bound; lia).
    destruct (Hk _ Hn) as (Hfork & _). rewrite Hr, Hfork. reflexivity.
  - rewrite (lookup_ge_None_2 (threads g) k) by lia. reflexivity.
Qed.

Lemma past_startup_main_step g r g1 c ret s' ps' :
  past_startup (Main.pc (main g)) = true ->
  c = Main.call_of (main g) (philosophers g) ->
  respond The_main c r g = Some (ret, g1) ->
  Main.exec (main g1) (philosophers g1) ret = Some (s', ps') ->
  forks g1 = forks g /\ threads g1 = threads g /\ main g1 = main g
  /\ ps' = philosophers g /\ past_startup (Main.pc s') = true.
Proof.
  intros Hp -> Hr He.
  unfold Main.call_of in Hr. unfold Main.exec in He.
  destruct (Main.pc (main g)) eqn:Epc; try discriminate Hp;
    repeat match type of Hr with
    | context [match ?x with _ => _ end] => destruct x eqn:?
    end;
    simpl in Hr; simplify_eq; simpl in *;
    try rewrite Epc in He; simpl in He; simplify_option_eq;
    repeat split; try reflexivity;
    repeat match goal with
    | |- context [if ?b then _ else _] => destruct b
    end; reflexivity.
Qed.

Lemma circular_wait_step g mv g' :
  circular_wait g -> step g mv = Some g' -> circular_wait g'.
Proof.
  intros Hc Hs. destruct mv as [r|k r|].
  - destruct Hc as (Hm & Ht & Hf & Hk). unfold step in Hs.
    destruct (exit_status g); [discriminate|].
    destruct (respond The_main (Main.call_of (main g) (philosophers g)) r g)
      as [[ret g1]|] eqn:Er; simpl in Hs; [|discriminate].
    destruct (Main.exec (main g1) (philosophers g1) ret) as [[s' ps']|] eqn:Ee;
      simpl in Hs; [|discriminate].
    destruct (past_startup_main_step g r g1 _ ret s' ps' Hm eq_refl Er Ee)
      as (E1 & E2 & E3 & E4 & E5).
    inversion Hs; subst g'; clear Hs. unfold circular_wait; simpl.
    rewrite E1, E2. subst ps'. repeat split; try assumption.
    all: destruct (Hk k H) as (Hfk & Hrest); assumption.
  - rewrite circular_wait_blocked in Hs by exact Hc. discriminate.
  - unfold step in Hs. destruct (exit_status g); [discriminate|].
    destruct (handler_installed g); [|discriminate].
    inversion Hs; subst g'. exact Hc.
Qed.

Lemma circular_wait_steps mvs : forall g g',
  circular_wait g -> steps g mvs = Some g' -> circular_wait g'.
Proof.
  induction mvs as [|mv mvs IH]; simpl; intros g g' Hc H.
  - inversion H; subst; exact Hc.
  - destruct (step g mv) as [g1|] eqn:E; simpl in H; [|discriminate].
    eapply IH; [eapply circular_wait_step; eauto | exact H].
Qed.

(** C2 fails on the code.  After a startup without failure, when the five
    philosophers run in lockstep, both probes of each of them fail (the
    neighbour holds the fork at that moment), all of them fall back to
    the blocking lock in the original order left then right, and each
    locks its left fork: the process is in a circular wait.  From there on
    no philosopher executes a statement again, whatever [main] and the
    signal do. *)
Theorem lockstep_deadlock (junk : Philosopher.t) :
  exists g,
    steps (initial junk) deadlock_schedule = Some g
    /\ reachable g
    /\ circular_wait g
    /\ forall mvs g', steps g mvs = Some g' ->
         circular_wait g' /\ forall k r, step g' (Step_phil k r) = None.
Proof.
  destruct (steps (initial junk) deadlock_schedule) as [g|] eqn:E;
    [|vm_compute in E; discriminate].
  exists g. split; [reflexivity|]. split; [exists junk, deadlock_schedule; exact E|].
  assert (Hc : circular_wait g).
  { vm_compute in E. inversion E; subst g; clear E.
    unfold circular_wait; simpl.
    split; [reflexivity|]. split; [reflexivity|]. split; [reflexivity|].
    intros k Hk.
    destruct k as [|[|[|[|[|k]]]]]; try lia; simpl;
      (split; [reflexivity|]); eexists; eexists;
      (split; [reflexivity|]); (split; [reflexivity|]); (split; [reflexivity|]);
      (split; [simpl; lia|]); split; reflexivity. }
  split; [exact Hc|].
  intros mvs g' Hs. pose proof (circular_wait_steps mvs g g' Hc Hs) as Hc'.
  split; [exact Hc'|]. intros k r. apply circular_wait_blocked. exact Hc'.
Qed.

(** ** The wiring of the ring *)

Lemma step_phil_inv g k r g' :
  step g (Step_phil k r) = Some g' ->
  exists s p ret g1 s' p',
    threads g !! k = Some (Some s)
    /\ philosophers g !! k = Some p
    /\ respond (The_phil k) (PhilPhunction.call_of s p) r g = Some (ret, g1)
    /\ PhilPhunction.exec s p ret = Some (s', p')
    /\ g' = record (Occ (The_phil k) (PhilPhunction.call_of s p) ret)
              (set_threads (<[k := Some s']> (threads g1))
                 (set_philosophers (<[k := p']> (philosophers g1)) g1)).
Proof.
  unfold step. intros H.
  destruct (exit_status g); [discriminate|].
  destruct (threads g !! k) as [[s|]|] eqn:Es; simpl in H; try discriminate.
  destruct (philosophers g !! k) as [p|] eqn:Ep; simpl in H; [|discriminate].
  destruct (respond (The_phil k) (PhilPhunction.call_of s p) r g) as [[ret g1]|] eqn:Er;
    simpl in H; [|discriminate].
  destruct (PhilPhunction.exec s p ret) as [[s' p']|] eqn:Ee; simpl in H; [|discriminate].
  inversion H; subst. exists s, p, ret, g1, s', p'. repeat split; assumption.
Qed.

Lemma step_main_inv g r g' :
  step g (Step_main r) = Some g' ->
  exists ret g1 s' ps',
    respond The_main (Main.call_of (main g) (philosophers g)) r g = Some (ret, g1)
    /\ Main.exec (main g1) (philosophers g1) ret = Some (s', ps')
    /\ g' = record (Occ The_main (Main.call_of (main g) (philosophers g)) ret)
              (set_main s' (set_philosophers ps' g1)).
Proof.
  unfold step. intros H.
  destruct (exit_status g); [discriminate|].
  destruct (respond The_main (Main.call_of (main g) (philosophers g)) r g)
    as [[ret g1]|] eqn:Er; simpl in H; [|discriminate].
  destruct (Main.exec (main g1) (philosophers g1) ret) as [[s' ps']|] eqn:Ee;
    simpl in H; [|discriminate].
  inversion H; subst. exists ret, g1, s', ps'. repeat split; assumption.
Qed.

(** A call of a philosopher changes nothing but [forks]. *)
Lemma respond_phil_frame k s p r g ret g1 :
  respond (The_phil k) (PhilPhunction.call_of s p) r g = Some (ret, g1) ->
  philosophers g1 = philosophers g /\ threads g1 = threads g /\ main g1 = main g.
Proof.
  unfold PhilPhunction.call_of, respond. intros H.
  destruct (PhilPhunction.pc s);
    repeat match type of H with
    | context [if ?b then _ else _] => destruct b
    | context [match ?x with _ => _ end] => destruct x
    end; simplify_eq; repeat split; reflexivity.
Qed.

(** A statement of a philosopher leaves the fork pointers of the record. *)
Lemma exec_wiring s p r s' p' :
  PhilPhunction.exec s p r = Some (s', p') ->
  Philosopher.forkLeft p' = Philosopher.forkLeft p
  /\ Philosopher.forkRight p' = Philosopher.forkRight p.
Proof.
  unfold PhilPhunction.exec. intros H.
  destruct (PhilPhunction.pc s); simplify_option_eq; split; reflexivity.
Qed.

Lemma wiring_insert_same (ps : list Philosopher.t) k p p' :
  ps !! k = Some p ->
  Philosopher.forkLeft p' = Philosopher.forkLeft p ->
  Philosopher.forkRight p' = Philosopher.forkRight p ->
  wiring_of (<[k := p']> ps) = wiring_of ps.
Proof.
  intros Hp Hl Hr. unfold wiring_of.
  change (map ?f ?l) with (f <$> l).
  rewrite list_fmap_insert. apply list_insert_id.
  rewrite list_lookup_fmap, Hp. simpl. rewrite Hl, Hr. reflexivity.
Qed.

Lemma created_insert_same (ts : list (option PhilPhunction.locals)) k s s' j :
  ts !! k = Some (Some s) ->
  (exists x, <[k := Some s']> ts !! j = Some (Some x)) <-> (exists x, ts !! j = Some (Some x)).
Proof.
  intros Hk. destruct (Nat.eq_dec k j) as [->|Hne].
  - rewrite list_lookup_insert_eq by (eapply lookup_lt_Some; eauto).
    split; intros _; eauto.
  - rewrite list_lookup_insert_ne by exact Hne. reflexivity.
Qed.

Lemma main_inv_ext m w (cr cr' : nat -> Prop) :
  (forall k, cr' k -> cr k) -> main_inv m w cr -> main_inv m w cr'.
Proof.
  intros H. unfold main_inv. destruct (Main.pc m); intuition auto.
Qed.

Lemma exec_fork_locals k s p r s' p' :
  fork_locals_inv k s ->
  Philosopher.forkLeft p = k ->
  Philosopher.forkRight p = ((k + 1) mod 5)%nat ->
  PhilPhunction.exec s p r = Some (s', p') ->
  fork_locals_inv k s'.
Proof.
  unfold fork_locals_inv, PhilPhunction.exec. intros Hi Hl Hr H.
  destruct s as [pc0 f t sw fl fr ft sr]; simpl in *.
  destruct pc0; simplify_option_eq; simpl;
    repeat match goal with
    | |- context [if ?b then _ else _] => destruct b
    end; simpl; intuition auto.
Qed.

Lemma startup_inv_phil g k r g' :
  startup_inv g -> step g (Step_phil k r) = Some g' -> startup_inv g'.
Proof.
  intros (Hlp & Hlt & Hw & Hfl & Hm) Hs.
  apply step_phil_inv in Hs
    as (s & p & ret & g1 & s' & p' & Hts & Hps & Hr & He & ->).
  apply respond_phil_frame in Hr as (E1 & E2 & E3).
  pose proof (exec_wiring _ _ _ _ _ He) as (El & Er).
  assert (Hwk : wired_at g k) by (apply Hw; exists s; exact Hts).
  assert (Ewir : wiring (record (Occ (The_phil k) (PhilPhunction.call_of s p) ret)
                  (set_threads (<[k := Some s']> (threads g1))
                     (set_philosophers (<[k := p']> (philosophers g1)) g1)))
                 = wiring g).
  { unfold wiring; simpl. rewrite E1. eapply wiring_insert_same; eauto. }
  assert (Hcr : forall j,
            created (record (Occ (The_phil k) (PhilPhunction.call_of s p) ret)
                  (set_threads (<[k := Some s']> (threads g1))
                     (set_philosophers (<[k := p']> (philosophers g1)) g1))) j
            <-> created g j).
  { intros j. unfold created; simpl. rewrite E2. eapply created_insert_same; eauto. }
  unfold startup_inv. split; [|split; [|split; [|split]]].
  - simpl. rewrite E1, length_insert. exact Hlp.
  - simpl. rewrite E2, length_insert. exact Hlt.
  - intros j Hj. unfold wired_at. rewrite Ewir. apply Hw, Hcr, Hj.
  - simpl. rewrite E2. intros j s2 Hj.
    destruct (Nat.eq_dec k j) as [->|Hne].
    + rewrite list_lookup_insert_eq in Hj by (eapply lookup_lt_Some; eauto).
      inversion Hj; subst s2.
      unfold wired_at, wiring, wiring_of in Hwk. rewrite list_lookup_fmap, Hps in Hwk.
      cbn [fmap option_fmap option_map] in Hwk. injection Hwk as H0 H1.
      exact (exec_fork_locals j s p ret s' p' (Hfl j s Hts) H0 H1 He).
    + rewrite list_lookup_insert_ne in Hj by exact Hne. eapply Hfl; eauto.
  - rewrite Ewir. simpl. rewrite E3.
    eapply main_inv_ext; [|exact Hm]. intros j Hj. apply Hcr, Hj.
Qed.

Lemma respond_main_cases g r ret g1 :
  respond The_main (Main.call_of (main g) (philosophers g)) r g = Some (ret, g1) ->
  main g1 = main g /\ philosophers g1 = philosophers g
  /\ (threads g1 = threads g
      \/ (Main.pc (main g) = Main.M141 /\ ret = 0
          /\ threads g1 = <[Main.phil (main g) := Some PhilPhunction.entry]> (threads g)))
  /\ (Main.pc (main g) = Main.M141 -> ret = r).
Proof.
  unfold Main.call_of, respond. intros H.
  destruct (Main.pc (main g)) eqn:Epc;
    repeat match type of H with
    | context [if ?b then _ else _] => destruct b eqn:?
    | context [match ?x with _ => _ end] => destruct x eqn:?
    end; simplify_eq; simpl;
    repeat split; auto; try (intros; congruence);
    try (right; repeat split; auto; fail).
  all: try (intros _; symmetry; apply Z.eqb_eq; assumption).
  all: exfalso;
    repeat match goal with
    | H : match ?x with _ => _ end = _ |- _ => destruct x
    end; discriminate.
Qed.

Lemma store_inv k f ps ps' :
  Main.store k f ps = Some ps' ->
  exists p, ps !! k = Some p /\ ps' = <[k := f p]> ps.
Proof.
  unfold Main.store. intros H.
  destruct (ps !! k) as [p|]; simpl in H; [|discriminate].
  inversion H. eauto.
Qed.

Lemma wiring_of_insert ps k p :
  wiring_of (<[k := p]> ps)
  = <[k := (Philosopher.forkLeft p, Philosopher.forkRight p)]> (wiring_of ps).
Proof.
  unfold wiring_of. change (map ?f ?l) with (f <$> l).
  rewrite list_fmap_insert. reflexivity.
Qed.

Lemma wiring_of_lookup ps k p :
  ps !! k = Some p ->
  wiring_of ps !! k = Some (Philosopher.forkLeft p, Philosopher.forkRight p).
Proof.
  intros H. unfold wiring_of. change (map ?f ?l) with (f <$> l).
  rewrite list_lookup_fmap, H. reflexivity.
Qed.

Lemma wiring_of_length ps : length (wiring_of ps) = length ps.
Proof. unfold wiring_of. apply length_map. Qed.

Lemma main_inv_step m ps ret m' ps' (cr : nat -> Prop) :
  length ps = 5%nat ->
  main_inv m (wiring_of ps) cr ->
  (forall k, cr k -> wiring_of ps !! k = Some (k, (k + 1) mod 5)%nat) ->
  Main.exec m ps ret = Some (m', ps') ->
  let cr' j := cr j \/ (Main.pc m = Main.M141 /\ ret = 0 /\ j = Main.phil m) in
  length ps' = 5%nat
  /\ main_inv m' (wiring_of ps') cr'
  /\ (forall k, cr' k -> wiring_of ps' !! k = Some (k, (k + 1) mod 5)%nat).
Proof.
  intros Hlen Hm Hw He cr'. subst cr'.
  unfold main_inv in Hm. unfold Main.exec in He.
  destruct m as [pc0 gp ph i f]; simpl in *.
  destruct pc0; simplify_option_eq;
    repeat match goal with
    | H : Main.store _ _ _ = Some _ |- _ =>
        let x := fresh "x" in let Hx := fresh "Hx" in
        apply store_inv in H; destruct H as (x & Hx & ->)
    end.
  all: unfold main_inv; simpl.
  all: try (split; [assumption|]; split;
            [ repeat match goal with
              | |- context [if ?b then _ else _] => destruct b eqn:?
              end; intuition (try congruence; try lia; eauto;
                    match goal with
                    | H : forall k, _ -> Z.of_nat k < _, H' : ?c _ |- _ =>
                        specialize (H _ H'); lia
                    end)
            | intros k [Hk|(? & _)]; [auto | congruence] ]; fail).
  - (* line 135 *)
    destruct ((i <? 0) || (5 <=? i)) eqn:E; [discriminate|].
    apply orb_false_elim in E as [E1 E2].
    apply Z.ltb_ge in E1. apply Z.leb_gt in E2.
    inversion He; subst; simpl.
    split; [assumption|]. split.
    + split; [lia|]. split; [reflexivity|].
      intros k [Hk|(? & _)]; [apply Hm, Hk | congruence].
    + intros k [Hk|(? & _)]; [auto | congruence].
  - (* line 136 *)
    rewrite length_insert, (wiring_insert_same ps ph x) by (assumption || reflexivity).
    split; [assumption|]. split.
    + destruct Hm as (Hi & Hph & Hb). repeat split; try lia.
      intros k [Hk|(? & _)]; [apply Hb, Hk | congruence].
    + intros k [Hk|(? & _)]; [auto | congruence].
  - (* line 137 *)
    rewrite length_insert, wiring_of_insert. simpl.
    destruct Hm as (Hi & Hph & Hb).
    assert (Hlt : (ph < length (wiring_of ps))%nat)
      by (rewrite wiring_of_length; lia).
    split; [assumption|]. split.
    + repeat split; try lia.
      * intros k [Hk|(? & _)]; [apply Hb, Hk | congruence].
      * rewrite list_lookup_insert_eq by exact Hlt. simpl. congruence.
    + intros k [Hk|(? & _)]; [|congruence].
      rewrite list_lookup_insert_ne by (specialize (Hb k Hk); lia). auto.
  - (* line 138 *)
    rewrite length_insert, wiring_of_insert. simpl.
    destruct Hm as (Hi & Hph & Hb & Hl).
    assert (Hlt : (ph < length (wiring_of ps))%nat)
      by (rewrite wiring_of_length; lia).
    rewrite (wiring_of_lookup ps ph x Hx) in Hl. simpl in Hl. injection Hl as Hl.
    assert (Hr : Z.to_nat (c_mod (i + 1) 5) = ((ph + 1) mod 5)%nat).
    { assert (i = 0 \/ i = 1 \/ i = 2 \/ i = 3 \/ i = 4) as Hc by lia.
      destruct Hc as [->|[->|[->|[->| ->]]]]; subst ph; reflexivity. }
    split; [assumption|]. split.
    + repeat split; try lia.
      * intros k [Hk|(? & _)]; [apply Hb, Hk | congruence].
      * rewrite list_lookup_insert_eq by exact Hlt. rewrite Hl, Hr. reflexivity.
    + intros k [Hk|(? & _)]; [|congruence].
      rewrite list_lookup_insert_ne by (specialize (Hb k Hk); lia). auto.
  - (* line 139 *)
    rewrite length_insert, (wiring_insert_same ps ph x) by (assumption || reflexivity).
    split; [assumption|]. split.
    + destruct Hm as (Hi & Hph & Hb & Hl). repeat split; try lia; try assumption.
      intros k [Hk|(? & _)]; [apply Hb, Hk | congruence].
    + intros k [Hk|(? & _)]; [auto | congruence].
  - (* line 140 *)
    rewrite length_insert, (wiring_insert_same ps ph x) by (assumption || reflexivity).
    split; [assumption|]. split.
    + destruct Hm as (Hi & Hph & Hb & Hl). repeat split; try lia; try assumption.
      intros k [Hk|(? & _)]; [apply Hb, Hk | congruence].
    + intros k [Hk|(? & _)]; [auto | congruence].
  - (* line 141 *)
    rewrite length_insert, (wiring_insert_same ps ph x)
      by (assumption || (destruct (ret =? 0); reflexivity)).
    destruct Hm as (Hi & Hph & Hb & Hl).
    split; [assumption|]. split.
    + repeat split; try lia.
      intros k [Hk|(_ & _ & ->)]; [specialize (Hb k Hk); lia | lia].
    + intros k [Hk|(_ & _ & ->)]; [auto | exact Hl].
  - (* line 142 *)
    rewrite length_insert, (wiring_insert_same ps ph x) by (assumption || reflexivity).
    split; [assumption|]. split.
    + destruct Hm as (Hi & Hph & Hb). repeat split; try lia.
      intros k [Hk|(? & _)]; [apply Hb, Hk | congruence].
    + intros k [Hk|(? & _)]; [auto | congruence].
Qed.

Lemma startup_inv_main g r g' :
  startup_inv g -> step g (Step_main r) = Some g' -> startup_inv g'.
Proof.
  intros (Hlp & Hlt & Hw & Hfl & Hm) Hs.
  apply step_main_inv in Hs as (ret & g1 & s' & ps' & Hr & He & ->).
  apply respond_main_cases in Hr as (E1 & E2 & Eth & _).
  rewrite E1, E2 in He.
  destruct (main_inv_step (main g) (philosophers g) ret s' ps' (created g)
              Hlp Hm Hw He) as (Hlen' & Hm' & Hw').
  assert (Hcr : forall j,
            created (record (Occ The_main (Main.call_of (main g) (philosophers g)) ret)
                       (set_main s' (set_philosophers ps' g1))) j ->
            created g j
            \/ (Main.pc (main g) = Main.M141 /\ ret = 0 /\ j = Main.phil (main g))).
  { intros j [s Hj]. simpl in Hj.
    destruct Eth as [Eth|(Epc & Eret & Eth)]; rewrite Eth in Hj.
    - left. exists s. exact Hj.
    - destruct (Nat.eq_dec (Main.phil (main g)) j) as [<-|Hne].
      + right. auto.
      + rewrite list_lookup_insert_ne in Hj by exact Hne. left. exists s. exact Hj. }
  unfold startup_inv. split; [|split; [|split; [|split]]].
  - exact Hlen'.
  - simpl. destruct Eth as [->|(_ & _ & ->)]; [|rewrite length_insert]; exact Hlt.
  - intros j Hj. apply Hw', Hcr, Hj.
  - simpl. intros j s Hj.
    destruct Eth as [Eth|(Epc & Eret & Eth)]; rewrite Eth in Hj.
    + eapply Hfl; eauto.
    + destruct (Nat.eq_dec (Main.phil (main g)) j) as [<-|Hne].
      * pose proof (lookup_lt_Some _ _ _ Hj) as Hl. rewrite length_insert in Hl.
        rewrite list_lookup_insert_eq in Hj by exact Hl.
        inversion Hj; subst s. exact I.
      * rewrite list_lookup_insert_ne in Hj by exact Hne. eapply Hfl; eauto.
  - eapply main_inv_ext; [|exact Hm']. exact Hcr.
Qed.

Lemma startup_inv_signal g g' :
  startup_inv g -> step g Signal_SIGTERM = Some g' -> startup_inv g'.
Proof.
  unfold step. intros Hi H.
  destruct (exit_status g); [discriminate|].
  destruct (handler_installed g); [|discriminate].
  inversion H; subst. exact Hi.
Qed.

Lemma startup_inv_step g mv g' :
  startup_inv g -> step g mv = Some g' -> startup_inv g'.
Proof.
  destruct mv as [r|k r|].
  - apply startup_inv_main.
  - apply startup_inv_phil.
  - apply startup_inv_signal.
Qed.

Lemma startup_inv_steps mvs : forall g g',
  startup_inv g -> steps g mvs = Some g' -> startup_inv g'.
Proof.
  induction mvs as [|mv mvs IH]; simpl; intros g g' Hi H.
  - inversion H; subst; exact Hi.
  - destruct (step g mv) as [g1|] eqn:E; simpl in H; [|discriminate].
    eapply IH; [eapply startup_inv_step; eauto | exact H].
Qed.

Lemma startup_inv_initial junk : startup_inv (initial junk).
Proof.
  unfold startup_inv, initial; simpl.
  assert (Hno : forall k, ~ created (initial junk) k).
  { intros k [s Hs]. unfold initial in Hs; simpl in Hs.
    destruct k as [|[|[|[|[|k]]]]]; discriminate. }
  split; [reflexivity|]. split; [reflexivity|].
  split; [intros k Hk; destruct (Hno k Hk)|].
  split.
  - intros k s Hs. destruct k as [|[|[|[|[|k]]]]]; discriminate.
  - unfold main_inv; simpl. intros k Hk. destruct (Hno k Hk).
Qed.

Lemma reachable_startup_inv g : reachable g -> startup_inv g.
Proof.
  intros (junk & mvs & H).
  eapply startup_inv_steps; [apply startup_inv_initial | exact H].
Qed.

Lemma created_step g mv g' k :
  created g k -> step g mv = Some g' -> created g' k.
Proof.
  intros [s Hs] H. destruct mv as [r|j r|].
  - apply step_main_inv in H as (ret & g1 & s' & ps' & Hr & He & ->).
    apply respond_main_cases in Hr as (_ & _ & Eth & _).
    unfold created; simpl.
    destruct Eth as [->|(_ & _ & ->)]; [eauto|].
    destruct (Nat.eq_dec (Main.phil (main g)) k) as [<-|Hne].
    + rewrite list_lookup_insert_eq by (eapply lookup_lt_Some; eauto). eauto.
    + rewrite list_lookup_insert_ne by exact Hne. eauto.
  - apply step_phil_inv in H
      as (s0 & p & ret & g1 & s' & p' & Hts & Hps & Hr & He & ->).
    apply respond_phil_frame in Hr as (_ & E2 & _).
    unfold created; simpl. rewrite E2.
    apply (created_insert_same (threads g) j s0 s' k Hts). eauto.
  - unfold step in H. destruct (exit_status g); [discriminate|].
    destruct (handler_installed g); [|discriminate].
    inversion H; subst. exists s. exact Hs.
Qed.

Lemma created_steps mvs : forall g g' k,
  created g k -> steps g mvs = Some g' -> created g' k.
Proof.
  induction mvs as [|mv mvs IH]; simpl; intros g g' k Hc H.
  - inversion H; subst; exact Hc.
  - destruct (step g mv) as [g1|] eqn:E; simpl in H; [|discriminate].
    eapply IH; [eapply created_step; eauto | exact H].
Qed.

Lemma reachable_steps g mvs g' :
  reachable g -> steps g mvs = Some g' -> reachable g'.
Proof.
  intros (junk & mvs0 & H0) H. exists junk, (mvs0 ++ mvs)%list.
  revert H0 H. generalize (initial junk). clear junk.
  induction mvs0 as [|mv mvs0 IH]; simpl; intros g0 H0 H.
  - inversion H0; subst. exact H.
  - destruct (step g0 mv) as [g1|]; simpl in *; [|discriminate]. eauto.
Qed.

(** C7. In every reachable state of the process, for every philosopher
    [k] whose thread exists: [k] is below 5, the record has
    [forkLeft = &forks[k]] and [forkRight = &forks[(k + 1) % 5]], and it
    keeps them whatever runs afterwards; a call of the thread on a mutex
    is on one of these two.  In the ring, every fork is asked for by
    exactly two philosophers, [f] and [(f + 4) % 5], and every philosopher
    asks for exactly two forks; once the five threads exist the wiring of
    the process is the ring. *)
Theorem ring_wiring (g : process) :
  reachable g ->
  (forall k, created g k ->
     (k < 5)%nat
     /\ (exists p, philosophers g !! k = Some p
                   /\ Philosopher.forkLeft p = k
                   /\ Philosopher.forkRight p = ((k + 1) mod 5)%nat)
     /\ (forall mvs g', steps g mvs = Some g' -> wiring g' !! k = wiring g !! k))
  /\ (forall k s p m,
        threads g !! k = Some (Some s) ->
        philosophers g !! k = Some p ->
        mutex_of (PhilPhunction.call_of s p) = Some m ->
        m = k \/ m = ((k + 1) mod 5)%nat)
  /\ (forall k f, (k < 5)%nat -> (f < 5)%nat ->
        requests ring k f = true <-> (k = f \/ k = ((f + 4) mod 5)%nat))
  /\ (forall f, (f < 5)%nat ->
        length (List.filter (fun k => requests ring k f) (seq 0 5)) = 2%nat)
  /\ (forall k, (k < 5)%nat ->
        length (List.filter (fun f => requests ring k f) (seq 0 5)) = 2%nat)
  /\ ((forall k, (k < 5)%nat -> created g k) -> wiring g = ring).
Proof.
  intros Hreach. pose proof (reachable_startup_inv g Hreach) as Hinv.
  destruct Hinv as (Hlp & Hlt & Hw & Hfl & Hm).
  assert (Hlook : forall k, created g k ->
            exists p, philosophers g !! k = Some p
                      /\ Philosopher.forkLeft p = k
                      /\ Philosopher.forkRight p = ((k + 1) mod 5)%nat).
  { intros k Hk. specialize (Hw k Hk). unfold wired_at, wiring, wiring_of in Hw.
    change (map ?f ?l) with (f <$> l) in Hw. rewrite list_lookup_fmap in Hw.
    destruct (philosophers g !! k) as [p|]; [|discriminate].
    cbn [fmap option_fmap option_map] in Hw. injection Hw as H1 H2. eauto. }
  split; [|split; [|split; [|split; [|split]]]].
  - intros k Hk. split; [|split].
    + destruct Hk as [s Hs]. apply lookup_lt_Some in Hs. lia.
    + apply Hlook, Hk.
    + intros mvs g' Hs.
      pose proof (reachable_startup_inv g' (reachable_steps g mvs g' Hreach Hs))
        as (_ & _ & Hw' & _).
      pose proof (Hw' k (created_steps mvs g g' k Hk Hs)) as H1.
      pose proof (Hw k Hk) as H2. unfold wired_at in H1, H2. congruence.
  - intros k s p m Hs Hp Hc.
    destruct (Hlook k (ex_intro _ s Hs)) as (p0 & Hp0 & Hl & Hr).
    pose proof (Hfl k s Hs) as Hf. unfold fork_locals_inv in Hf.
    unfold PhilPhunction.call_of in Hc.
    destruct (PhilPhunction.pc s); simpl in Hc; try discriminate;
      repeat match type of Hc with
      | context [if ?b then _ else _] => destruct b
      end; simpl in Hc; try discriminate;
      injection Hc as <-; tauto.
  - intros k f Hk Hf.
    destruct k as [|[|[|[|[|k]]]]]; try lia;
      destruct f as [|[|[|[|[|f]]]]]; try lia;
      vm_compute; split; intros H; try discriminate; try reflexivity;
      try (left; reflexivity); try (right; reflexivity);
      destruct H; discriminate.
  - intros f Hf. destruct f as [|[|[|[|[|f]]]]]; try lia; reflexivity.
  - intros k Hk. destruct k as [|[|[|[|[|k]]]]]; try lia; reflexivity.
  - intros Hall. unfold wiring in *.
    assert (Hlen : length (wiring_of (philosophers g)) = 5%nat)
      by (rewrite wiring_of_length; exact Hlp).
    apply list_eq. intros k.
    destruct (Nat.lt_ge_cases k 5) as [Hk|Hk].
    + rewrite (Hw k (Hall k Hk)).
      destruct k as [|[|[|[|[|k]]]]]; try lia; reflexivity.
    + rewrite !lookup_ge_None_2; [reflexivity | simpl; lia | lia].
Qed.

(** After a startup without failure the five records are as [wired] says,
    with the descriptors 3 to 7 that [GPIO_OpenAsOutput] returned. *)
Example startup_philosophers :
  option_map (fun g => (philosophers g, forks g, Main.pc (main g)))
    (steps (initial junk0) startup)
  = Some ([wired 0 3; wired 1 4; wired 2 5; wired 3 6; wired 4 7],
          replicate 5 Unlocked, Main.M151).
Proof. vm_compute. reflexivity. Qed.

(** ** The served count in the process *)

Lemma main_exec_platesCounter m ps ret m' ps' :
  Main.exec m ps ret = Some (m', ps') ->
  ps' = ps
  \/ exists x x', ps !! Main.phil m = Some x
                  /\ ps' = <[Main.phil m := x']> ps
                  /\ (Philosopher.platesCounter x' = Philosopher.platesCounter x
                      \/ Main.pc m = Main.M139).
Proof.
  unfold Main.exec. intros H.
  destruct m as [pc0 gp ph i f]; simpl in *.
  destruct pc0; simplify_option_eq;
    repeat match goal with
    | H : Main.store _ _ _ = Some _ |- _ =>
        let x := fresh "x" in let Hx := fresh "Hx" in
        apply store_inv in H; destruct H as (x & Hx & ->)
    | H : context [if ?b then _ else _] |- _ => destruct b; simplify_eq
    end;
    try (left; reflexivity);
    right; eexists; eexists; (split; [eassumption|]); (split; [reflexivity|]);
    try (right; reflexivity); left;
    try reflexivity.
  destruct (ret =? 0); reflexivity.
Qed.

Lemma step_platesCounter g mv g' k p p' :
  reachable g -> created g k -> step g mv = Some g' ->
  philosophers g !! k = Some p -> philosophers g' !! k = Some p' ->
  Philosopher.platesCounter p <= Philosopher.platesCounter p'.
Proof.
  intros Hreach Hk Hs Hp Hp'.
  pose proof (reachable_startup_inv g Hreach) as (_ & _ & _ & _ & Hm).
  destruct mv as [r|j r|].
  - apply step_main_inv in Hs as (ret & g1 & s' & ps' & Hr & He & ->).
    apply respond_main_cases in Hr as (E1 & E2 & _). rewrite E1, E2 in He.
    simpl in Hp'.
    destruct (main_exec_platesCounter _ _ _ _ _ He)
      as [->|(x & x' & Hx & -> & Hcase)].
    + rewrite Hp in Hp'. injection Hp' as <-. lia.
    + destruct (Nat.eq_dec (Main.phil (main g)) k) as [Heq|Hne].
      * rewrite Heq in *. rewrite list_lookup_insert_eq in Hp'
          by (eapply lookup_lt_Some; eauto).
        injection Hp' as <-. rewrite Hp in Hx. injection Hx as <-.
        destruct Hcase as [->|Hpc]; [lia|].
        unfold main_inv in Hm. rewrite Hpc in Hm.
        destruct Hm as (Hi & Hph & Hb & _). specialize (Hb k Hk). lia.
      * rewrite list_lookup_insert_ne in Hp' by exact Hne.
        rewrite Hp in Hp'. injection Hp' as <-. lia.
  - apply step_phil_inv in Hs
      as (s0 & p0 & ret & g1 & s' & p1 & Hts & Hps & Hr & He & ->).
    apply respond_phil_frame in Hr as (E1 & _). simpl in Hp'. rewrite E1 in Hp'.
    destruct (Nat.eq_dec j k) as [->|Hne].
    + rewrite list_lookup_insert_eq in Hp' by (eapply lookup_lt_Some; eauto).
      injection Hp' as <-. rewrite Hp in Hps. injection Hps as <-.
      eapply exec_platesCounter; eauto.
    + rewrite list_lookup_insert_ne in Hp' by exact Hne.
      rewrite Hp in Hp'. injection Hp' as <-. lia.
  - unfold step in Hs. destruct (exit_status g); [discriminate|].
    destruct (handler_installed g); [|discriminate].
    inversion Hs; subst. simpl in Hp'. rewrite Hp in Hp'. injection Hp' as <-. lia.
Qed.

(** C5. Once both forks are taken ([failed = 0] at line 81) the thread
    executes, in this order: [isEating = 1], [platesCounter++],
    [GPIO_SetValue(gpio, Low)], the log of eating, a sleep of
    [1 + rand() % 8] seconds, the unlock of [forkRight] and of [forkLeft],
    [isEating = 0], [GPIO_SetValue(gpio, High)], and is back at the head of
    the cycle.  The record after each statement is spelled out field by
    field: [isEating] is 1 from line 82 on and 0 from line 90 on,
    [platesCounter] is one more from line 83 on, and the other fields are
    those of [*phil].  Over any run of the thread [platesCounter] never
    decreases, and in the process no move, of whomever, lowers the
    [platesCounter] of a philosopher whose thread exists. *)
Theorem eating_sequence (s : locals) (phil : Philosopher.t) (h : list event)
    (r81 r82 r83 r84 r85 r86 r87 r88 r89 r90 r91 : Z) :
  pc s = L81 ->
  failed s = 0 ->
  INT_MIN <= Philosopher.platesCounter phil < INT_MAX ->
  let record (platesCounter isEating : Z) :=
    Philosopher.mk (Philosopher.forkLeft phil) (Philosopher.forkRight phil)
      (Philosopher.name phil) (Philosopher.thread phil) (Philosopher.gpio phil)
      platesCounter isEating (Philosopher.fail phil) in
  let p1 := record (Philosopher.platesCounter phil) 1 in
  let p2 := record (Philosopher.platesCounter phil + 1) 1 in
  let p3 := record (Philosopher.platesCounter phil + 1) 0 in
  let nap := 1 + c_mod r86 8 in
  phil_run (Config s phil h) [r81; r82; r83; r84; r85; r86; r87; r88; r89; r90; r91]
  = Some (Config (at_pc L53 (set_sleepRandom nap s)) p3
            (Ev L91 (GPIO_SetValue (Philosopher.gpio phil) GPIO_Value_High) r91 p3
             :: Ev L90 Tau r90 p3
             :: Ev L89 (Pthread_mutex_unlock (forkLeft s)) r89 p2
             :: Ev L88 (Pthread_mutex_unlock (forkRight s)) r88 p2
             :: Ev L87 (Nanosleep nap) r87 p2
             :: Ev L86 Rand r86 p2
             :: Ev L85 (Log_Debug "%s is eating\n" [AStr (Philosopher.name phil)]) r85 p2
             :: Ev L84 (GPIO_SetValue (Philosopher.gpio phil) GPIO_Value_Low) r84 p2
             :: Ev L83 Tau r83 p2
             :: Ev L82 Tau r82 p1
             :: Ev L81 Tau r81 phil
             :: h))
  /\ (forall c rs c', phil_run c rs = Some c' ->
        Philosopher.platesCounter (c_phil c) <= Philosopher.platesCounter (c_phil c'))
  /\ (forall g mv g' k p p',
        reachable g -> created g k -> step g mv = Some g' ->
        philosophers g !! k = Some p -> philosophers g' !! k = Some p' ->
        Philosopher.platesCounter p <= Philosopher.platesCounter p').
Proof.
  intros Hpc Hf Hn.
  split; [|split; [intros c rs c'; apply phil_run_platesCounter
                  |apply step_platesCounter]].
  destruct s as [pc0 f t sw fl fr ft sr]; simpl in Hpc, Hf; subst pc0 f.
  assert (Hc : int_checked (Philosopher.platesCounter phil + 1)
               = Some (Philosopher.platesCounter phil + 1))
    by (apply int_checked_Some; unfold INT_MIN, INT_MAX in *; lia).
  run_steps ltac:(rewrite ?Hc).
Qed.

(** ** Shutdown and exit status *)

Lemma main_step_flag g r g' :
  step g (Step_main r) = Some g' -> terminationRequired g' = terminationRequired g.
Proof.
  intros H. apply step_main_inv in H as (ret & g1 & s' & ps' & Hr & He & ->).
  simpl. unfold Main.call_of, respond in Hr.
  destruct (Main.pc (main g));
    repeat match type of Hr with
    | context [if ?b then _ else _] => destruct b eqn:?
    | context [match ?x with _ => _ end] => destruct x eqn:?
    end; simplify_eq; simpl; congruence.
Qed.







(** ** The abort path of main under any schedule *)

Lemma exec_fail_name s p r s' p' :
  PhilPhunction.exec s p r = Some (s', p') ->
  Philosopher.fail p' = Philosopher.fail p /\ Philosopher.name p' = Philosopher.name p.
Proof.
  unfold PhilPhunction.exec. intros H.
  destruct (PhilPhunction.pc s); simplify_option_eq; split; reflexivity.
Qed.

(** A move that is not of [main] leaves what [main] looks at. *)
Lemma other_step_view g mv g' :
  is_main_move mv = false ->
  step g mv = Some g' ->
  exit_status g' = exit_status g
  /\ main g' = main g
  /\ main_calls (trace g') = main_calls (trace g)
  /\ forall k p, philosophers g !! k = Some p ->
       exists p', philosophers g' !! k = Some p'
                  /\ Philosopher.fail p' = Philosopher.fail p
                  /\ Philosopher.name p' = Philosopher.name p.
Proof.
  intros Hmv Hs. destruct mv as [r|j r|]; [discriminate| |].
  - pose proof Hs as Hs0. unfold step in Hs0.
    destruct (exit_status g) eqn:Ees; [discriminate|]. clear Hs0.
    apply step_phil_inv in Hs
      as (s0 & p0 & ret & g1 & s' & p1 & Hts & Hps & Hr & He & ->).
    assert (Hes : exit_status g1 = exit_status g /\ trace g1 = trace g).
    { unfold PhilPhunction.call_of, respond in Hr.
      destruct (PhilPhunction.pc s0);
        repeat match type of Hr with
        | context [if ?b then _ else _] => destruct b
        | context [match ?x with _ => _ end] => destruct x
        end; simplify_eq; split; reflexivity. }
    destruct Hes as [Hes Htr].
    apply respond_phil_frame in Hr as (E1 & E2 & E3).
    simpl. rewrite E3, E1.
    split; [congruence|]. split; [reflexivity|].
    split; [unfold main_calls; simpl; rewrite Htr; reflexivity|].
    intros k p Hp. destruct (Nat.eq_dec j k) as [->|Hne].
    + rewrite list_lookup_insert_eq by (eapply lookup_lt_Some; eauto).
      rewrite Hp in Hps. injection Hps as <-.
      destruct (exec_fail_name _ _ _ _ _ He). eauto.
    + rewrite list_lookup_insert_ne by exact Hne. eauto.
  - unfold step in Hs. destruct (exit_status g) eqn:Ees; [discriminate|].
    destruct (handler_installed g); [|discriminate].
    inversion Hs; subst. simpl.
    split; [congruence|]. split; [reflexivity|]. split; [reflexivity|]. eauto.
Qed.



Lemma skipn_nth_error {A : Type} (l : list A) (n : nat) (x : A) :
  nth_error l n = Some x -> skipn n l = x :: skipn (S n) l.
Proof.
  revert n. induction l as [|y l IH]; intros [|n] H; simpl in *; try discriminate.
  - injection H as <-. reflexivity.
  - apply IH. exact H.
Qed.

(** A path of [main] given by what holds after [n] of its statements
    ([P n]) and by the calls of these statements: under any schedule, the
    moves of the others change nothing of it. *)
Lemma abort_steps (P : nat -> process -> Prop) (calls : list call) :
  (forall n g mv g', is_main_move mv = false -> step g mv = Some g' -> P n g ->
     P n g' /\ main_calls (trace g') = main_calls (trace g)) ->
  (forall n g x g', step g (Step_main x) = Some g' -> P n g ->
     exists c, nth_error calls n = Some c /\ P (S n) g'
               /\ main_calls (trace g') = c :: main_calls (trace g)) ->
  forall mvs n g g',
    P n g -> steps g mvs = Some g' ->
    P (n + count_main mvs)%nat g'
    /\ main_calls (trace g')
       = (rev (firstn (count_main mvs) (skipn n calls)) ++ main_calls (trace g))%list.
Proof.
  intros Hother Hmain.
  induction mvs as [|mv mvs IH]; intros n g g' Hi Hs.
  - simpl in Hs. injection Hs as <-. unfold count_main; simpl.
    rewrite Nat.add_0_r. split; [assumption|reflexivity].
  - simpl in Hs. destruct (step g mv) as [g1|] eqn:E; simpl in Hs; [|discriminate].
    destruct (is_main_move mv) eqn:Emv.
    + destruct mv as [x| |]; try discriminate.
      destruct (Hmain n g x g1 E Hi) as (c & Hc & Hi1 & Ht1).
      destruct (IH (S n) g1 g' Hi1 Hs) as (Hi' & Ht').
      unfold count_main in *; simpl.
      rewrite Nat.add_succ_r. split; [exact Hi'|].
      rewrite Ht', Ht1, (skipn_nth_error calls n c Hc). simpl.
      rewrite <- app_assoc. reflexivity.
    + destruct (Hother n g mv g1 Emv E Hi) as (Hi1 & Ht1).
      destruct (IH n g1 g' Hi1 Hs) as (Hi' & Ht').
      unfold count_main in *; simpl. rewrite Emv.
      split; [exact Hi'|]. rewrite Ht', Ht1. reflexivity.
Qed.


#[local] Arguments Main.at_index : simpl never.
#[local] Arguments Main.store : simpl never.






(** A move that is not of [main] leaves the flag set. *)
Lemma other_step_flag g mv g' :
  is_main_move mv = false -> step g mv = Some g' ->
  terminationRequired g = true -> terminationRequired g' = true.
Proof.
  intros Hmv Hs Hf. destruct mv as [r|j r|]; [discriminate| |].
  - apply step_phil_inv in Hs
      as (s0 & p0 & ret & g1 & s' & p1 & Hts & Hps & Hr & He & ->).
    simpl. unfold PhilPhunction.call_of, respond in Hr.
    destruct (PhilPhunction.pc s0);
      repeat match type of Hr with
      | context [if ?b then _ else _] => destruct b eqn:?
      | context [match ?x with _ => _ end] => destruct x eqn:?
      end; simplify_eq; simpl; congruence.
  - unfold step in Hs. destruct (exit_status g); [discriminate|].
    destruct (handler_installed g); [|discriminate].
    injection Hs as <-. reflexivity.
Qed.

Lemma shutdown_other n g mv g' :
  is_main_move mv = false -> step g mv = Some g' ->
  shutdown n g ->
  shutdown n g' /\ main_calls (trace g') = main_calls (trace g).
Proof.
  intros Hmv Hs Hi. destruct (other_step_view g mv g' Hmv Hs) as (E1 & E2 & E3 & _).
  split; [|exact E3]. unfold shutdown in *. rewrite E1, E2.
  destruct n as [|n]; [|exact Hi].
  destruct Hi as (H1 & H2 & H3). repeat split; try assumption.
  eapply other_step_flag; eauto.
Qed.

Lemma shutdown_main n g x g' :
  step g (Step_main x) = Some g' ->
  shutdown n g ->
  exists c, nth_error shutdown_calls n = Some c
            /\ shutdown (S n) g'
            /\ main_calls (trace g') = c :: main_calls (trace g).
Proof.
  intros Hs Hi.
  destruct g as [tr hi fs ps m ts es tc]; destruct m as [pc0 gp ph i f].
  destruct n as [|[|[|[|n]]]]; simpl in Hi;
    try (destruct Hi as (-> & -> & ->)); try (destruct Hi as (-> & ->));
    try contradiction;
    unfold step, Main.exec, Main.call_of in Hs; simpl in Hs;
    try discriminate; injection Hs as <-;
    eexists; (split; [reflexivity|]); (split; [split; reflexivity|]); reflexivity.
Qed.

Lemma shutdown_status n g :
  shutdown n g ->
  (n <= 3)%nat /\ exit_status g = (if Nat.eqb n 3 then Some 0 else None).
Proof.
  destruct n as [|[|[|[|n]]]]; simpl; intros H; try contradiction;
    destruct H as (H & _); split; try lia; exact H.
Qed.

(** From the head of the loop with the flag set, under any schedule. *)
Lemma shutdown_any_schedule g mvs g' :
  exit_status g = None ->
  Main.pc (main g) = Main.M151 ->
  terminationRequired g = true ->
  steps g mvs = Some g' ->
  (count_main mvs <= 3)%nat
  /\ main_calls (trace g')
     = (rev (firstn (count_main mvs) shutdown_calls) ++ main_calls (trace g))%list
  /\ exit_status g' = (if Nat.eqb (count_main mvs) 3 then Some 0 else None).
Proof.
  intros He Hpc Hf Hs.
  destruct (abort_steps shutdown shutdown_calls shutdown_other shutdown_main
              mvs 0%nat g g' (conj He (conj Hpc Hf)) Hs) as (Hi & Ht).
  simpl in Hi. destruct (shutdown_status _ g' Hi) as (Hle & Hst).
  split; [exact Hle|]. split; [exact Ht|exact Hst].
Qed.

(** C4 (as amended). Once [terminationRequired] is set, [main] at the head
    of its loop (line 151) reads it, logs the exit message and returns 0:
    the process exits with status 0.  [main] calls nothing else on the way,
    whatever the threads and the signal do in between: the threads are not
    joined and the mutexes are not destroyed; when [main] runs alone the
    threads and the forks are where they were.  No statement of [main]
    writes the flag (only [TerminationHandler] does). *)
Theorem shutdown_without_join (g : process) (x1 x2 x3 : Z) :
  exit_status g = None ->
  Main.pc (main g) = Main.M151 ->
  terminationRequired g = true ->
  (exists g',
     steps g (main_moves [x1; x2; x3]) = Some g'
     /\ exit_status g' = Some 0
     /\ trace g' = Occ The_main (Return_main 0) x3
                   :: Occ The_main (Log_Debug "Dining philosophers exiting.\n" []) x2
                   :: Occ The_main Read_terminationRequired 1
                   :: trace g
     /\ threads g' = threads g
     /\ forks g' = forks g
     /\ philosophers g' = philosophers g
     /\ forall mv, step g' mv = None)
  /\ (forall mvs g', steps g mvs = Some g' ->
        (count_main mvs <= 3)%nat
        /\ main_calls (trace g')
           = (rev (firstn (count_main mvs) shutdown_calls) ++ main_calls (trace g))%list
        /\ exit_status g' = (if Nat.eqb (count_main mvs) 3 then Some 0 else None))
  /\ (forall g0 r g1, step g0 (Step_main r) = Some g1 ->
        terminationRequired g1 = terminationRequired g0).
Proof.
  intros He Hpc Hf.
  split; [|split; [intros mvs g'; apply shutdown_any_schedule; assumption
                  |apply main_step_flag]].
  destruct g as [tr hi fs ps m ts es tc]; simpl in *.
  destruct m as [pc0 gp ph i f]; simpl in *. subst.
  eexists. split; [lazy; reflexivity|].
  repeat split.
Qed.

(** C4 (as stated): the process exits without joining.  After a startup
    without failure Socrates takes both forks and sleeps at line 87;
    SIGTERM arrives; [main] leaves its loop and returns 0.  The process has
    exited with status 0 while the thread of Socrates has not returned and
    holds [forks[0]] and [forks[1]]; nothing was joined or destroyed. *)
Lemma exit_without_join :
  option_map
    (fun g => (exit_status g,
               option_map PhilPhunction.pc (mjoin (threads g !! 0%nat)),
               forks g,
               existsb (fun o => is_join_or_destroy (occ_call o)) (trace g)))
    (steps (initial junk0) exit_while_eating)
  = Some (Some 0, Some L87,
          [Locked 0; Locked 0; Unlocked; Unlocked; Unlocked], false).
Proof. vm_compute. reflexivity. Qed.


(** * Further properties of the process *)

(** ** Ownership of the forks *)

Lemma right_of_lt k : (right_of k < 5)%nat.
Proof. unfold right_of. apply Nat.mod_upper_bound. lia. Qed.

Lemma right_of_neq k : (k < 5)%nat -> right_of k <> k.
Proof.
  intros H. destruct k as [|[|[|[|[|k]]]]]; try lia; vm_compute; discriminate.
Qed.

Lemma oriented_pair k t a b :
  oriented k t a b -> (a = k /\ b = right_of k) \/ (a = right_of k /\ b = k).
Proof. intros [_ H]. destruct (t =? 1); tauto. Qed.

Lemma oriented_flip k t a b :
  oriented k t a b -> 0 < t -> oriented k (t - 1) b a.
Proof.
  intros [Ht H] Hpos. unfold oriented.
  assert (t = 1 \/ t = 2) as [->| ->] by lia; simpl in *; (split; [lia|tauto]).
Qed.

(** What a call of a philosopher does to [forks]. *)
Lemma respond_phil_forks k c r g ret g1 :
  respond (The_phil k) c r g = Some (ret, g1) ->
  match c with
  | Pthread_mutex_lock m =>
      forks g !! m = Some Unlocked /\ ret = 0 /\ forks g1 = <[m := Locked k]> (forks g)
  | Pthread_mutex_trylock m =>
      (forks g !! m = Some Unlocked /\ ret = 0
       /\ forks g1 = <[m := Locked k]> (forks g))
      \/ (exists o, forks g !! m = Some (Locked o) /\ ret = EBUSY /\ forks g1 = forks g)
  | Pthread_mutex_unlock m =>
      forks g !! m = Some (Locked k) /\ ret = 0 /\ forks g1 = <[m := Unlocked]> (forks g)
  | Pthread_mutex_init _ | Pthread_mutex_destroy _ => True
  | _ => forks g1 = forks g
  end.
Proof.
  unfold respond. intros H.
  destruct c; simpl in *;
    repeat match type of H with
    | context [if ?b then _ else _] => destruct b eqn:?
    | context [match ?x with _ => _ end] => destruct x eqn:?
    end; simplify_eq; simpl; auto.
  - right. eauto.
  - apply Nat.eqb_eq in Heqb. subst. auto.
Qed.

Lemma locked_insert_locked (fs : list mutex) (m0 m k : nat) :
  (m0 < length fs)%nat ->
  (<[m0 := Locked k]> fs !! m = Some (Locked k)
   <-> m = m0 \/ fs !! m = Some (Locked k)).
Proof.
  intros Hlt. destruct (Nat.eq_dec m0 m) as [->|Hne].
  - rewrite list_lookup_insert_eq by exact Hlt. tauto.
  - rewrite list_lookup_insert_ne by exact Hne. split; [tauto|].
    intros [->|H]; [congruence|exact H].
Qed.

Lemma locked_insert_unlocked (fs : list mutex) (m0 m k : nat) :
  (m0 < length fs)%nat ->
  (<[m0 := Unlocked]> fs !! m = Some (Locked k)
   <-> m <> m0 /\ fs !! m = Some (Locked k)).
Proof.
  intros Hlt. destruct (Nat.eq_dec m0 m) as [->|Hne].
  - rewrite list_lookup_insert_eq by exact Hlt. split; [discriminate|tauto].
  - rewrite list_lookup_insert_ne by exact Hne. split; [auto|tauto].
Qed.

Lemma own_step k s p ret fs fs1 s' p' :
  (k < 5)%nat ->
  Philosopher.forkLeft p = k -> Philosopher.forkRight p = right_of k ->
  thread_inv k s ->
  (forall m, fs !! m = Some (Locked k) <-> In m (held_at s)) ->
  forks_effect k (call_of s p) ret fs fs1 ->
  exec s p ret = Some (s', p') ->
  thread_inv k s' /\ (forall m, fs1 !! m = Some (Locked k) <-> In m (held_at s')).
Proof.
  intros Hk Hl Hr Hi Hown He Hx.
  pose proof (right_of_neq k Hk) as Hneq.
  unfold thread_inv, held_at, forks_effect, call_of, exec in *.
  destruct s as [pc0 f t sw fl fr ft sr]; simpl in *.
  revert Hl Hr.
  destruct pc0; simplify_option_eq; simpl in *; intros Hl Hr.
  all: repeat match goal with
       | H : int_checked _ = Some _ |- _ =>
           apply int_checked_inv in H; destruct H as [-> _]
       end.
  all: try (split; [|exact Hown]; auto; fail).
  all: try (split; [|intros m; rewrite Hown; tauto]; tauto).
  - (* line 53 *) destruct (ret =? 0); (split; [exact I|exact Hown]).
  - (* line 61 *) split; [|exact Hown]. unfold oriented; simpl. split; [lia|tauto].
  - (* line 65 *)
    destruct He as (Hu & -> & ->). split; [exact Hi|]. intros m.
    rewrite locked_insert_locked by (eapply lookup_lt_Some; eauto).
    rewrite Hown. simpl. intuition congruence.
  - (* line 67 *)
    assert (Hfr : fr <> fl)
      by (destruct (oriented_pair _ _ _ _ Hi) as [[-> ->]|[-> ->]]; congruence).
    destruct (Z.gtb_spec t 0) as [Ht|Ht].
    + destruct He as [(Hu & -> & ->)|(o & Ho & -> & ->)].
      * split; [split; [exact Hi|intros H; lia]|]. intros m. simpl.
        rewrite locked_insert_locked by (eapply lookup_lt_Some; eauto).
        rewrite Hown. simpl. intuition congruence.
      * split; [split; [exact Hi|intros _; lia]|]. intros m. simpl.
        rewrite Hown. simpl. tauto.
    + destruct He as (Hu & -> & ->).
      split; [split; [exact Hi|intros H; congruence]|]. intros m. simpl.
      rewrite locked_insert_locked by (eapply lookup_lt_Some; eauto).
      rewrite Hown. simpl. intuition congruence.
  - (* line 70 *)
    destruct Hi as (Ho & Hpos).
    destruct (Z.eqb_spec f 0) as [->|Hf]; simpl.
    + split; [exact Ho|]. intros m. rewrite Hown. simpl. tauto.
    + split; [split; [exact Ho|split; [apply Hpos; exact Hf|exact Hf]]|].
      intros m. rewrite Hown. simpl. tauto.
  - (* line 72 *)
    destruct He as (Hu & -> & ->). split; [exact Hi|]. intros m.
    rewrite locked_insert_unlocked by (eapply lookup_lt_Some; eauto).
    rewrite Hown. simpl. intuition congruence.
  - (* line 76 *)
    destruct Hi as (Ho & Hpos & Hf). split; [|exact Hown].
    split; [apply oriented_flip; assumption|exact Hf].
  - (* line 77 *)
    destruct Hi as (Ho & Hf). split; [exact Ho|]. intros m. rewrite Hown.
    destruct (Z.eqb_spec f 0); [congruence|]. tauto.
  - (* line 79 *)
    destruct (Z.eqb_spec f 0) as [->|Hf]; simpl.
    + split; [exact Hi|]. subst fs1. exact Hown.
    + subst fs1. destruct (ret =? 0); simpl.
      * split; [exact Hi|]. intros m. rewrite Hown. tauto.
      * split; [exact Hi|]. intros m. rewrite Hown.
        destruct (Z.eqb_spec f 0); [congruence|]. tauto.
  - (* line 81 *)
    destruct (Z.eqb_spec f 0) as [->|Hf]; simpl.
    + split; [exact Hi|exact Hown].
    + split; [exact I|exact Hown].
  - (* line 88 *)
    assert (Hfr : fr <> fl)
      by (destruct (oriented_pair _ _ _ _ Hi) as [[-> ->]|[-> ->]]; congruence).
    destruct He as (Hu & -> & ->). split; [exact Hi|]. intros m.
    rewrite locked_insert_unlocked by (eapply lookup_lt_Some; eauto).
    rewrite Hown. simpl. intuition congruence.
  - (* line 89 *)
    destruct He as (Hu & -> & ->). split; [exact Hi|]. intros m.
    rewrite locked_insert_unlocked by (eapply lookup_lt_Some; eauto).
    rewrite Hown. simpl. intuition congruence.
Qed.

Lemma respond_phil_effect k c r g ret g1 :
  respond (The_phil k) c r g = Some (ret, g1) ->
  forks_effect k c ret (forks g) (forks g1).
Proof. apply respond_phil_forks. Qed.

Lemma phil_call_not_init s p :
  match call_of s p with
  | Pthread_mutex_init _ | Pthread_mutex_destroy _ => False
  | _ => True
  end.
Proof.
  unfold call_of. destruct (pc s); try exact I.
  - destruct (triesLeft s >? 0); exact I.
  - destruct (failed s =? 0); exact I.
Qed.

Lemma initialised_insert (fs : list mutex) (m0 j : nat) (x : mutex) :
  x <> Uninitialized -> initialised (fs !! j) -> initialised (<[m0 := x]> fs !! j).
Proof.
  intros Hx Hj. destruct (Nat.eq_dec m0 j) as [->|Hne].
  - assert (Hlt : (j < length fs)%nat).
    { destruct Hj as [H|[o H]]; eapply lookup_lt_Some; eauto. }
    rewrite list_lookup_insert_eq by exact Hlt.
    destruct x; [congruence|left; reflexivity|right; eauto].
  - rewrite list_lookup_insert_ne by exact Hne. exact Hj.
Qed.

(** A call of a philosopher keeps the forks initialised and leaves the
    forks held by the others. *)
Lemma forks_effect_frame k c ret fs fs1 :
  match c with
  | Pthread_mutex_init _ | Pthread_mutex_destroy _ => False
  | _ => True
  end ->
  forks_effect k c ret fs fs1 ->
  length fs1 = length fs
  /\ (forall j, initialised (fs !! j) -> initialised (fs1 !! j))
  /\ (forall o m, o <> k -> (fs1 !! m = Some (Locked o) <-> fs !! m = Some (Locked o))).
Proof.
  intros Hc He. unfold forks_effect in He.
  destruct c; try contradiction; subst; try (repeat split; tauto).
  - destruct He as (Hu & _ & ->). rewrite length_insert.
    split; [reflexivity|]. split.
    + intros j. apply initialised_insert. discriminate.
    + intros o x Ho. destruct (Nat.eq_dec m x) as [->|Hne].
      * rewrite list_lookup_insert_eq by (eapply lookup_lt_Some; eauto).
        rewrite Hu. split; intros H; congruence.
      * rewrite list_lookup_insert_ne by exact Hne. reflexivity.
  - destruct He as [(Hu & _ & ->)|(o & Ho & _ & ->)]; [|repeat split; tauto].
    rewrite length_insert. split; [reflexivity|]. split.
    + intros j. apply initialised_insert. discriminate.
    + intros o x Ho. destruct (Nat.eq_dec m x) as [->|Hne].
      * rewrite list_lookup_insert_eq by (eapply lookup_lt_Some; eauto).
        rewrite Hu. split; intros H; congruence.
      * rewrite list_lookup_insert_ne by exact Hne. reflexivity.
  - destruct He as (Hu & _ & ->). rewrite length_insert.
    split; [reflexivity|]. split.
    + intros j. apply initialised_insert. discriminate.
    + intros o x Ho. destruct (Nat.eq_dec m x) as [->|Hne].
      * rewrite list_lookup_insert_eq by (eapply lookup_lt_Some; eauto).
        rewrite Hu. split; intros H; congruence.
      * rewrite list_lookup_insert_ne by exact Hne. reflexivity.
Qed.

Lemma forks_inv_ext m fs fs1 (cr cr' : nat -> Prop) :
  length fs1 = length fs ->
  (forall j, initialised (fs !! j) -> initialised (fs1 !! j)) ->
  (forall k, cr' k -> cr k) ->
  forks_inv m fs cr -> forks_inv m fs1 cr'.
Proof.
  intros Hlen Hini Hcr [Hl Hm]. unfold forks_inv. split; [congruence|].
  destruct (Main.pc m); try exact I; intuition eauto.
  destruct H as [k Hk]. eauto.
Qed.

Lemma process_inv_phil g k r g' :
  process_inv g -> step g (Step_phil k r) = Some g' -> process_inv g'.
Proof.
  intros (Hst & Hfk & Hown & Hth) Hs.
  pose proof (startup_inv_phil g k r g' Hst Hs) as Hst'.
  apply step_phil_inv in Hs
    as (s & p & ret & g1 & s' & p' & Hts & Hps & Hr & He & ->).
  pose proof (respond_phil_effect _ _ _ _ _ _ Hr) as Heff.
  apply respond_phil_frame in Hr as (E1 & E2 & E3).
  destruct (forks_effect_frame k _ ret _ _ (phil_call_not_init s p) Heff)
    as (Hlen & Hini & Hoth).
  destruct Hst as (Hlp & Hlt & Hw & _ & _).
  assert (Hk : (k < 5)%nat) by (apply lookup_lt_Some in Hts; lia).
  assert (Hwk : Philosopher.forkLeft p = k /\ Philosopher.forkRight p = right_of k).
  { specialize (Hw k (ex_intro _ s Hts)).
    unfold wired_at, wiring, wiring_of in Hw.
    change (map ?f ?l) with (f <$> l) in Hw.
    rewrite list_lookup_fmap, Hps in Hw.
    cbn [fmap option_fmap option_map] in Hw. injection Hw as H1 H2. auto. }
  destruct Hwk as (Hwl & Hwr).
  assert (Hownk : forall m, forks g !! m = Some (Locked k) <-> In m (held_at s)).
  { intros m. rewrite (Hown k m). split.
    - intros (s0 & Hs0 & Hin). congruence.
    - intros Hin. eauto. }
  destruct (own_step k s p ret (forks g) (forks g1) s' p' Hk Hwl Hwr
              (Hth k s Hts) Hownk Heff He) as (Hth' & Hown').
  split; [exact Hst'|]. split; [|split].
  - simpl. rewrite E3. eapply forks_inv_ext; [exact Hlen|exact Hini| |exact Hfk].
    intros j. unfold created; simpl. rewrite E2.
    apply (created_insert_same (threads g) k s s' j Hts).
  - intros o m. simpl. rewrite E2. destruct (Nat.eq_dec k o) as [<-|Hne].
    + rewrite list_lookup_insert_eq by (eapply lookup_lt_Some; eauto).
      rewrite Hown'. split.
      * intros Hin. eauto.
      * intros (s0 & Hs0 & Hin). congruence.
    + rewrite list_lookup_insert_ne by exact Hne.
      rewrite (Hoth o m) by congruence. apply Hown.
  - simpl. rewrite E2. intros j s2 Hj. destruct (Nat.eq_dec k j) as [<-|Hne].
    + rewrite list_lookup_insert_eq in Hj by (eapply lookup_lt_Some; eauto).
      injection Hj as <-. exact Hth'.
    + rewrite list_lookup_insert_ne in Hj by exact Hne. eapply Hth; eauto.
Qed.

Lemma respond_main_forks g r ret g1 :
  respond The_main (Main.call_of (main g) (philosophers g)) r g = Some (ret, g1) ->
  (forks g1 = forks g /\ (Main.pc (main g) = Main.M127 -> ret <> 0))
  \/ (Main.pc (main g) = Main.M127 /\ ret = 0
      /\ forks g1 = <[Z.to_nat (Main.i (main g)) := Unlocked]> (forks g)).
Proof.
  unfold Main.call_of, respond. intros H.
  destruct (Main.pc (main g)) eqn:Epc;
    repeat match type of H with
    | context [if ?b then _ else _] => destruct b eqn:?
    | context [match ?x with _ => _ end] => destruct x eqn:?
    end; simplify_eq; simpl;
    try (left; split; [reflexivity|intros; congruence]; fail);
    try (right; repeat split; reflexivity).
  all: try (left; split; [reflexivity|]; intros _; apply Z.eqb_neq; assumption).
  all: exfalso;
    repeat match goal with
    | H : match ?x with _ => _ end = _ |- _ => destruct x
    end; discriminate.
Qed.

Lemma forks_inv_main m ps ret m' ps' fs fs1 (cr cr' : nat -> Prop) w :
  Main.exec m ps ret = Some (m', ps') ->
  forks_inv m fs cr ->
  main_inv m w cr ->
  (forall k, cr' k -> cr k \/ Main.pc m = Main.M141) ->
  ((fs1 = fs /\ (Main.pc m = Main.M127 -> ret <> 0))
   \/ (Main.pc m = Main.M127 /\ ret = 0
       /\ fs1 = <[Z.to_nat (Main.i m) := Unlocked]> fs)) ->
  forks_inv m' fs1 cr'.
Proof.
  intros He [Hlen Hf] Hm Hcr Hfs. unfold forks_inv, main_inv in *.
  unfold Main.exec in He.
  destruct m as [pc0 gp ph i f]; simpl in *.
  assert (Hlen1 : length fs1 = 5%nat).
  { destruct Hfs as [[-> _]|(_ & _ & ->)]; [|rewrite length_insert]; exact Hlen. }
  split; [exact Hlen1|].
  destruct pc0; simplify_option_eq;
    repeat match goal with
    | H : Main.store _ _ _ = Some _ |- _ => clear H
    end; simpl;
    try (destruct Hfs as [[-> _]|(? & _)]; [|discriminate]).
  all: try exact I.
  all: try (repeat match goal with
            | |- context [if ?b then _ else _] => destruct b eqn:?
            end; simpl; intuition (try lia; eauto); fail).
  - (* line 126, condition *)
    destruct Hf as (Hi & Hb). destruct (Z.ltb_spec i 5); simpl.
    + split; [lia|exact Hb].
    + intros j Hj Hj5. apply Hb; lia.
  - (* line 127 *)
    destruct Hf as (Hi & Hb).
    destruct Hfs as [[-> Hne]|(_ & -> & ->)].
    + split; [exact Hi|]. split; [exact Hb|]. intros E. destruct (Hne eq_refl E).
    + split; [exact Hi|]. split.
      * intros j Hj Hj5. apply initialised_insert; [discriminate|]. apply Hb; lia.
      * intros _. rewrite list_lookup_insert_eq by lia. left. reflexivity.
  - (* line 128 *)
    destruct Hf as (Hi & Hb & Hini). destruct (Z.eqb_spec f 0) as [->|Hf]; simpl.
    + split; [exact Hi|]. intros j Hj Hj5.
      destruct (Z.eq_dec (Z.of_nat j) i) as [<-|Hne].
      * rewrite Nat2Z.id in Hini. apply Hini. reflexivity.
      * apply Hb; lia.
    + exact I.
  - (* line 130 *)
    intros [k Hk]. destruct (Hcr k Hk) as [Hc|Hc]; [|discriminate].
    specialize (Hm k Hc). lia.
  - (* line 135 *)
    destruct ((i <? 0) || (5 <=? i)); [discriminate|].
    injection He as <- <-. simpl. exact Hf.
Qed.

Lemma insert_unlocked_locked (fs : list mutex) (m0 m k : nat) :
  <[m0 := Unlocked]> fs !! m = Some (Locked k) -> fs !! m = Some (Locked k).
Proof.
  destruct (Nat.eq_dec m0 m) as [->|Hne].
  - destruct (Nat.lt_ge_cases m (length fs)) as [Hlt|Hge].
    + rewrite list_lookup_insert_eq by exact Hlt. discriminate.
    + rewrite list_insert_ge by exact Hge. auto.
  - rewrite list_lookup_insert_ne by exact Hne. auto.
Qed.

Lemma process_inv_main g r g' :
  process_inv g -> step g (Step_main r) = Some g' -> process_inv g'.
Proof.
  intros (Hst & Hfk & Hown & Hth) Hs.
  pose proof (startup_inv_main g r g' Hst Hs) as Hst'.
  apply step_main_inv in Hs as (ret & g1 & s' & ps' & Hr & He & ->).
  pose proof (respond_main_forks g r ret g1 Hr) as Hfs.
  apply respond_main_cases in Hr as (E1 & E2 & Eth & _).
  rewrite E1, E2 in He.
  destruct Hst as (_ & Hlt & _ & _ & Hm).
  assert (Hnew : Main.pc (main g) = Main.M141 -> ~ created g (Main.phil (main g))).
  { intros Epc Hc. unfold main_inv in Hm. rewrite Epc in Hm.
    destruct Hm as (Hi & Hph & Hb & _). specialize (Hb _ Hc). lia. }
  assert (Hnone : Main.pc (main g) = Main.M127 -> forall k, ~ created g k).
  { intros Epc k Hc. unfold main_inv in Hm. rewrite Epc in Hm.
    specialize (Hm _ Hc). lia. }
  split; [exact Hst'|]. split; [|split].
  - simpl. eapply forks_inv_main; [exact He|exact Hfk|exact Hm| |exact Hfs].
    intros k [s Hk]. simpl in Hk.
    destruct Eth as [Eth|(Epc & _ & Eth)]; rewrite Eth in Hk.
    + left. exists s. exact Hk.
    + right. exact Epc.
  - intros k m. simpl.
    destruct Hfs as [[Efs _]|(Epc & _ & Efs)]; rewrite Efs.
    + destruct Eth as [->|(Epc & _ & ->)]; [apply Hown|].
      destruct (Nat.eq_dec (Main.phil (main g)) k) as [<-|Hne].
      * split.
        -- intros Hl. apply Hown in Hl as (s & Hs & _).
           destruct (Hnew Epc (ex_intro _ s Hs)).
        -- intros (s & Hs & Hin).
           destruct (Nat.lt_ge_cases (Main.phil (main g)) (length (threads g)))
             as [Hlt'|Hge].
           ++ rewrite list_lookup_insert_eq in Hs by exact Hlt'.
              injection Hs as <-. destruct Hin.
           ++ rewrite list_insert_ge in Hs by exact Hge.
              destruct (Hnew Epc (ex_intro _ s Hs)).
      * rewrite list_lookup_insert_ne by exact Hne. apply Hown.
    + destruct Eth as [->|(Epc' & _)]; [|congruence]. split.
      * intros Hl. apply insert_unlocked_locked in Hl.
        apply Hown in Hl as (s & Hs & _). destruct (Hnone Epc k (ex_intro _ s Hs)).
      * intros (s & Hs & _). destruct (Hnone Epc k (ex_intro _ s Hs)).
  - simpl. intros k s Hk.
    destruct Eth as [Eth|(Epc & _ & Eth)]; rewrite Eth in Hk; [eapply Hth; eauto|].
    destruct (Nat.eq_dec (Main.phil (main g)) k) as [<-|Hne].
    + destruct (Nat.lt_ge_cases (Main.phil (main g)) (length (threads g)))
        as [Hlt'|Hge].
      * rewrite list_lookup_insert_eq in Hk by exact Hlt'. injection Hk as <-. exact I.
      * rewrite list_insert_ge in Hk by exact Hge. eapply Hth; eauto.
    + rewrite list_lookup_insert_ne in Hk by exact Hne. eapply Hth; eauto.
Qed.

Lemma process_inv_step g mv g' :
  process_inv g -> step g mv = Some g' -> process_inv g'.
Proof.
  destruct mv as [r|k r|].
  - apply process_inv_main.
  - apply process_inv_phil.
  - unfold step. intros Hi H.
    destruct (exit_status g); [discriminate|].
    destruct (handler_installed g); [|discriminate].
    injection H as <-. exact Hi.
Qed.

Lemma process_inv_steps mvs : forall g g',
  process_inv g -> steps g mvs = Some g' -> process_inv g'.
Proof.
  induction mvs as [|mv mvs IH]; simpl; intros g g' Hi H.
  - injection H as <-. exact Hi.
  - destruct (step g mv) as [g1|] eqn:E; simpl in H; [|discriminate].
    eapply IH; [eapply process_inv_step; eauto | exact H].
Qed.

Lemma process_inv_initial junk : process_inv (initial junk).
Proof.
  split; [apply startup_inv_initial|]. split; [|split].
  - unfold forks_inv, initial; simpl. split; [reflexivity|exact I].
  - intros k m. unfold initial; simpl. split.
    + destruct m as [|[|[|[|[|m]]]]]; discriminate.
    + intros (s & Hs & _). destruct k as [|[|[|[|[|k]]]]]; discriminate.
  - unfold initial; simpl. intros k s Hs.
    destruct k as [|[|[|[|[|k]]]]]; discriminate.
Qed.

Lemma reachable_process_inv g : reachable g -> process_inv g.
Proof.
  intros (junk & mvs & H).
  eapply process_inv_steps; [apply process_inv_initial | exact H].
Qed.

Lemma held_at_table k s :
  thread_inv k s -> at_table s = true ->
  In k (held_at s) /\ In (right_of k) (held_at s).
Proof.
  unfold thread_inv, at_table, held_at. intros Hi Ha.
  destruct (pc s); try discriminate;
    destruct (oriented_pair _ _ _ _ Hi) as [[-> ->]|[-> ->]]; simpl; tauto.
Qed.

Lemma eaters_apart g k j :
  reachable g -> eats g k = true -> eats g j = true -> k <> j ->
  j <> right_of k /\ k <> right_of j.
Proof.
  intros Hreach Hk Hj Hne.
  destruct (reachable_process_inv g Hreach) as (_ & _ & Hown & Hth).
  unfold eats in Hk, Hj.
  destruct (threads g !! k) as [[s|]|] eqn:Ek; try discriminate.
  destruct (threads g !! j) as [[s2|]|] eqn:Ej; try discriminate.
  destruct (held_at_table k s (Hth k s Ek) Hk) as (Hk1 & Hk2).
  destruct (held_at_table j s2 (Hth j s2 Ej) Hj) as (Hj1 & Hj2).
  split; intros E.
  - assert (H1 : forks g !! j = Some (Locked j)) by (apply Hown; eauto).
    assert (H2 : forks g !! j = Some (Locked k))
      by (apply Hown; exists s; split; [exact Ek|]; rewrite E; exact Hk2).
    congruence.
  - assert (H1 : forks g !! k = Some (Locked k)) by (apply Hown; eauto).
    assert (H2 : forks g !! k = Some (Locked j))
      by (apply Hown; exists s2; split; [exact Ej|]; rewrite E; exact Hj2).
    congruence.
Qed.

(** X1. In every reachable state two philosophers that eat (both between
    lines 82 and 88) are not neighbours: neither is the right neighbour of
    the other. *)
Theorem neighbours_never_eat_together (g : process) (k j : nat) :
  reachable g ->
  eats g k = true ->
  eats g j = true ->
  k <> j ->
  j <> right_of k /\ k <> right_of j.
Proof. exact (eaters_apart g k j). Qed.

(** X2. In every reachable state at most two of the five philosophers
    eat. *)
Theorem at_most_two_eat (g : process) :
  reachable g -> (length (eaters g) <= 2)%nat.
Proof.
  intros Hreach.
  assert (H : forall k j, eats g k = true -> eats g j = true -> k <> j ->
                j <> right_of k /\ k <> right_of j)
    by (intros k j; apply eaters_apart; exact Hreach).
  unfold eaters. simpl.
  pose proof (H 0%nat 1%nat) as H01. pose proof (H 1%nat 2%nat) as H12.
  pose proof (H 2%nat 3%nat) as H23. pose proof (H 3%nat 4%nat) as H34.
  pose proof (H 4%nat 0%nat) as H40.
  unfold right_of in *.
  destruct (eats g 0), (eats g 1), (eats g 2), (eats g 3), (eats g 4); simpl;
    try lia; exfalso;
    try (destruct H01 as [X _]; [reflexivity|reflexivity|lia|apply X; reflexivity]);
    try (destruct H12 as [X _]; [reflexivity|reflexivity|lia|apply X; reflexivity]);
    try (destruct H23 as [X _]; [reflexivity|reflexivity|lia|apply X; reflexivity]);
    try (destruct H34 as [X _]; [reflexivity|reflexivity|lia|apply X; reflexivity]);
    try (destruct H40 as [X _]; [reflexivity|reflexivity|lia|apply X; reflexivity]).
Qed.

Lemma forks_ready g k j :
  reachable g -> created g k -> (j < 5)%nat -> initialised (forks g !! j).
Proof.
  intros Hreach Hc Hj.
  destruct (reachable_process_inv g Hreach) as ((_ & _ & _ & _ & Hm) & (_ & Hf) & _ & _).
  unfold main_inv in Hm.
  destruct (Main.pc (main g));
    try (specialize (Hm k Hc); lia);
    try (apply Hf; [lia|exact Hj]).
  apply Hf; [exists k; exact Hc|lia|exact Hj].
Qed.

Lemma thread_index g k s :
  reachable g -> threads g !! k = Some (Some s) -> (k < 5)%nat.
Proof.
  intros Hreach Hs.
  destruct (reachable_process_inv g Hreach) as ((_ & Hl & _) & _).
  rewrite <- Hl. eapply lookup_lt_Some; exact Hs.
Qed.

(** X3. Once the threads of the five philosophers have returned, every
    fork is initialised and free. *)
Theorem forks_free_when_all_returned (g : process) :
  reachable g ->
  (forall k, (k < 5)%nat -> returned g k) ->
  forks g = replicate 5 Unlocked.
Proof.
  intros Hreach Hret.
  destruct (reachable_process_inv g Hreach) as (_ & (Hlen & _) & Hown & _).
  assert (Hfree : forall j, (j < 5)%nat -> forks g !! j = Some Unlocked).
  { intros j Hj.
    destruct (Hret 0%nat ltac:(lia)) as (s0 & Hs0 & _).
    destruct (forks_ready g 0%nat j Hreach (ex_intro _ s0 Hs0) Hj) as [E|[o E]];
      [exact E|].
    exfalso. destruct (proj1 (Hown o j) E) as (s & Hs & Hin).
    destruct (Hret o (thread_index g o s Hreach Hs)) as (s' & Hs' & Hpc).
    rewrite Hs in Hs'. inversion Hs'; subst s'.
    unfold held_at in Hin. rewrite Hpc in Hin. exact Hin. }
  apply list_eq. intros j.
  destruct (Nat.lt_ge_cases j 5) as [Hj|Hj].
  - rewrite (Hfree j Hj). symmetry. apply lookup_replicate_2. exact Hj.
  - rewrite (lookup_ge_None_2 (forks g) j) by lia.
    symmetry. apply lookup_ge_None_2. rewrite length_replicate. exact Hj.
Qed.

(** Where the thread of philosopher [k] calls a mutex function, what the
    mutex is. *)
Lemma mutex_at_call g k s :
  reachable g -> threads g !! k = Some (Some s) ->
  match pc s with
  | L65 => initialised (forks g !! forkLeft s)
           /\ forks g !! forkLeft s <> Some (Locked k)
  | L67 => initialised (forks g !! forkRight s)
           /\ forks g !! forkRight s <> Some (Locked k)
           /\ 0 <= triesLeft s <= 2
  | L72 | L89 => forks g !! forkLeft s = Some (Locked k)
  | L88 => forks g !! forkRight s = Some (Locked k)
  | L76 => 0 < triesLeft s <= 2
  | _ => True
  end.
Proof.
  intros Hreach Hs.
  pose proof (thread_index g k s Hreach Hs) as Hk.
  pose proof (right_of_lt k) as Hrk.
  pose proof (right_of_neq k Hk) as Hne.
  destruct (reachable_process_inv g Hreach) as (_ & _ & Hown & Hth).
  specialize (Hth k s Hs). unfold thread_inv in Hth.
  assert (Hheld : forall m, forks g !! m = Some (Locked k) <-> In m (held_at s)).
  { intros m. rewrite (Hown k m). split.
    - intros (s' & Hs' & Hin). rewrite Hs in Hs'. inversion Hs'; subst s'. exact Hin.
    - intros Hin. exists s. split; [exact Hs|exact Hin]. }
  assert (Hready : forall j, (j < 5)%nat -> initialised (forks g !! j))
    by (intros j; apply (forks_ready g k j Hreach); exists s; exact Hs).
  unfold held_at in Hheld.
  destruct (pc s) eqn:Epc; try exact I.
  - destruct (oriented_pair _ _ _ _ Hth) as [[El Er]|[El Er]];
      (split; [apply Hready; lia|]); rewrite Hheld; simpl; tauto.
  - destruct (oriented_pair _ _ _ _ Hth) as [[El Er]|[El Er]];
      (split; [apply Hready; lia|]); (split; [|apply Hth]);
      rewrite Hheld; simpl; intros [E|[]]; lia.
  - apply Hheld. simpl. tauto.
  - destruct Hth as ((Ht & _) & Hpos & _). lia.
  - apply Hheld. simpl. tauto.
  - apply Hheld. simpl. tauto.
Qed.

(** X4. In every reachable state the next mutex call of a philosopher
    respects the locking rules: it locks or probes only an initialised
    mutex that it does not hold, and it unlocks only a mutex that it
    holds. *)
Theorem lock_discipline (g : process) (k : nat) (s : PhilPhunction.locals)
  (p : Philosopher.t) (m : nat) :
  reachable g ->
  threads g !! k = Some (Some s) ->
  ((call_of s p = Pthread_mutex_lock m \/ call_of s p = Pthread_mutex_trylock m) ->
   initialised (forks g !! m) /\ forks g !! m <> Some (Locked k))
  /\ (call_of s p = Pthread_mutex_unlock m -> forks g !! m = Some (Locked k)).
Proof.
  intros Hreach Hs.
  pose proof (mutex_at_call g k s Hreach Hs) as H.
  unfold call_of.
  destruct (pc s); (split; [intros [E|E]|intros E]); try discriminate E;
    try (destruct (triesLeft s >? 0); discriminate E);
    try (destruct (failed s =? 0); discriminate E).
  - inversion E; subst m. exact H.
  - destruct (triesLeft s >? 0); inversion E; subst m. tauto.
  - destruct (triesLeft s >? 0); inversion E; subst m. tauto.
  - inversion E; subst m. exact H.
  - inversion E; subst m. exact H.
  - inversion E; subst m. exact H.
Qed.

(** A philosopher that is not blocked executes its next statement. *)
Lemma phil_step_enabled g k r :
  reachable g -> exit_status g = None -> runs g k ->
  blocked g k \/ exists g', step g (Step_phil k r) = Some g'.
Proof.
  intros Hreach Hex (s & p & Hs & Hp & Hpc & Hplates).
  pose proof (mutex_at_call g k s Hreach Hs) as H.
  unfold step. rewrite Hex, Hs, Hp. simpl.
  unfold call_of, exec, blocked.
  destruct (pc s) eqn:Epc; try congruence; simpl;
    try (right; eexists; reflexivity).
  - destruct H as ([E|[o E]] & _).
    + right. rewrite E. simpl. eexists; reflexivity.
    + left. exists s, o. split; [exact Hs|]. left. split; [exact Epc|exact E].
  - destruct H as ([E|[o E]] & _ & Ht).
    + right. destruct (triesLeft s >? 0); simpl; rewrite E; simpl; eexists; reflexivity.
    + destruct (Z.gtb_spec (triesLeft s) 0) as [Hpos|Hnp]; simpl; rewrite E; simpl.
      * right. eexists; reflexivity.
      * left. exists s, o. split; [exact Hs|]. right. tauto.
  - right. rewrite H. rewrite Nat.eqb_refl. simpl. eexists; reflexivity.
  - right. assert (E : int_checked (triesLeft s - 1) = Some (triesLeft s - 1))
      by (apply int_checked_Some; unfold INT_MIN, INT_MAX; lia).
    rewrite E. simpl. eexists; reflexivity.
  - right. destruct (failed s =? 0); simpl; eexists; reflexivity.
  - right. assert (E : int_checked (Philosopher.platesCounter p + 1)
                       = Some (Philosopher.platesCounter p + 1)).
    { apply int_checked_Some. specialize (Hplates eq_refl).
      unfold INT_MIN, INT_MAX in *. lia. }
    rewrite E. simpl. eexists; reflexivity.
  - right. rewrite H. rewrite Nat.eqb_refl. simpl. eexists; reflexivity.
  - right. rewrite H. rewrite Nat.eqb_refl. simpl. eexists; reflexivity.
Qed.

(** X5. A philosopher whose thread runs and is not in a blocking lock of
    a taken mutex can execute its next statement: no unlock, probe or
    other call of the thread waits or is undefined. *)
Theorem philosopher_moves_unless_blocked (g : process) (k : nat) (r : Z) :
  reachable g ->
  exit_status g = None ->
  runs g k ->
  ~ blocked g k ->
  exists g', step g (Step_phil k r) = Some g'.
Proof.
  intros Hreach Hex Hruns Hnb.
  destruct (phil_step_enabled g k r Hreach Hex Hruns) as [Hb|H];
    [contradiction|exact H].
Qed.

(** When every philosopher is blocked, who holds a locked fork. *)
Lemma blocked_owner g m o :
  reachable g -> (forall k, (k < 5)%nat -> blocked g k) ->
  forks g !! m = Some (Locked o) -> waits_for_right g o /\ m = o.
Proof.
  intros Hreach Hall Hm.
  destruct (reachable_process_inv g Hreach) as (_ & _ & Hown & Hth).
  destruct (proj1 (Hown o m) Hm) as (s & Hs & Hin).
  destruct (Hall o (thread_index g o s Hreach Hs)) as (s' & o' & Hs' & Hb).
  rewrite Hs in Hs'. inversion Hs'; subst s'. clear Hs'.
  specialize (Hth o s Hs). unfold thread_inv in Hth. unfold held_at in Hin.
  destruct Hb as [(Hpc & _)|(Hpc & Ht & _)]; rewrite Hpc in Hin, Hth.
  - destruct Hin.
  - destruct Hin as [E|[]]. destruct Hth as (Hr & Ho).
    assert (E0 : triesLeft s = 0) by lia. rewrite E0 in Ho. simpl in Ho.
    destruct Ho as (El & Er).
    assert (Em : m = o) by congruence. rewrite Em in Hm.
    split; [|exact Em]. split; [exact Hm|].
    exists s. auto.
Qed.

Lemma blocked_next g j :
  reachable g -> (forall k, (k < 5)%nat -> blocked g k) ->
  waits_for_right g j -> waits_for_right g (right_of j).
Proof.
  intros Hreach Hall (_ & s & Hs & Hpc & Ht & El & Er).
  destruct (Hall j (thread_index g j s Hreach Hs)) as (s' & o & Hs' & Hb).
  rewrite Hs in Hs'. inversion Hs'; subst s'. clear Hs'.
  destruct Hb as [(Hpc' & _)|(_ & _ & Hf)]; [congruence|].
  rewrite Er in Hf.
  destruct (blocked_owner g _ o Hreach Hall Hf) as (Hw & E).
  rewrite E. exact Hw.
Qed.

Lemma blocked_ring g :
  reachable g -> (forall k, (k < 5)%nat -> blocked g k) ->
  forall k, (k < 5)%nat -> waits_for_right g k.
Proof.
  intros Hreach Hall.
  assert (H0 : exists o, (o < 5)%nat /\ waits_for_right g o).
  { destruct (Hall 0%nat ltac:(lia)) as (s & o & Hs & Hb).
    exists o.
    assert (Hw : waits_for_right g o)
      by (destruct Hb as [(_ & Hf)|(_ & _ & Hf)];
          apply (blocked_owner g _ o Hreach Hall Hf)).
    split; [|exact Hw].
    destruct Hw as (_ & s' & Hs' & _). exact (thread_index g o s' Hreach Hs'). }
  destruct H0 as (o & Ho & Hw).
  assert (Hiter : forall n, waits_for_right g (Nat.iter n right_of o)).
  { induction n as [|n IH]; [exact Hw|].
    simpl. apply blocked_next; assumption. }
  intros k Hk.
  destruct o as [|[|[|[|[|o]]]]]; try lia;
    destruct k as [|[|[|[|[|k]]]]]; try lia;
    first [ exact (Hiter 0%nat) | exact (Hiter 1%nat) | exact (Hiter 2%nat)
          | exact (Hiter 3%nat) | exact (Hiter 4%nat) ].
Qed.

(** X6. The only way the five philosophers get stuck is the circular
    wait: if the five threads run and none of them can execute its next
    statement, then every philosopher has locked its left fork and waits
    at line 67, out of probes, in the blocking lock of its right fork. *)
Theorem stuck_is_circular_wait (g : process) :
  reachable g ->
  exit_status g = None ->
  (forall k, (k < 5)%nat -> runs g k) ->
  (forall k, (k < 5)%nat -> step g (Step_phil k 0) = None) ->
  forall k, (k < 5)%nat -> waits_for_right g k.
Proof.
  intros Hreach Hex Hruns Hstuck.
  apply blocked_ring; [exact Hreach|].
  intros k Hk.
  destruct (phil_step_enabled g k 0 Hreach Hex (Hruns k Hk)) as [Hb|(g' & Hg')];
    [exact Hb|].
  rewrite (Hstuck k Hk) in Hg'. discriminate.
Qed.

(** ** The end of a meal *)

Lemma phil_step_exit g k r g' :
  step g (Step_phil k r) = Some g' -> exit_status g' = exit_status g.
Proof.
  intros Hs. apply step_phil_inv in Hs
    as (s0 & p0 & ret & g1 & s' & p1 & Hts & Hps & Hr & He & ->).
  simpl. unfold PhilPhunction.call_of, respond in Hr.
  destruct (PhilPhunction.pc s0);
    repeat match type of Hr with
    | context [if ?b then _ else _] => destruct b eqn:?
    | context [match ?x with _ => _ end] => destruct x eqn:?
    end; simplify_eq; simpl; congruence.
Qed.

Lemma exec_meal s p r s' p' n :
  exec s p r = Some (s', p') ->
  meal_left (pc s) = S n ->
  meal_left (pc s') = n
  /\ (n = 0%nat -> pc s' = L53)
  /\ ((9 <= n)%nat -> Philosopher.platesCounter p' = Philosopher.platesCounter p).
Proof.
  unfold exec. intros H Hn.
  destruct s as [l f t sw fl fr ft sr]; simpl in *.
  destruct l; try discriminate Hn; simplify_option_eq; simpl;
    (split; [lia|]); (split; intros; first [reflexivity | lia]).
Qed.

Lemma meal_ends n : forall g k s p,
  reachable g -> exit_status g = None ->
  threads g !! k = Some (Some s) -> philosophers g !! k = Some p ->
  meal_left (pc s) = n -> (n = 0%nat -> pc s = L53) ->
  ((9 <= n)%nat -> INT_MIN <= Philosopher.platesCounter p < INT_MAX) ->
  exists g' s',
    steps g (alone k n) = Some g' /\ reachable g'
    /\ threads g' !! k = Some (Some s') /\ pc s' = L53.
Proof.
  induction n as [|n IH]; intros g k s p Hreach Hex Hs Hp Hn H0 Hb.
  - exists g, s. simpl. auto.
  - assert (Hruns : runs g k).
    { exists s, p. split; [exact Hs|]. split; [exact Hp|].
      split; [intros E; rewrite E in Hn; discriminate Hn|].
      intros E. apply Hb. rewrite E in Hn. simpl in Hn. lia. }
    destruct (phil_step_enabled g k 0 Hreach Hex Hruns) as [Hbl|(g1 & Hstep)].
    + exfalso. destruct Hbl as (s0 & o & Hs0 & Hcase).
      rewrite Hs in Hs0. inversion Hs0; subst s0.
      destruct Hcase as [(E & _)|(E & _)]; rewrite E in Hn; discriminate Hn.
    + pose proof (phil_step_exit g k 0 g1 Hstep) as Hex1. rewrite Hex in Hex1.
      assert (Hreach1 : reachable g1)
        by (apply (reachable_steps g [Step_phil k 0] g1 Hreach); simpl;
            rewrite Hstep; reflexivity).
      pose proof Hstep as Hinv. apply step_phil_inv in Hinv
        as (s0 & p0 & ret & g0 & s1 & p1 & Hts & Hps & Hr & He & Hg1).
      rewrite Hs in Hts. inversion Hts; subst s0.
      rewrite Hp in Hps. inversion Hps; subst p0.
      apply respond_phil_frame in Hr as (E1 & E2 & _).
      assert (Hs1 : threads g1 !! k = Some (Some s1)).
      { rewrite Hg1. simpl. rewrite E2.
        apply list_lookup_insert_eq. eapply lookup_lt_Some; exact Hs. }
      assert (Hp1 : philosophers g1 !! k = Some p1).
      { rewrite Hg1. simpl. rewrite E1.
        apply list_lookup_insert_eq. eapply lookup_lt_Some; exact Hp. }
      destruct (exec_meal s p ret s1 p1 n He Hn) as (Hn1 & H01 & Hsame).
      assert (Hb1 : (9 <= n)%nat -> INT_MIN <= Philosopher.platesCounter p1 < INT_MAX)
        by (intros E; rewrite (Hsame E); apply Hb; lia).
      destruct (IH g1 k s1 p1 Hreach1 Hex1 Hs1 Hp1 Hn1 H01 Hb1)
        as (g' & s' & Hsteps & Hr' & Hs' & Hpc').
      exists g', s'. split; [|auto].
      simpl. rewrite Hstep. exact Hsteps.
Qed.

(** X15. A meal always ends: a philosopher that is between line 82 and
    line 91 is not made to wait by anyone.  Its thread alone executes the
    statements that are left of the meal and is back at line 53, and it
    then holds no fork. *)
Theorem meal_always_ends (g : process) (k : nat) (s : PhilPhunction.locals)
  (p : Philosopher.t) :
  reachable g ->
  exit_status g = None ->
  threads g !! k = Some (Some s) ->
  philosophers g !! k = Some p ->
  (0 < meal_left (pc s))%nat ->
  INT_MIN <= Philosopher.platesCounter p < INT_MAX ->
  exists g',
    steps g (alone k (meal_left (pc s))) = Some g'
    /\ (exists s', threads g' !! k = Some (Some s') /\ pc s' = L53)
    /\ forall m, forks g' !! m <> Some (Locked k).
Proof.
  intros Hreach Hex Hs Hp Hpos Hb.
  destruct (meal_ends (meal_left (pc s)) g k s p Hreach Hex Hs Hp eq_refl
              ltac:(lia) ltac:(intros _; exact Hb))
    as (g' & s' & Hsteps & Hreach' & Hs' & Hpc').
  exists g'. split; [exact Hsteps|]. split; [exists s'; auto|].
  intros m Hm.
  destruct (reachable_process_inv g' Hreach') as (_ & _ & Hown & _).
  destruct (proj1 (Hown k m) Hm) as (s2 & Hs2 & Hin).
  rewrite Hs' in Hs2. inversion Hs2; subst s2.
  unfold held_at in Hin. rewrite Hpc' in Hin. exact Hin.
Qed.

(** ** What the monitor reads *)

Lemma exec_isEating s p r s' p' :
  exec s p r = Some (s', p') ->
  Philosopher.isEating p = (if dining s then 1 else 0) ->
  Philosopher.isEating p' = (if dining s' then 1 else 0).
Proof.
  unfold exec, dining. intros H Hi.
  destruct s as [l f t sw fl fr ft sr]; simpl in *.
  destruct (r =? 0), (f =? 0);
    destruct l; simpl in Hi; simplify_option_eq; simpl;
    first [reflexivity | assumption | congruence].
Qed.

Lemma main_exec_isEating m ps ret m' ps' :
  Main.exec m ps ret = Some (m', ps') ->
  (ps' = ps /\ Main.pc m' <> Main.M141 /\ precreate (Main.pc m) = false)
  \/ exists x x',
       ps !! Main.phil m = Some x
       /\ ps' = <[Main.phil m := x']> ps
       /\ Main.phil m' = Main.phil m
       /\ (Main.pc m = Main.M142 \/ precreate (Main.pc m) = true)
       /\ (Philosopher.isEating x' = Philosopher.isEating x \/ Main.pc m = Main.M140)
       /\ (Main.pc m' = Main.M141 -> Philosopher.isEating x' = 0).
Proof.
  unfold Main.exec. intros H.
  destruct m as [pc0 gp ph i f]; simpl in *.
  destruct pc0; simplify_option_eq;
    repeat match goal with
    | H : Main.store _ _ _ = Some _ |- _ =>
        let x := fresh "x" in let Hx := fresh "Hx" in
        apply store_inv in H; destruct H as (x & Hx & ->)
    | H : context [if ?b then _ else _] |- _ => destruct b; simplify_eq
    end;
    try (left; split; [reflexivity|]; simpl; split; [|reflexivity];
         repeat match goal with
         | |- context [if ?b then _ else _] => destruct b
         end; discriminate);
    right; eexists; eexists; (split; [eassumption|]); (split; [reflexivity|]);
    (split; [reflexivity|]); simpl;
    (split; [first [left; reflexivity | right; reflexivity]|]);
    (split; [first [right; reflexivity | left; try destruct (ret =? 0); reflexivity]|]);
    first [discriminate | intros _; reflexivity].
Qed.

Lemma precreate_not_created m w (cr : nat -> Prop) :
  main_inv m w cr -> precreate (Main.pc m) = true -> cr (Main.phil m) -> False.
Proof.
  unfold main_inv, precreate. intros Hm Hp Hc.
  destruct (Main.pc m); try discriminate Hp;
    destruct Hm as (Hi & Hph & Hb & _) || destruct Hm as (Hi & Hph & Hb);
    specialize (Hb _ Hc); lia.
Qed.

Lemma fields_inv_phil g k r g' :
  startup_inv g -> fields_inv g -> step g (Step_phil k r) = Some g' -> fields_inv g'.
Proof.
  intros (_ & _ & _ & _ & Hm) (Hth & Hmain) Hs.
  apply step_phil_inv in Hs
    as (s0 & p0 & ret & g1 & s' & p1 & Hts & Hps & Hr & He & ->).
  apply respond_phil_frame in Hr as (E1 & E2 & E3).
  split; simpl; rewrite ?E1, ?E2, ?E3.
  - intros j s p Hs Hp.
    destruct (Nat.eq_dec k j) as [->|Hne].
    + rewrite list_lookup_insert_eq in Hs by (eapply lookup_lt_Some; eauto).
      rewrite list_lookup_insert_eq in Hp by (eapply lookup_lt_Some; eauto).
      inversion Hs; inversion Hp; subst.
      eapply exec_isEating; [exact He|]. apply (Hth j s0 p0 Hts Hps).
    + rewrite list_lookup_insert_ne in Hs by exact Hne.
      rewrite list_lookup_insert_ne in Hp by exact Hne.
      apply (Hth j s p Hs Hp).
  - intros Hpc p Hp.
    destruct (Nat.eq_dec k (Main.phil (main g))) as [->|Hne].
    + exfalso. apply (precreate_not_created _ _ _ Hm); [rewrite Hpc; reflexivity|].
      exists s0. exact Hts.
    + rewrite list_lookup_insert_ne in Hp by exact Hne.
      apply (Hmain Hpc p Hp).
Qed.

Lemma fields_inv_main g r g' :
  startup_inv g -> fields_inv g -> step g (Step_main r) = Some g' -> fields_inv g'.
Proof.
  intros (_ & _ & _ & _ & Hm) (Hth & Hmain) Hs.
  apply step_main_inv in Hs as (ret & g1 & s' & ps' & Hr & He & ->).
  apply respond_main_cases in Hr as (E1 & E2 & Hthr & _). rewrite E1, E2 in He.
  destruct (main_exec_isEating _ _ _ _ _ He)
    as [(-> & Hn141 & Hnpre)|(x & x' & Hx & -> & Hph & Hwhere & Hkeep & Hzero)].
  - split; simpl; [|intros Hpc; contradiction].
    intros k s p Hs Hp.
    destruct Hthr as [Et|(Hpc & _ & Et)].
    + rewrite Et in Hs. apply (Hth k s p Hs Hp).
    + rewrite Hpc in Hnpre. discriminate Hnpre.
  - split; simpl.
    + intros k s p Hs Hp.
      destruct (Nat.eq_dec (Main.phil (main g)) k) as [Hk|Hne].
      * rewrite <- Hk in *.
        rewrite list_lookup_insert_eq in Hp by (eapply lookup_lt_Some; eauto).
        inversion Hp; subst p. clear Hp.
        destruct Hthr as [Et|(Hpc & _ & Et)].
        -- rewrite Et in Hs.
           destruct Hwhere as [H142|Hpre].
           ++ destruct Hkeep as [->|H140]; [|congruence].
              apply (Hth _ s x Hs Hx).
           ++ exfalso. apply (precreate_not_created _ _ _ Hm Hpre).
              exists s. exact Hs.
        -- rewrite Et in Hs.
           destruct (threads g !! Main.phil (main g)) as [o|] eqn:Eo.
           ++ rewrite list_lookup_insert_eq in Hs by (eapply lookup_lt_Some; eauto).
              inversion Hs; subst s.
              destruct Hkeep as [->|H140]; [|congruence].
              apply (Hmain Hpc x Hx).
           ++ rewrite list_insert_ge in Hs
                by (apply lookup_ge_None; exact Eo).
              rewrite Eo in Hs. discriminate.
      * rewrite list_lookup_insert_ne in Hp by exact Hne.
        destruct Hthr as [Et|(Hpc & _ & Et)].
        -- rewrite Et in Hs. apply (Hth k s p Hs Hp).
        -- rewrite Et in Hs. rewrite list_lookup_insert_ne in Hs by exact Hne.
           apply (Hth k s p Hs Hp).
    + intros Hpc p Hp. rewrite Hph in Hp.
      rewrite list_lookup_insert_eq in Hp by (eapply lookup_lt_Some; eauto).
      inversion Hp; subst p. apply Hzero. exact Hpc.
Qed.

Lemma fields_inv_step g mv g' :
  startup_inv g -> fields_inv g -> step g mv = Some g' -> fields_inv g'.
Proof.
  intros Hst Hinv Hs. destruct mv as [r|k r|].
  - exact (fields_inv_main g r g' Hst Hinv Hs).
  - exact (fields_inv_phil g k r g' Hst Hinv Hs).
  - unfold step in Hs. destruct (exit_status g); [discriminate|].
    destruct (handler_installed g); [|discriminate].
    inversion Hs; subst. exact Hinv.
Qed.

Lemma fields_inv_steps mvs : forall g g',
  startup_inv g -> fields_inv g -> steps g mvs = Some g' -> fields_inv g'.
Proof.
  induction mvs as [|mv mvs IH]; intros g g' Hst Hinv H; simpl in H.
  - inversion H; subst; exact Hinv.
  - destruct (step g mv) as [g1|] eqn:E; simpl in H; [|discriminate].
    apply (IH g1 g'); [|exact (fields_inv_step g mv g1 Hst Hinv E)|exact H].
    exact (startup_inv_step g mv g1 Hst E).
Qed.

(** X14. The field [isEating] that the main loop prints tells where the
    thread is: in every reachable state it is 1 when the thread of the
    philosopher is between line 83 and line 90 and 0 everywhere else. *)
Theorem isEating_tells_where_thread_is (g : process) (k : nat)
  (s : PhilPhunction.locals) (p : Philosopher.t) :
  reachable g ->
  threads g !! k = Some (Some s) ->
  philosophers g !! k = Some p ->
  Philosopher.isEating p = if dining s then 1 else 0.
Proof.
  intros (junk & mvs & H) Hs Hp.
  assert (H0 : fields_inv (initial junk)).
  { split; [|discriminate].
    intros j s0 p0 Hs0 _. unfold initial in Hs0. simpl in Hs0.
    destruct j as [|[|[|[|[|j]]]]]; discriminate. }
  destruct (fields_inv_steps mvs _ g (startup_inv_initial junk) H0 H) as (Hth & _).
  exact (Hth k s p Hs Hp).
Qed.

(** * Further properties of main and the signal *)

(** ** The flag *)

Lemma phil_step_flag g k r g' :
  step g (Step_phil k r) = Some g' -> terminationRequired g' = terminationRequired g.
Proof.
  intros Hs. apply step_phil_inv in Hs
    as (s0 & p0 & ret & g1 & s' & p1 & Hts & Hps & Hr & He & ->).
  simpl. unfold PhilPhunction.call_of, respond in Hr.
  destruct (PhilPhunction.pc s0);
    repeat match type of Hr with
    | context [if ?b then _ else _] => destruct b eqn:?
    | context [match ?x with _ => _ end] => destruct x eqn:?
    end; simplify_eq; simpl; congruence.
Qed.

Lemma step_flag g mv g' :
  step g mv = Some g' ->
  terminationRequired g' = terminationRequired g || is_signal mv.
Proof.
  intros H. destruct mv as [r|k r|]; simpl.
  - rewrite orb_false_r. exact (main_step_flag g r g' H).
  - rewrite orb_false_r. exact (phil_step_flag g k r g' H).
  - rewrite orb_true_r. unfold step in H.
    destruct (exit_status g); [discriminate|].
    destruct (handler_installed g); [|discriminate].
    inversion H; subst. reflexivity.
Qed.

Lemma steps_flag (g g' : process) (mvs : list move) :
  steps g mvs = Some g' ->
  terminationRequired g' = terminationRequired g || existsb is_signal mvs.
Proof.
  revert g. induction mvs as [|mv mvs IH]; intros g H; simpl in H.
  - inversion H; subst. simpl. rewrite orb_false_r. reflexivity.
  - destruct (step g mv) as [g1|] eqn:E; simpl in H; [|discriminate].
    rewrite (IH g1 H), (step_flag g mv g1 E). simpl. rewrite orb_assoc. reflexivity.
Qed.

(** ** After SIGTERM *)

(** A statement that reads the flag as set, or does not read it, brings
    the thread nearer to its return. *)
Lemma exec_rank s p ret s' p' :
  exec s p ret = Some (s', p') ->
  (call_of s p = Read_terminationRequired -> ret <> 0) ->
  (rank (pc s') < rank (pc s))%nat.
Proof.
  unfold exec, call_of. intros H Hflag.
  destruct s as [l f t sw fl fr ft sr]; simpl in *.
  destruct (Z.eqb_spec ret 0) as [E|E]; destruct (f =? 0) eqn:Ef;
    destruct l; simplify_option_eq; simpl; try lia;
    exfalso; apply Hflag; reflexivity.
Qed.

Lemma respond_phil_read k r g ret g1 :
  respond (The_phil k) Read_terminationRequired r g = Some (ret, g1) ->
  ret = if terminationRequired g then 1 else 0.
Proof. unfold respond. intros H. inversion H. reflexivity. Qed.

Lemma flagged_process_step g mv g1 k s :
  reachable g -> terminationRequired g = true ->
  threads g !! k = Some (Some s) ->
  step g mv = Some g1 ->
  exists s1,
    threads g1 !! k = Some (Some s1)
    /\ (rank (pc s1) + (if is_move_of k mv then 1 else 0) <= rank (pc s))%nat.
Proof.
  intros Hreach Hflag Hs Hstep.
  destruct mv as [r|j r|]; simpl.
  - apply step_main_inv in Hstep as (ret & g0 & s' & ps' & Hr & He & ->).
    apply respond_main_cases in Hr as (_ & _ & Hthr & _). simpl.
    exists s. split; [|lia].
    destruct Hthr as [->|(Hpc & _ & ->)]; [exact Hs|].
    destruct (Nat.eq_dec (Main.phil (main g)) k) as [Hk|Hne].
    + exfalso.
      destruct (reachable_startup_inv g Hreach) as (_ & _ & _ & _ & Hm).
      apply (precreate_not_created _ _ _ Hm); [rewrite Hpc; reflexivity|].
      rewrite Hk. exists s. exact Hs.
    + rewrite list_lookup_insert_ne by exact Hne. exact Hs.
  - pose proof Hstep as Hinv. apply step_phil_inv in Hinv
      as (s0 & p0 & ret & g0 & s' & p' & Hts & Hps & Hr & He & ->).
    pose proof Hr as Hframe. apply respond_phil_frame in Hframe as (_ & E2 & _).
    simpl. rewrite E2.
    destruct (Nat.eqb_spec j k) as [->|Hne].
    + rewrite Hs in Hts. inversion Hts; subst s0.
      exists s'. split; [apply list_lookup_insert_eq; eapply lookup_lt_Some; exact Hs|].
      assert (rank (pc s') < rank (pc s))%nat; [|lia].
      apply (exec_rank s p0 ret s' p' He).
      intros Hc. rewrite Hc in Hr. apply respond_phil_read in Hr.
      rewrite Hflag in Hr. lia.
    + exists s. split; [|lia]. rewrite list_lookup_insert_ne by exact Hne. exact Hs.
  - unfold step in Hstep. destruct (exit_status g); [discriminate|].
    destruct (handler_installed g); [|discriminate].
    inversion Hstep; subst. simpl. exists s. split; [exact Hs|lia].
Qed.

Lemma flagged_process_steps mvs : forall g g' k s,
  reachable g -> terminationRequired g = true ->
  threads g !! k = Some (Some s) ->
  steps g mvs = Some g' ->
  exists s',
    threads g' !! k = Some (Some s')
    /\ (rank (pc s') + count_phil k mvs <= rank (pc s))%nat.
Proof.
  induction mvs as [|mv mvs IH]; intros g g' k s Hreach Hflag Hs H; simpl in H.
  - inversion H; subst. exists s. split; [exact Hs|]. unfold count_phil. simpl. lia.
  - destruct (step g mv) as [g1|] eqn:E; simpl in H; [|discriminate].
    destruct (flagged_process_step g mv g1 k s Hreach Hflag Hs E) as (s1 & Hs1 & Hle).
    assert (Hreach1 : reachable g1)
      by (apply (reachable_steps g [mv] g1 Hreach); simpl; rewrite E; reflexivity).
    assert (Hflag1 : terminationRequired g1 = true)
      by (rewrite (step_flag g mv g1 E), Hflag; reflexivity).
    destruct (IH g1 g' k s1 Hreach1 Hflag1 Hs1 H) as (s' & Hs' & Hle').
    exists s'. split; [exact Hs'|].
    unfold count_phil in *. simpl. destruct (is_move_of k mv); simpl; lia.
Qed.

(** X10. Once SIGTERM has been delivered, a philosopher executes at most
    33 further statements under any schedule: after the handler has set
    the flag, every statement of a thread brings it nearer to its return,
    so that in a schedule that begins with the signal the thread of
    philosopher [k] executes no more statements than the rank of the
    control point it was at. *)
Theorem sigterm_stops_threads (g g' : process) (mvs : list move) (k : nat)
  (s : PhilPhunction.locals) :
  reachable g ->
  threads g !! k = Some (Some s) ->
  steps g (Signal_SIGTERM :: mvs) = Some g' ->
  terminationRequired g' = true
  /\ exists s',
       threads g' !! k = Some (Some s')
       /\ (rank (pc s') + count_phil k mvs <= rank (pc s) <= 33)%nat.
Proof.
  intros Hreach Hs H. simpl in H.
  destruct (step g Signal_SIGTERM) as [g1|] eqn:E; simpl in H; [|discriminate].
  assert (Hreach1 : reachable g1)
    by (apply (reachable_steps g [Signal_SIGTERM] g1 Hreach); simpl;
        rewrite E; reflexivity).
  assert (Hflag1 : terminationRequired g1 = true)
    by (rewrite (step_flag g _ g1 E); apply orb_true_r).
  assert (Hs1 : threads g1 !! k = Some (Some s)).
  { unfold step in E. destruct (exit_status g); [discriminate|].
    destruct (handler_installed g); [|discriminate].
    inversion E; subst. exact Hs. }
  split.
  - rewrite (steps_flag g1 g' mvs H), Hflag1. reflexivity.
  - destruct (flagged_process_steps mvs g1 g' k s Hreach1 Hflag1 Hs1 H)
      as (s' & Hs' & Hle).
    exists s'. split; [exact Hs'|]. split; [exact Hle|].
    destruct (pc s); simpl; lia.
Qed.

(** ** The startup *)

(** X11. A startup in which the mutexes are initialised and the threads
    created reaches the main loop whatever the stack held and whatever
    [sigaction] and [GPIO_OpenAsOutput] returned: every field of the five
    records has been written, the forks are free, the five threads are at
    their entry, and the handler is installed when [sigaction] returned
    0. *)
Theorem startup_overwrites_junk (junk : Philosopher.t) (sig fd0 fd1 fd2 fd3 fd4 : Z) :
  option_map
    (fun g => (philosophers g, forks g, threads g, Main.pc (main g), exit_status g,
               handler_installed g, terminationRequired g))
    (steps (initial junk) (startup_with sig fd0 fd1 fd2 fd3 fd4))
  = Some ([wired 0 fd0; wired 1 fd1; wired 2 fd2; wired 3 fd3; wired 4 fd4],
          replicate 5 Unlocked, replicate 5 (Some entry), Main.M151, None,
          sig =? 0, false).
Proof.
  destruct sig; vm_compute; reflexivity.
Qed.

(** ** The main loop *)

Lemma length_39 {A} (rs : list A) :
  length rs = 39%nat ->
  exists r1 r2 r3 r4 r5 r6 r7 r8 r9 r10 r11 r12 r13 r14 r15 r16 r17 r18 r19 r20
         r21 r22 r23 r24 r25 r26 r27 r28 r29 r30 r31 r32 r33 r34 r35 r36 r37 r38 r39,
    rs = [r1; r2; r3; r4; r5; r6; r7; r8; r9; r10; r11; r12; r13; r14; r15; r16; r17;
          r18; r19; r20; r21; r22; r23; r24; r25; r26; r27; r28; r29; r30; r31; r32;
          r33; r34; r35; r36; r37; r38; r39].
Proof.
  intros H.
  do 39 (destruct rs as [|? rs]; [discriminate H|]).
  destruct rs; [|discriminate H].
  repeat eexists.
Qed.

(** X12. One turn of the main loop: when [main] is at line 151 and the
    flag is clear, its next 39 statements log the line of the monitor from
    the fields [isEating] and [platesCounter] of the five records, sleep
    one second and are back at line 151; they change neither the records
    nor the forks nor the threads nor the flag. *)
Theorem monitor_turn (g : process) (rs : list Z) :
  exit_status g = None ->
  Main.pc (main g) = Main.M151 ->
  terminationRequired g = false ->
  length (philosophers g) = 5%nat ->
  length rs = 39%nat ->
  option_map
    (fun g' => (Main.pc (main g'), latest_calls 39 g', skipn 39 (trace g'),
                philosophers g', forks g', threads g', terminationRequired g',
                exit_status g'))
    (steps g (main_moves rs))
  = Some (Main.M151, monitor_calls (philosophers g), trace g,
          philosophers g, forks g, threads g, false, None).
Proof.
  intros Hex Hpc Hflag Hlen Hrs.
  destruct g as [fl hi fs ps m ts ex tr]. destruct m as [l gp ph i f].
  simpl in *. subst ex l fl.
  destruct ps as [|p0 [|p1 [|p2 [|p3 [|p4 [|p5 ps]]]]]]; try discriminate Hlen.
  destruct (length_39 rs Hrs)
    as (r1 & r2 & r3 & r4 & r5 & r6 & r7 & r8 & r9 & r10 & r11 & r12 & r13 & r14
        & r15 & r16 & r17 & r18 & r19 & r20 & r21 & r22 & r23 & r24 & r25 & r26
        & r27 & r28 & r29 & r30 & r31 & r32 & r33 & r34 & r35 & r36 & r37 & r38
        & r39 & ->).
  vm_compute. reflexivity.
Qed.

(** ** The LED of a philosopher *)

(** X13. The descriptor of the LED is assigned (line 142) after the
    thread is created (line 141) and nothing makes the thread wait for
    it: there is a schedule in which the thread of Socrates calls
    [GPIO_SetValue] (line 84) with what the stack held, while [main] is
    still before line 142. *)
Theorem gpio_used_before_assigned (junk : Philosopher.t) :
  option_map
    (fun g => (Main.pc (main g), hd_error (trace g)))
    (steps (initial junk) gpio_race)
  = Some (Main.M142,
          Some (Occ (The_phil 0)
                  (GPIO_SetValue (Philosopher.gpio junk) GPIO_Value_Low) 0)).
Proof. vm_compute. reflexivity. Qed.

(** * Further properties of a thread *)

(** ** Cancellation *)

Lemma flagged_step c r :
  pc (c_locals c) <> Returned ->
  (call_of (c_locals c) (c_phil c) = Read_terminationRequired -> r <> 0) ->
  counters_safe c ->
  exists c',
    phil_step c r = Some c'
    /\ (rank (pc (c_locals c')) < rank (pc (c_locals c)))%nat
    /\ counters_safe c'
    /\ (pc (c_locals c) <> L83
        -> Philosopher.platesCounter (c_phil c') = Philosopher.platesCounter (c_phil c))
    /\ (pc (c_locals c) = L83
        -> Philosopher.platesCounter (c_phil c')
           = Philosopher.platesCounter (c_phil c) + 1).
Proof.
  destruct c as [s p h]. destruct s as [l f t sw fl fr ft sr].
  unfold counters_safe, phil_step, exec, call_of, INT_MIN, INT_MAX. simpl.
  intros Hpc Hflag (Ht & Hp).
  destruct l; simpl in *; try congruence;
    try (eexists; split; [reflexivity|]; simpl;
         repeat split; first [lia | congruence | intros; lia]).
  - (* line 53 *)
    destruct (Z.eqb_spec r 0) as [E|_]; [exfalso; apply (Hflag eq_refl E)|].
    eexists; split; [reflexivity|]; simpl.
    repeat split; first [lia | congruence | intros; lia].
  - (* line 70 *)
    destruct (f =? 0);
      (eexists; split; [reflexivity|]; simpl;
       repeat split; first [lia | congruence | intros; lia]).
  - (* line 76 *)
    rewrite (int_checked_Some (t - 1)) by (unfold INT_MIN, INT_MAX; lia). simpl.
    eexists; split; [reflexivity|]; simpl.
    repeat split; first [lia | congruence | intros; lia].
  - (* line 79 *)
    destruct (f =? 0).
    + eexists; split; [reflexivity|]; simpl.
      repeat split; first [lia | congruence | intros; lia].
    + destruct (Z.eqb_spec r 0) as [E|_]; [exfalso; apply (Hflag eq_refl E)|].
      eexists; split; [reflexivity|]; simpl.
      repeat split; first [lia | congruence | intros; lia].
  - (* line 81 *)
    destruct (f =? 0);
      (eexists; split; [reflexivity|]; simpl;
       repeat split; first [lia | congruence | intros; lia]).
  - (* line 83 *)
    rewrite (int_checked_Some (Philosopher.platesCounter p + 1)) by (unfold INT_MIN, INT_MAX; lia). simpl.
    eexists; split; [reflexivity|]; simpl.
    repeat split; first [lia | congruence | intros; lia].
Qed.

Lemma rank_0 l : rank l = 0%nat -> l = Returned.
Proof. destruct l; simpl; intros H; try discriminate H; reflexivity. Qed.

Lemma rank_L83 l : (rank l < 11)%nat -> l <> L83.
Proof. intros H ->. simpl in H. lia. Qed.

Lemma flagged_run rs : forall c,
  (rank (pc (c_locals c)) <= length rs)%nat ->
  flag_read_set c rs ->
  counters_safe c ->
  exists n c',
    (n <= rank (pc (c_locals c)))%nat
    /\ phil_run c (firstn n rs) = Some c'
    /\ pc (c_locals c') = Returned
    /\ Philosopher.platesCounter (c_phil c') <= Philosopher.platesCounter (c_phil c) + 1
    /\ ((rank (pc (c_locals c)) < 11)%nat
        -> Philosopher.platesCounter (c_phil c') = Philosopher.platesCounter (c_phil c)).
Proof.
  induction rs as [|r rs IH]; intros c Hlen Hflag Hsafe.
  - exists 0%nat, c. simpl in *.
    split; [lia|]. split; [reflexivity|].
    split; [apply rank_0; lia|]. split; [lia|reflexivity].
  - destruct (label_eq_dec (pc (c_locals c)) Returned) as [E|E].
    + exists 0%nat, c. simpl.
      split; [lia|]. split; [reflexivity|]. split; [exact E|]. split; [lia|reflexivity].
    + destruct Hflag as (Hr & Hrest).
      destruct (flagged_step c r E Hr Hsafe) as (c1 & Hstep & Hrank & Hsafe1 & Hsame & Hinc).
      rewrite Hstep in Hrest. simpl in Hlen.
      destruct (IH c1 ltac:(lia) Hrest Hsafe1) as (n & c' & Hn & Hrun & Hret & Hle & Heq).
      exists (S n), c'.
      split; [lia|]. split; [simpl; rewrite Hstep; exact Hrun|].
      split; [exact Hret|].
      destruct (label_eq_dec (pc (c_locals c)) L83) as [E83|E83].
      * rewrite E83 in *. simpl in *. rewrite (Hinc eq_refl) in *.
        rewrite Heq by lia. split; [lia|lia].
      * rewrite (Hsame E83) in *. split; [exact Hle|].
        intros Hlt. apply Heq. lia.
Qed.

(** X7. Cancellation is prompt: when every read of [terminationRequired]
    finds the flag set and the calls return, the thread has returned
    after at most [rank] (never more than 33) statements, and it has
    eaten at most once more. *)
Theorem returns_once_flag_is_set (c : config) (rs : list Z) :
  (rank (pc (c_locals c)) <= length rs)%nat ->
  flag_read_set c rs ->
  counters_safe c ->
  exists n c',
    (n <= rank (pc (c_locals c)) <= 33)%nat
    /\ phil_run c (firstn n rs) = Some c'
    /\ pc (c_locals c') = Returned
    /\ Philosopher.platesCounter (c_phil c') <= Philosopher.platesCounter (c_phil c) + 1.
Proof.
  intros Hlen Hflag Hsafe.
  destruct (flagged_run rs c Hlen Hflag Hsafe) as (n & c' & Hn & Hrun & Hret & Hle & _).
  exists n, c'. split; [|tauto].
  split; [exact Hn|]. destruct (pc (c_locals c)); simpl; lia.
Qed.

(** ** The seconds slept *)

Lemma phil_step_history c r c' :
  phil_step c r = Some c' ->
  exists e, c_history c' = e :: c_history c
            /\ ev_call e = call_of (c_locals c) (c_phil c) /\ ev_ret e = r.
Proof.
  unfold phil_step. intros H.
  destruct (exec (c_locals c) (c_phil c) r) as [[s' p']|]; simpl in H; [|discriminate].
  inversion H; subst c'. simpl. eexists. split; [reflexivity|]. split; reflexivity.
Qed.

Lemma phil_run_history rs : forall c c' e,
  phil_run c rs = Some c' -> In e (c_history c) -> In e (c_history c').
Proof.
  induction rs as [|r rs IH]; intros c c' e H Hin; simpl in H.
  - inversion H; subst; exact Hin.
  - destruct (phil_step c r) as [c1|] eqn:E; simpl in H; [|discriminate].
    apply (IH c1 c' e H).
    destruct (phil_step_history c r c1 E) as (e1 & -> & _). right. exact Hin.
Qed.

Lemma c_mod_8 r : 0 <= r -> 1 <= 1 + c_mod r 8 <= 8.
Proof.
  intros H. unfold c_mod.
  pose proof (Z.rem_bound_pos r 8 H ltac:(lia)). lia.
Qed.

Lemma sleeps_inv_step c r c' :
  phil_step c r = Some c' ->
  (call_of (c_locals c) (c_phil c) = Rand -> 0 <= r) ->
  sleeps_inv c -> sleeps_inv c'.
Proof.
  destruct c as [s p h]. destruct s as [l f t sw fl fr ft sr].
  unfold sleeps_inv, phil_step, exec, call_of. simpl.
  intros H Hr (Hs & Hh).
  destruct l; simplify_option_eq; simpl;
    repeat match goal with
    | |- context [if ?b then _ else _] => destruct b
    end; simpl;
    (split; [first [exact I | apply c_mod_8; apply Hr; reflexivity | idtac]|]);
    try (intros e n [<-|Hin] Hc; simpl in Hc;
         [first [discriminate Hc | inversion Hc; subst; assumption] | eapply Hh; eassumption]).
Qed.

Lemma sleeps_inv_run rs : forall c c',
  phil_run c rs = Some c' ->
  (forall e, In e (c_history c') -> ev_call e = Rand -> 0 <= ev_ret e) ->
  sleeps_inv c -> sleeps_inv c'.
Proof.
  induction rs as [|r rs IH]; intros c c' H Hrand Hinv; simpl in H.
  - inversion H; subst; exact Hinv.
  - destruct (phil_step c r) as [c1|] eqn:E; simpl in H; [|discriminate].
    apply (IH c1 c' H Hrand).
    apply (sleeps_inv_step c r c1 E); [|exact Hinv].
    intros Hc. destruct (phil_step_history c r c1 E) as (e1 & He & Hcall & Hret).
    rewrite <- Hret. apply Hrand; [|congruence].
    apply (phil_run_history rs c1 c' e1 H). rewrite He. left. reflexivity.
Qed.

(** X8. A thread sleeps between 1 and 8 seconds, both when it thinks and
    when it eats, as long as [rand] returns what the C standard says (a
    number that is not negative). *)
Theorem sleeps_one_to_eight (phil : Philosopher.t) (rs : list Z) (c : config)
  (e : event) (n : Z) :
  phil_run (Config entry phil []) rs = Some c ->
  (forall e', In e' (c_history c) -> ev_call e' = Rand -> 0 <= ev_ret e') ->
  In e (c_history c) ->
  ev_call e = Nanosleep n ->
  1 <= n <= 8.
Proof.
  intros Hrun Hrand Hin Hc.
  assert (H0 : sleeps_inv (Config entry phil []))
    by (split; [exact I|intros ? ? []]).
  destruct (sleeps_inv_run rs _ c Hrun Hrand H0) as (_ & Hh).
  exact (Hh e n Hin Hc).
Qed.

(** ** The return of a thread *)

Lemma saw_flag_step c r c' :
  phil_step c r = Some c' ->
  (pc (c_locals c) = L94 \/ pc (c_locals c) = Returned ->
   exists e, In e (c_history c) /\ saw_flag e) ->
  (pc (c_locals c') = L94 \/ pc (c_locals c') = Returned ->
   exists e, In e (c_history c') /\ saw_flag e).
Proof.
  destruct c as [s p h]. destruct s as [l f t sw fl fr ft sr].
  unfold phil_step, exec, call_of, saw_flag. simpl.
  intros H Hinv.
  destruct (Z.eqb_spec r 0) as [Er|Er]; destruct (f =? 0);
    destruct l; simplify_option_eq; simpl;
    intros [E|E]; try discriminate E;
    try (destruct (Hinv ltac:(auto)) as (e & Hin & He); exists e; split;
         [right; exact Hin|exact He]).
  all: eexists; (split; [left; reflexivity|]); simpl; auto.
Qed.

Lemma saw_flag_run rs : forall c c',
  phil_run c rs = Some c' ->
  (pc (c_locals c) = L94 \/ pc (c_locals c) = Returned ->
   exists e, In e (c_history c) /\ saw_flag e) ->
  (pc (c_locals c') = L94 \/ pc (c_locals c') = Returned ->
   exists e, In e (c_history c') /\ saw_flag e).
Proof.
  induction rs as [|r rs IH]; intros c c' H Hinv; simpl in H.
  - inversion H; subst; exact Hinv.
  - destruct (phil_step c r) as [c1|] eqn:E; simpl in H; [|discriminate].
    apply (IH c1 c' H). apply (saw_flag_step c r c1 E Hinv).
Qed.

(** X16. A thread returns only on the flag: in a run from its entry that
    has returned, the thread has read [terminationRequired] at line 53
    and found it set. *)
Theorem returns_only_on_flag (phil : Philosopher.t) (rs : list Z) (c : config) :
  phil_run (Config entry phil []) rs = Some c ->
  pc (c_locals c) = Returned ->
  exists e, In e (c_history c) /\ saw_flag e.
Proof.
  intros Hrun Hpc.
  apply (saw_flag_run rs (Config entry phil []) c Hrun); [|right; exact Hpc].
  simpl. intros [E|E]; discriminate E.
Qed.

(** ** The fork named in the log *)

Lemma pointed_flip phil t v a b :
  int_checked (t - 1) = Some v -> pointed phil t b a -> pointed phil v a b.
Proof.
  intros Hv. apply int_checked_inv in Hv. destruct Hv as [-> _].
  unfold pointed. rewrite Z.even_sub. simpl.
  destruct (Z.even t); simpl; tauto.
Qed.

Lemma even_swaps_succ n :
  (if Nat.even (S n) then 0 else 1) = (if (if Nat.even n then 0 else 1) =? 0 then 1 else 0).
Proof.
  rewrite Nat.even_succ, <- Nat.negb_even. destruct (Nat.even n); reflexivity.
Qed.

#[local] Arguments Nat.even : simpl never.

Lemma label_inv_step c r c' :
  phil_step c r = Some c' -> label_inv c -> label_inv c'.
Proof.
  destruct c as [s p h]. destruct s as [l f t sw fl fr ft sr].
  unfold label_inv, phil_step, exec. simpl.
  intros H (Hsw & Hf).
  destruct l; simpl in H;
    try (inversion H; subst c'; clear H; simpl;
         first
           [ split; [rewrite even_swaps_succ, <- Hsw; reflexivity|exact Hf]
           | split; [exact Hsw|];
             repeat match goal with
             | |- context [if ?b then _ else _] => destruct b eqn:?
             end; simpl; first [exact I | exact Hf | tauto] ]).
  - destruct (int_checked (t - 1)) as [v|] eqn:E; simpl in H; [|discriminate].
    inversion H; subst c'; clear H; simpl.
    split; [exact Hsw|]. apply (pointed_flip p t v fl fr E Hf).
  - simplify_option_eq. simpl. split; [reflexivity|exact Hf].
Qed.

Lemma label_inv_run rs : forall c c',
  phil_run c rs = Some c' -> label_inv c -> label_inv c'.
Proof.
  induction rs as [|r rs IH]; intros c c' H Hinv; simpl in H.
  - inversion H; subst; exact Hinv.
  - destruct (phil_step c r) as [c1|] eqn:E; simpl in H; [|discriminate].
    apply (IH c1 c' H). apply (label_inv_step c r c1 E Hinv).
Qed.

(** X9. The word in the message of line 66 follows all the swaps of the
    thread so far, the fork that line 65 locked only those of the current
    cycle: the message says left when the number of swaps since the
    thread started is even, whereas the mutex is the left fork of the
    philosopher when [triesLeft] is even. *)
Theorem fork_label_counts_all_swaps (phil : Philosopher.t) (rs : list Z) (c : config) :
  phil_run (Config entry phil []) rs = Some c ->
  pc (c_locals c) = L66 ->
  call_of (c_locals c) (c_phil c)
  = Log_Debug "%s takes %s fork\n"
      [AStr (Philosopher.name (c_phil c));
       AStr (if Nat.even (swaps (c_history c)) then "left" else "right")]
  /\ forkLeft (c_locals c)
     = (if Z.even (triesLeft (c_locals c))
        then Philosopher.forkLeft (c_phil c)
        else Philosopher.forkRight (c_phil c)).
Proof.
  intros Hrun Hpc.
  assert (H0 : label_inv (Config entry phil [])) by (split; [reflexivity|exact I]).
  destruct (label_inv_run rs _ c Hrun H0) as (Hsw & Hf).
  unfold call_of. rewrite Hpc in *. rewrite Hsw.
  split.
  - destruct (Nat.even (swaps (c_history c))); reflexivity.
  - unfold pointed in Hf. destruct (Z.even (triesLeft (c_locals c))); tauto.
Qed.

(** ** Instances *)

Lemma eating_sequence_witness :
  option_map
    (fun c => (pc (c_locals c), Philosopher.platesCounter (c_phil c),
               map (fun e => (ev_pc e, Philosopher.isEating (ev_phil e),
                              Philosopher.platesCounter (ev_phil e)))
                 (rev (c_history c))))
    (phil_run (Config (at_pc L81 entry) (wired 0 3) []) [0; 0; 0; 0; 0; 3; 0; 0; 0; 0; 0])
  = Some (L53, 1,
          [(L81, 0, 0); (L82, 1, 0); (L83, 1, 1); (L84, 1, 1); (L85, 1, 1); (L86, 1, 1);
           (L87, 1, 1); (L88, 1, 1); (L89, 1, 1); (L90, 0, 1); (L91, 0, 1)]).
Proof.
  rewrite (proj1 (eating_sequence (at_pc L81 entry) (wired 0 3) []
                    0 0 0 0 0 3 0 0 0 0 0 eq_refl eq_refl
                    ltac:(vm_compute; split; [discriminate | reflexivity]))).
  reflexivity.
Defined.

Lemma acquisition_routine_witness :
  exists c, phil_run (Config (at_pc L58 entry) (wired 0 3) []) [0; 0; 0; 0] = Some c
            /\ triesLeft (c_locals c) = 2
            /\ forkLeft (c_locals c) = 0%nat /\ forkRight (c_locals c) = 1%nat.
Proof.
  eexists. split.
  - apply (acquisition_routine (at_pc L58 entry)
             (at_pc L65 (set_forkRight 1%nat (set_triesLeft 2 entry))) (wired 0 3) []
             0 0 0 0 0 0 EBUSY 0 0 0 0 0 0 0 0 0 0 0).
    + reflexivity.
    + reflexivity.
    + reflexivity.
    + vm_compute. split; [reflexivity | discriminate].
  - repeat split.
Defined.

Lemma nothing_held_on_return_witness :
  match phil_run (Config entry (wired 0 3) [])
          [0; 0; 3; 0; 0; 0; 0; 0; 0; 0; EBUSY; 0; 0; 0; 0; 0; 0; 0; 0; 0; 1; 0; 1; 0] with
  | Some c => pc (c_locals c) = Returned /\ holds (c_history c) = []
  | None => False
  end.
Proof.
  destruct (phil_run (Config entry (wired 0 3) [])
              [0; 0; 3; 0; 0; 0; 0; 0; 0; 0; EBUSY; 0; 0; 0; 0; 0; 0; 0; 0; 0; 1; 0; 1; 0])
    as [c|] eqn:E; [|vm_compute in E; discriminate].
  assert (Hpc : pc (c_locals c) = Returned)
    by (vm_compute in E; injection E as <-; reflexivity).
  split; [exact Hpc|].
  apply (nothing_held_on_return (Config entry (wired 0 3) []) c _ eq_refl eq_refl E).
  exact Hpc.
Defined.

Lemma at_most_two_probes_witness :
  match phil_run (Config entry (wired 0 3) []) failed_blocking_lock with
  | Some c =>
      pc (c_locals c) = L67 /\ triesLeft (c_locals c) = -1
      /\ probes (c_history c) = 2%nat
      /\ call_of (c_locals c) (c_phil c) = Pthread_mutex_lock (forkRight (c_locals c))
  | None => False
  end.
Proof.
  destruct (phil_run (Config entry (wired 0 3) []) failed_blocking_lock)
    as [c|] eqn:E; [|vm_compute in E; discriminate].
  assert (Hc : pc (c_locals c) = L67 /\ triesLeft (c_locals c) = -1)
    by (vm_compute in E; injection E as <-; split; reflexivity).
  destruct Hc as [Hpc Ht].
  destruct (at_most_two_probes (Config entry (wired 0 3) []) c failed_blocking_lock
              eq_refl eq_refl E) as (_ & H67 & _).
  destruct (H67 Hpc) as [(Hpos & _)|(_ & Hcall & Hn)]; [lia|].
  repeat split; assumption.
Defined.

Lemma ring_wiring_witness :
  match steps (initial junk0) startup with
  | Some g => wiring g = ring
  | None => False
  end.
Proof.
  destruct (steps (initial junk0) startup) as [g|] eqn:E;
    [|vm_compute in E; discriminate].
  assert (Hr : reachable g) by (exists junk0, startup; exact E).
  apply (ring_wiring g Hr).
  vm_compute in E. injection E as <-.
  intros k Hk. destruct k as [|[|[|[|[|k]]]]]; try lia; eexists; reflexivity.
Defined.

Lemma shutdown_without_join_witness :
  exists g', steps flagged (main_moves [0; 0; 0]) = Some g' /\ exit_status g' = Some 0.
Proof.
  destruct (shutdown_without_join flagged 0 0 0 eq_refl eq_refl eq_refl)
    as ((g' & H1 & H2 & _) & _).
  exists g'. split; assumption.
Defined.


Lemma neighbours_never_eat_together_witness :
  match steps (initial junk0) two_eat with
  | Some g => eats g 0 = true /\ eats g 2 = true
              /\ 2%nat <> right_of 0 /\ 0%nat <> right_of 2
  | None => False
  end.
Proof.
  destruct (steps (initial junk0) two_eat) as [g|] eqn:E;
    [|vm_compute in E; discriminate].
  assert (Hr : reachable g) by (exists junk0, two_eat; exact E).
  assert (He : eats g 0 = true /\ eats g 2 = true)
    by (vm_compute in E; injection E as <-; split; reflexivity).
  destruct He as [H0 H2].
  split; [exact H0|]. split; [exact H2|].
  apply (neighbours_never_eat_together g 0 2 Hr H0 H2). lia.
Defined.

Lemma at_most_two_eat_witness :
  match steps (initial junk0) two_eat with
  | Some g => (length (eaters g) <= 2)%nat
  | None => False
  end.
Proof.
  destruct (steps (initial junk0) two_eat) as [g|] eqn:E;
    [|vm_compute in E; discriminate].
  apply (at_most_two_eat g). exists junk0, two_eat. exact E.
Defined.

Lemma forks_free_when_all_returned_witness :
  match steps (initial junk0) all_return with
  | Some g => forks g = replicate 5 Unlocked
  | None => False
  end.
Proof.
  destruct (steps (initial junk0) all_return) as [g|] eqn:E;
    [|vm_compute in E; discriminate].
  assert (Hr : reachable g) by (exists junk0, all_return; exact E).
  apply (forks_free_when_all_returned g Hr).
  vm_compute in E. injection E as <-.
  intros k Hk. destruct k as [|[|[|[|[|k]]]]]; try lia;
    eexists; split; reflexivity.
Defined.

Lemma lock_discipline_witness :
  match steps (initial junk0) deadlock_schedule with
  | Some g => initialised (forks g !! 1%nat) /\ forks g !! 1%nat <> Some (Locked 0)
  | None => False
  end.
Proof.
  destruct (steps (initial junk0) deadlock_schedule) as [g|] eqn:E;
    [|vm_compute in E; discriminate].
  assert (Hr : reachable g) by (exists junk0, deadlock_schedule; exact E).
  assert (Hs : exists s, threads g !! 0%nat = Some (Some s)
                         /\ call_of s (wired 0 3) = Pthread_mutex_lock 1)
    by (vm_compute in E; injection E as <-; eexists; split; reflexivity).
  destruct Hs as (s & Hs & Hc).
  apply (proj1 (lock_discipline g 0 s (wired 0 3) 1 Hr Hs)).
  left. exact Hc.
Defined.

Lemma philosopher_moves_unless_blocked_witness :
  match steps (initial junk0) startup with
  | Some g => exists g', step g (Step_phil 0 0) = Some g'
  | None => False
  end.
Proof.
  destruct (steps (initial junk0) startup) as [g|] eqn:E;
    [|vm_compute in E; discriminate].
  assert (Hr : reachable g) by (exists junk0, startup; exact E).
  vm_compute in E. injection E as <-.
  apply (philosopher_moves_unless_blocked _ 0 0 Hr eq_refl).
  - eexists. eexists. split; [reflexivity|]. split; [reflexivity|].
    split; [discriminate|]. intros H; discriminate H.
  - intros (s & o & Hs & [(Hpc & _)|(Hpc & _)]);
      vm_compute in Hs; injection Hs as <-; discriminate Hpc.
Defined.

Lemma stuck_is_circular_wait_witness :
  match steps (initial junk0) deadlock_schedule with
  | Some g => waits_for_right g 0
  | None => False
  end.
Proof.
  destruct (steps (initial junk0) deadlock_schedule) as [g|] eqn:E;
    [|vm_compute in E; discriminate].
  assert (Hr : reachable g) by (exists junk0, deadlock_schedule; exact E).
  vm_compute in E. injection E as <-.
  apply (stuck_is_circular_wait _ Hr eq_refl).
  - intros k Hk. destruct k as [|[|[|[|[|k]]]]]; try lia;
      (eexists; eexists; split; [reflexivity|]; split; [reflexivity|];
       split; [discriminate|]; intros H; discriminate H).
  - intros k Hk. destruct k as [|[|[|[|[|k]]]]]; try lia; reflexivity.
  - lia.
Defined.

Lemma returns_once_flag_is_set_witness :
  exists n c',
    (n <= 12)%nat
    /\ phil_run (Config (at_pc L82 entry) (wired 0 3) []) (firstn n (replicate 12 1))
       = Some c'
    /\ pc (c_locals c') = Returned
    /\ Philosopher.platesCounter (c_phil c') <= 1.
Proof.
  destruct (returns_once_flag_is_set (Config (at_pc L82 entry) (wired 0 3) [])
              (replicate 12 1))
    as (n & c' & Hn & Hrun & Hret & Hle).
  - simpl. lia.
  - vm_compute. repeat split; discriminate.
  - vm_compute. split; intros _; split; congruence.
  - exists n, c'. split; [exact (proj1 Hn)|]. split; [exact Hrun|].
    split; [exact Hret|exact Hle].
Defined.

Lemma sleeps_one_to_eight_witness :
  match phil_run (Config entry (wired 0 3) []) [0; 0; 12; 0] with
  | Some c => forall e n, In e (c_history c) -> ev_call e = Nanosleep n -> 1 <= n <= 8
  | None => False
  end.
Proof.
  destruct (phil_run (Config entry (wired 0 3) []) [0; 0; 12; 0]) as [c|] eqn:E;
    [|vm_compute in E; discriminate].
  intros e n.
  apply (sleeps_one_to_eight (wired 0 3) [0; 0; 12; 0] c e n E).
  vm_compute in E. injection E as <-.
  intros e' [<-|[<-|[<-|[<-|[]]]]] Hc; try discriminate Hc; simpl; lia.
Defined.

Lemma fork_label_counts_all_swaps_witness :
  match phil_run (Config entry (wired 0 3) []) eat_after_one_swap with
  | Some c =>
      call_of (c_locals c) (c_phil c)
      = Log_Debug "%s takes %s fork\n" [AStr "Socrates"; AStr "right"]
      /\ forkLeft (c_locals c) = Philosopher.forkLeft (wired 0 3)
  | None => False
  end.
Proof.
  destruct (phil_run (Config entry (wired 0 3) []) eat_after_one_swap) as [c|] eqn:E;
    [|vm_compute in E; discriminate].
  assert (Hpc : pc (c_locals c) = L66)
    by (vm_compute in E; injection E as <-; reflexivity).
  destruct (fork_label_counts_all_swaps (wired 0 3) eat_after_one_swap c E Hpc)
    as (Hlog & Hfork).
  rewrite Hlog, Hfork. vm_compute in E. injection E as <-. split; reflexivity.
Defined.

Lemma sigterm_stops_threads_witness :
  match steps (initial junk0) startup with
  | Some g =>
      exists g', steps g (Signal_SIGTERM :: lockstep [0; 0]) = Some g'
                 /\ terminationRequired g' = true
                 /\ exists s', threads g' !! 0%nat = Some (Some s')
                               /\ (rank (pc s') + 2 <= 2)%nat
  | None => False
  end.
Proof.
  destruct (steps (initial junk0) startup) as [g|] eqn:E;
    [|vm_compute in E; discriminate].
  assert (Hr : reachable g) by (exists junk0, startup; exact E).
  assert (Hs : threads g !! 0%nat = Some (Some entry))
    by (vm_compute in E; injection E as <-; reflexivity).
  destruct (steps g (Signal_SIGTERM :: lockstep [0; 0])) as [g'|] eqn:E';
    [|vm_compute in E; injection E as <-; vm_compute in E'; discriminate E'].
  exists g'. split; [reflexivity|].
  destruct (sigterm_stops_threads g g' (lockstep [0; 0]) 0 entry Hr Hs E')
    as (Hflag & s' & Hs' & Hle & _).
  split; [exact Hflag|]. exists s'. split; [exact Hs'|exact Hle].
Defined.

Lemma monitor_turn_witness :
  match steps (initial junk0) startup with
  | Some g =>
      option_map (latest_calls 39) (steps g (main_moves (replicate 39 0)))
      = Some (monitor_calls [wired 0 3; wired 1 4; wired 2 5; wired 3 6; wired 4 7])
  | None => False
  end.
Proof.
  destruct (steps (initial junk0) startup) as [g|] eqn:E;
    [|vm_compute in E; discriminate].
  assert (H : exit_status g = None /\ Main.pc (main g) = Main.M151
              /\ terminationRequired g = false /\ length (philosophers g) = 5%nat
              /\ philosophers g = [wired 0 3; wired 1 4; wired 2 5; wired 3 6; wired 4 7])
    by (vm_compute in E; injection E as <-; repeat split).
  destruct H as (Hex & Hpc & Hflag & Hlen & Hps).
  pose proof (monitor_turn g (replicate 39 0) Hex Hpc Hflag Hlen eq_refl) as Hturn.
  destruct (steps g (main_moves (replicate 39 0))) as [g'|]; [|discriminate Hturn].
  simpl in Hturn. simpl. rewrite <- Hps. congruence.
Defined.

Lemma isEating_tells_where_thread_is_witness :
  match steps (initial junk0) two_eat with
  | Some g => exists p, philosophers g !! 0%nat = Some p /\ Philosopher.isEating p = 1
  | None => False
  end.
Proof.
  destruct (steps (initial junk0) two_eat) as [g|] eqn:E;
    [|vm_compute in E; discriminate].
  assert (Hr : reachable g) by (exists junk0, two_eat; exact E).
  assert (H : exists s p, threads g !! 0%nat = Some (Some s)
                          /\ philosophers g !! 0%nat = Some p /\ dining s = true)
    by (vm_compute in E; injection E as <-; eexists; eexists; repeat split).
  destruct H as (s & p & Hs & Hp & Hd).
  exists p. split; [exact Hp|].
  rewrite (isEating_tells_where_thread_is g 0 s p Hr Hs Hp), Hd. reflexivity.
Defined.

Lemma meal_always_ends_witness :
  match steps (initial junk0) two_eat with
  | Some g => exists g', steps g (alone 0 9) = Some g'
                         /\ forall m, forks g' !! m <> Some (Locked 0)
  | None => False
  end.
Proof.
  destruct (steps (initial junk0) two_eat) as [g|] eqn:E;
    [|vm_compute in E; discriminate].
  assert (Hr : reachable g) by (exists junk0, two_eat; exact E).
  assert (H : exists s, threads g !! 0%nat = Some (Some s)
                        /\ philosophers g !! 0%nat = Some (Philosopher.set_isEating 1 (wired 0 3))
                        /\ pc s = L83 /\ exit_status g = None)
    by (vm_compute in E; injection E as <-; eexists; repeat split).
  destruct H as (s & Hs & Hp & Hpc & Hex).
  destruct (meal_always_ends g 0 s _ Hr Hex Hs Hp) as (g' & Hsteps & _ & Hfree).
  - rewrite Hpc. simpl. lia.
  - unfold INT_MIN, INT_MAX. simpl. lia.
  - rewrite Hpc in Hsteps. exists g'. split; [exact Hsteps|exact Hfree].
Defined.

Lemma returns_only_on_flag_witness :
  match phil_run (Config entry (wired 0 3) []) [1; 0] with
  | Some c => exists e, In e (c_history c) /\ saw_flag e
  | None => False
  end.
Proof.
  destruct (phil_run (Config entry (wired 0 3) []) [1; 0]) as [c|] eqn:E;
    [|vm_compute in E; discriminate].
  apply (returns_only_on_flag (wired 0 3) [1; 0] c E).
  vm_compute in E. injection E as <-. reflexivity.
Defined.
